(** * Seasonal-Mortality: the notebook's table transforms, embedded in Rocq

    The analysis lives in one notebook, [MortalityAnalysis_11.12.2019.ipynb].
    Its code cells are embedded here as functions over a small model of the
    pandas objects they manipulate:

    - a [Series] is the list of its values, a [DataFrame] an index (one
      [Timestamp] per row) plus an ordered list of named columns, because the
      notebook addresses columns both by label and by position ([iloc]);
    - floating-point numbers are idealised as exact rationals ([Qc]); where
      a statement is about the roundings themselves, the lines concerned are
      given a second time on one row in binary64 ([float]);
    - a Python exception is a [Raise] in the [Result] monad, and running the
      notebook top to bottom is the monadic sequence of its cells;
    - the scikit-learn routines ([LinearRegression.fit], the random
      permutation behind [train_test_split], [cross_val_score]) are library
      code and enter as section variables. *)

From Stdlib Require Import PrimFloat.
From Stdlib Require Import String Ascii.
From Stdlib Require Import List ZArith QArith Qcanon Lia Bool Arith.
Import ListNotations.

Open Scope string_scope.

(** ** Python exceptions and the result monad *)

Inductive PyError : Type :=
| KeyError (label : string)
| ValueError (msg : string)
| IndexError (msg : string).

Inductive Result (A : Type) : Type :=
| Ok (a : A)
| Raise (e : PyError).

Arguments Ok {A} a.
Arguments Raise {A} e.

Definition bind {A B : Type} (m : Result A) (k : A -> Result B) : Result B :=
  match m with
  | Ok a => k a
  | Raise e => Raise e
  end.

Notation "x <- m ;; k" := (bind m (fun x => k))
  (at level 61, m at next level, right associativity).
Notation "' pat <- m ;; k" := (bind m (fun x => match x with pat => k end))
  (at level 61, pat pattern, m at next level, right associativity).

(** A Python [for] loop whose body may raise. *)
Fixpoint for_each {A S : Type} (xs : list A) (body : A -> S -> Result S) (s : S)
  : Result S :=
  match xs with
  | [] => Ok s
  | x :: xs' => s' <- body x s ;; for_each xs' body s'
  end.

(** ** Numbers *)

Definition num (z : Z) : Qc := Q2Qc (inject_Z z).

Definition Qc_eqb (x y : Qc) : bool := Qeq_bool (this x) (this y).

(** ** Timestamps (the index holds the last day of each quarter) *)

Record Timestamp : Type := mkTimestamp { year : Z; month : Z; day : Z }.

Definition ts_eqb (a b : Timestamp) : bool :=
  (year a =? year b)%Z && (month a =? month b)%Z && (day a =? day b)%Z.

Definition ts_ltb (a b : Timestamp) : bool :=
  (year a <? year b)%Z
  || ((year a =? year b)%Z
      && ((month a <? month b)%Z
          || ((month a =? month b)%Z && (day a <? day b)%Z))).

(** ** Series *)

Definition Series : Type := list Qc.

Fixpoint zip_with {A B C : Type} (f : A -> B -> C) (xs : list A) (ys : list B)
  : list C :=
  match xs, ys with
  | x :: xs', y :: ys' => f x y :: zip_with f xs' ys'
  | _, _ => []
  end.

(** Element-wise arithmetic. Every pair of series the notebook combines comes
    from frames sharing one index, so pandas pairs them by position. *)
Definition series_add (a b : Series) : Series := zip_with Qcplus a b.
Definition series_sub (a b : Series) : Series := zip_with Qcminus a b.
Definition series_mul (a b : Series) : Series := zip_with Qcmult a b.
Definition series_div (a b : Series) : Series := zip_with Qcdiv a b.
Definition series_div_scalar (a : Series) (c : Qc) : Series :=
  map (fun x => (x / c)%Qc) a.
Definition series_mul_scalar (a : Series) (c : Qc) : Series :=
  map (fun x => (x * c)%Qc) a.
Definition series_eq_scalar (a : Series) (c : Qc) : list bool :=
  map (fun x => Qc_eqb x c) a.
Definition mask_or (a b : list bool) : list bool := zip_with orb a b.

(** Boolean indexing: keep the positions whose mask entry is [true]. *)
Fixpoint select {A : Type} (mask : list bool) (xs : list A) : list A :=
  match mask, xs with
  | b :: mask', x :: xs' => if b then x :: select mask' xs' else select mask' xs'
  | _, _ => []
  end.

Definition qsum (xs : list Qc) : Qc := fold_right Qcplus (num 0) xs.

(** ** Data frames *)

Record DataFrame : Type := mkDataFrame {
  index : list Timestamp;
  columns : list (string * Series)
}.

Definition nrows (df : DataFrame) : nat := length (index df).
Definition column_names (df : DataFrame) : list string := map fst (columns df).

(** The column under a label. The labels of a frame are taken to be
    distinct, as those of the observation table are: on a repeated label
    pandas hands back a frame instead of a series, which this lookup (the
    first match) does not represent. *)
Fixpoint lookup (k : string) (cols : list (string * Series)) : option Series :=
  match cols with
  | [] => None
  | (n, s) :: rest => if String.eqb k n then Some s else lookup k rest
  end.

(** [df[k]] *)
Definition getitem (df : DataFrame) (k : string) : Result Series :=
  match lookup k (columns df) with
  | Some s => Ok s
  | None => Raise (KeyError k)
  end.

Fixpoint assign (k : string) (s : Series) (cols : list (string * Series))
  : list (string * Series) :=
  match cols with
  | [] => [(k, s)]
  | (n, s0) :: rest =>
      if String.eqb k n then (n, s) :: rest else (n, s0) :: assign k s rest
  end.

(** [df[k] = s]: overwrite the column in place, or append it as the last one. *)
Definition setitem (df : DataFrame) (k : string) (s : Series) : DataFrame :=
  mkDataFrame (index df) (assign k s (columns df)).

Fixpoint remove_column (k : string) (cols : list (string * Series))
  : list (string * Series) :=
  match cols with
  | [] => []
  | (n, s) :: rest =>
      if String.eqb k n then rest else (n, s) :: remove_column k rest
  end.

(** [df.drop(columns=labels, inplace=True)] *)
Definition drop (df : DataFrame) (labels : list string) : Result DataFrame :=
  for_each labels
    (fun k d =>
       match lookup k (columns d) with
       | Some _ => Ok (mkDataFrame (index d) (remove_column k (columns d)))
       | None => Raise (KeyError k)
       end)
    df.

(** [df.insert(loc, k, c)] with a scalar [c] broadcast over the rows. *)
Definition insert (df : DataFrame) (loc : nat) (k : string) (c : Qc)
  : Result DataFrame :=
  match lookup k (columns df) with
  | Some _ => Raise (ValueError "cannot insert, already exists")
  | None =>
      if (length (columns df) <? loc)%nat
      then Raise (IndexError "index out of bounds")
      else Ok (mkDataFrame (index df)
                 (firstn loc (columns df)
                    ++ (k, repeat c (nrows df)) :: skipn loc (columns df))%list)
  end.

(** [df.iloc[:, lo:]] and [df.iloc[:, lo:hi]] (slices clamp, they never raise) *)
Definition iloc_from (df : DataFrame) (lo : nat) : DataFrame :=
  mkDataFrame (index df) (skipn lo (columns df)).
Definition iloc_range (df : DataFrame) (lo hi : nat) : DataFrame :=
  mkDataFrame (index df) (firstn (hi - lo)%nat (skipn lo (columns df))).

(** [df[mask]] *)
Definition df_select (df : DataFrame) (mask : list bool) : DataFrame :=
  mkDataFrame (select mask (index df))
    (map (fun c => (fst c, select mask (snd c))) (columns df)).

(** Positional row selection, as [train_test_split] does with its index arrays. *)
Definition take {A : Type} (d : A) (xs : list A) (rows : list nat) : list A :=
  map (fun i => nth i xs d) rows.

Definition df_take (df : DataFrame) (rows : list nat) : DataFrame :=
  mkDataFrame (take (mkTimestamp 0 0 0) (index df) rows)
    (map (fun c => (fst c, take (num 0) (snd c) rows)) (columns df)).

(** *** [groupby(index).sum()] *)

Fixpoint insert_key (d : Timestamp) (keys : list Timestamp) : list Timestamp :=
  match keys with
  | [] => [d]
  | k :: rest =>
      if ts_eqb d k then keys
      else if ts_ltb d k then d :: keys
      else k :: insert_key d rest
  end.

(** The distinct index values, in increasing order (pandas sorts group keys). *)
Definition group_keys (idx : list Timestamp) : list Timestamp :=
  fold_right insert_key [] idx.

(** The sum of the values on the rows whose index is [d]. *)
Definition group_total (idx : list Timestamp) (s : Series) (d : Timestamp) : Qc :=
  qsum (select (map (ts_eqb d) idx) s).

Definition groupby_index_sum (df : DataFrame) : DataFrame :=
  let keys := group_keys (index df) in
  mkDataFrame keys
    (map (fun c => (fst c, map (group_total (index df) (snd c)) keys))
       (columns df)).

(** [df.index.month == m] *)
Definition month_is (df : DataFrame) (m : Z) : list bool :=
  map (fun d => (month d =? m)%Z) (index df).

(** Row [i] of a frame, as the list of its cells in column order. *)
Definition row_values (df : DataFrame) (i : nat) : list Qc :=
  map (fun c => nth i (snd c) (num 0)) (columns df).

(** Every column has one value per index entry. *)
Definition well_formed (df : DataFrame) : Prop :=
  Forall (fun c => length (snd c) = nrows df) (columns df).

(** ** Cell 5: the Feature Builder *)

Definition agelist : list string := ["65"; "75"; "85"].
Definition agedesc : list string :=
  ["65-74"; "75-84"; "85+  "; "All - Test data only"].

Definition winter_year_step (age : string) (mydata : DataFrame)
  : Result DataFrame :=
  m <- getitem mydata ("Age=M" ++ age) ;;
  f <- getitem mydata ("Age=F" ++ age) ;;
  let age_col := series_add m f in
  w <- getitem mydata "Winter" ;;
  let mydata := setitem mydata ("WINT_" ++ age) (series_mul w age_col) in
  y <- getitem mydata "Year" ;;
  Ok (setitem mydata ("IMP_" ++ age) (series_mul y age_col)).

Definition frost_vaccine_step (age : string) (mydata : DataFrame)
  : Result DataFrame :=
  m <- getitem mydata ("Age=M" ++ age) ;;
  f <- getitem mydata ("Age=F" ++ age) ;;
  let age_col := series_add m f in
  a <- getitem mydata "AF" ;;
  let mydata := setitem mydata ("AF_" ++ age) (series_mul a age_col) in
  v <- getitem mydata "VE" ;;
  Ok (setitem mydata ("VE_" ++ age) (series_mul v age_col)).

(** The two loops over [agelist] that add the interaction columns. *)
Definition feature_builder (mydata : DataFrame) : Result DataFrame :=
  mydata <- for_each agelist winter_year_step mydata ;;
  for_each agelist frost_vaccine_step mydata.

(** [X = mydata.copy()], the [drop] and the four placeholder [insert]s. *)
Definition make_X (mydata : DataFrame) : Result DataFrame :=
  X <- drop mydata ["VE"; "Year"; "Winter"; "AF"] ;;
  X <- insert X 5 "PredR" (num 0) ;;
  X <- insert X 6 "PredD" (num 0) ;;
  X <- insert X 7 "PredR_Base" (num 0) ;;
  insert X 8 "PredD_Base" (num 0).

Definition cell5 (mydata : DataFrame) : Result (DataFrame * DataFrame) :=
  mydata <- feature_builder mydata ;;
  X <- make_X mydata ;;
  Ok (mydata, X).

(** ** scikit-learn objects *)

(** A fitted [LinearRegression]: one coefficient per predictor column, and the
    intercept. *)
Record LinearRegression : Type := mkLinearRegression {
  coef_ : list Qc;
  intercept_ : Qc
}.

Definition dot (xs coef : list Qc) : Qc := qsum (zip_with Qcmult xs coef).

(** [model.predict(P)]: the linear form of the coefficients on every row. *)
Definition predict (model : LinearRegression) (P : DataFrame) : Result Series :=
  if (length (coef_ model) =? length (columns P))%nat
  then Ok (map (fun i => (dot (row_values P i) (coef_ model) + intercept_ model)%Qc)
             (seq 0 (nrows P)))
  else Raise (ValueError "shapes not aligned").

(** [P.mul(coef, axis=1)]: column [j] times [coef[j]]. *)
Definition mul_columns (P : DataFrame) (coef : list Qc) : Result DataFrame :=
  if (length coef =? length (columns P))%nat
  then Ok (mkDataFrame (index P)
             (zip_with (fun c k => (fst c, series_mul_scalar (snd c) k))
                (columns P) coef))
  else Raise (ValueError "Unable to coerce to Series").

(** [P.mul(values, axis=0)]: row [i] times [values[i]]. *)
Definition mul_rows (P : DataFrame) (values : list Qc) : Result DataFrame :=
  if (length values =? nrows P)%nat
  then Ok (mkDataFrame (index P)
             (map (fun c => (fst c, series_mul (snd c) values)) (columns P)))
  else Raise (ValueError "Unable to coerce to Series").

(** [P / c] *)
Definition df_div_scalar (P : DataFrame) (c : Qc) : DataFrame :=
  mkDataFrame (index P)
    (map (fun col => (fst col, series_div_scalar (snd col) c)) (columns P)).

(** The age-band filter [(X["Age=M"+age] == 1) | (X["Age=F"+age] == 1)]. *)
Definition age_mask (X : DataFrame) (age : string) : Result (list bool) :=
  m <- getitem X ("Age=M" ++ age) ;;
  f <- getitem X ("Age=F" ++ age) ;;
  Ok (mask_or (series_eq_scalar m (num 1)) (series_eq_scalar f (num 1))).

Definition age_rows (X : DataFrame) (age : string) : Result DataFrame :=
  mask <- age_mask X age ;;
  Ok (df_select X mask).

Section Notebook.

(** *** Library routines the notebook calls *)

(** numpy's generator state, the generator seeded from an integer, and the
    permutation of [0..n-1] a generator draws. *)
Variable RandomState : Type.
Variable seeded : Z -> RandomState.
Variable permutation : RandomState -> nat -> list nat.

(** [LinearRegression().fit(P, y)] *)
Variable fit : DataFrame -> Series -> LinearRegression.

(** [cross_val_score(LinearRegression(), P, y, cv=k)] *)
Variable cross_val_score : DataFrame -> Series -> nat -> Result (list Qc).

(** [check_random_state]: an integer seeds a fresh generator, [None] hands
    out the process-wide one. *)
Definition check_random_state (random_state : option Z) (global : RandomState)
  : RandomState :=
  match random_state with
  | Some seed => seeded seed
  | None => global
  end.

(** The number of holdout rows for [test_size=0.2]: a fifth of the rows,
    rounded up. *)
Definition n_test_of (n : nat) : nat := ((n + 4) / 5)%nat.

(** The index arrays of the shuffled split: the head of the permutation is
    the holdout part, the rest the training part. *)
Definition shuffle_split (rs : RandomState) (n : nat)
  : Result (list nat * list nat) :=
  let n_test := n_test_of n in
  let n_train := (n - n_test)%nat in
  if (n_train =? 0)%nat
  then Raise (ValueError "the resulting train set will be empty")
  else
    let p := permutation rs n in
    Ok (firstn n_train (skipn n_test p), firstn n_test p).

(** [train_test_split(P, y, test_size=0.2, random_state=rs)] *)
Definition train_test_split (global : RandomState) (P : DataFrame) (y : Series)
    (random_state : option Z)
  : Result (DataFrame * DataFrame * Series * Series) :=
  ' (train, test) <-
      shuffle_split (check_random_state random_state global) (nrows P) ;;
  Ok (df_take P train, df_take P test,
      take (num 0) y train, take (num 0) y test).

(** *** Cell 7: split, fit, predict, decompose, cross-validate *)

Record Cell7 : Type := mkCell7 {
  X_out : DataFrame;
  X_pred : DataFrame;
  X_cont : DataFrame;
  X_train : DataFrame;
  X_test : DataFrame;
  y_train : Series;
  y_test : Series;
  model : LinearRegression;
  model_base : LinearRegression
}.

(** [mydata['Persons'] * X[col] / 1000 / 52] *)
Definition death_count (persons rate : Series) : Series :=
  series_div_scalar
    (series_div_scalar (series_mul persons rate) (num 1000)) (num 52).

(** The cell up to the cross-validation loop. *)
Definition cell7_models (global : RandomState) (mydata X : DataFrame)
  : Result Cell7 :=
  let X_pred := iloc_from X 9 in
  y <- getitem X "Rate" ;;
  ' (X_train, X_test, y_train, y_test) <-
      train_test_split global X_pred y (Some 10101%Z) ;;
  let model := fit X_train y_train in
  predR <- predict model X_pred ;;
  let X := setitem X "PredR" predR in
  persons <- getitem mydata "Persons" ;;
  predR <- getitem X "PredR" ;;
  let X := setitem X "PredD" (death_count persons predR) in
  X_cont <- mul_columns X_pred (coef_ model) ;;
  persons <- getitem mydata "Persons" ;;
  X_cont <- mul_rows X_cont persons ;;
  let X_cont := df_div_scalar (df_div_scalar X_cont (num 1000)) (num 52) in
  let model_base := fit (iloc_range X_train 0 12) y_train in
  predRB <- predict model_base (iloc_range X_pred 0 12) ;;
  let X := setitem X "PredR_Base" predRB in
  persons <- getitem mydata "Persons" ;;
  predRB <- getitem X "PredR_Base" ;;
  let X := setitem X "PredD_Base" (death_count persons predRB) in
  Ok (mkCell7 X X_pred X_cont X_train X_test y_train y_test model model_base).

(** What one round of the cross-validation loop hands to
    [cross_val_score]: the rows of the age band, cut to [Xg.iloc[:,7:]] for
    the full model and to [Xg.iloc[:,7:19]] for the base model, and the
    target [Xg["Rate"]]. *)
Definition cv_frames (X : DataFrame) (i : nat)
  : Result (DataFrame * DataFrame * Series) :=
  let age := nth i agelist "" in
  Xg <- age_rows X age ;;
  rate <- getitem Xg "Rate" ;;
  Ok (iloc_from Xg 7, iloc_range Xg 7 19, rate).

(** One round of the loop. Each of the two [print] calls is recorded as its
    label and the scores [cross_val_score] returned; the ["%0.4f"] formatting
    of the scores and the trailing ["\n"] argument of the second call, which
    decide the text on the screen only, are not represented. *)
Definition cross_validation_step (X : DataFrame)
    (i : nat) (out : list (string * list Qc))
  : Result (list (string * list Qc)) :=
  ' (P_full, P_base, rate) <- cv_frames X i ;;
  full <- cross_val_score P_full rate 5 ;;
  let label := "Full model CV Score - Age " ++ nth i agedesc "" ++ ": " in
  let out := (out ++ [(label, full)])%list in
  base <- cross_val_score P_base rate 5 ;;
  let label := "Base model CV Score - Age " ++ nth i agedesc "" ++ ": " in
  Ok (out ++ [(label, base)])%list.

Definition cell7 (global : RandomState) (mydata X : DataFrame)
  : Result (Cell7 * list (string * list Qc)) :=
  out <- cell7_models global mydata X ;;
  printed <- for_each [0; 1; 2]%nat (cross_validation_step (X_out out)) [] ;;
  Ok (out, printed).

End Notebook.

(** ** Cell 9: the Aggregator *)

(** A series handed to the plots: its index and its values. *)
Definition Plot : Type := (list Timestamp * Series)%type.
Definition PyDict : Type := list (string * Plot).

Fixpoint dict_update (k : string) (v : Plot) (d : PyDict) : PyDict :=
  match d with
  | [] => [(k, v)]
  | (n, v0) :: rest =>
      if String.eqb k n then (n, v) :: rest else (n, v0) :: dict_update k v rest
  end.

Fixpoint dict_get (k : string) (d : PyDict) : option Plot :=
  match d with
  | [] => None
  | (n, v) :: rest => if String.eqb k n then Some v else dict_get k rest
  end.

(** [dfd[j].update({k: v})] and [dfd[j] = d] *)
Fixpoint list_set {A : Type} (j : nat) (f : A -> A) (xs : list A) : list A :=
  match xs, j with
  | [], _ => []
  | x :: rest, O => f x :: rest
  | x :: rest, S j' => x :: list_set j' f rest
  end.

Definition dfd_update (j : nat) (k : string) (v : Plot) (dfd : list PyDict)
  : list PyDict :=
  list_set j (dict_update k v) dfd.

(** [G[num] / G[den] * 1000 * 52] *)
Definition annual_rate (num_col den_col : Series) : Series :=
  series_mul_scalar
    (series_mul_scalar (series_div num_col den_col) (num 1000)) (num 52).

Definition rate_dict (i : nat) (Xg : DataFrame) : Result PyDict :=
  deaths <- getitem Xg "Deaths" ;;
  persons <- getitem Xg "Persons" ;;
  predD <- getitem Xg "PredD" ;;
  persons' <- getitem Xg "Persons" ;;
  Ok [("Actual - Age " ++ nth i agedesc "",
       (index Xg, annual_rate deaths persons));
      ("Predicted - Age " ++ nth i agedesc "",
       (index Xg, annual_rate predD persons'))].

Definition cell9_step (X X_cont : DataFrame) (i : nat) (dfd : list PyDict)
  : Result (list PyDict) :=
  if (i <? 3)%nat then
    let age := nth i agelist "" in
    let desc := nth i agedesc "" in
    Xg <- age_rows X age ;;
    let Xg := groupby_index_sum Xg in
    deaths <- getitem Xg "Deaths" ;;
    let dfd := dfd_update 0 ("Actual - Age " ++ desc) (index Xg, deaths) dfd in
    deaths <- getitem Xg "Deaths" ;;
    predD <- getitem Xg "PredD" ;;
    let dfd := dfd_update 1 ("Unexplained - Age " ++ desc)
                 (index Xg, series_sub deaths predD) dfd in
    let Xgw := df_select Xg (month_is Xg 2) in
    let Xgw := groupby_index_sum Xgw in
    deaths <- getitem Xgw "Deaths" ;;
    predDB <- getitem Xgw "PredD_Base" ;;
    let dfd := dfd_update 2 ("Actual - Age " ++ desc)
                 (index Xgw, series_sub deaths predDB) dfd in
    deaths <- getitem Xgw "Deaths" ;;
    predD <- getitem Xgw "PredD" ;;
    let dfd := dfd_update 3 ("Unexplained - Age " ++ desc)
                 (index Xgw, series_sub deaths predD) dfd in
    let Xgc := df_select X_cont (month_is X_cont 2) in
    let Xgc := groupby_index_sum Xgc in
    af <- getitem Xgc ("AF_" ++ age) ;;
    let dfd := dfd_update 4 ("Contribution - AF " ++ desc) (index Xgc, af) dfd in
    ve <- getitem Xgc ("VE_" ++ age) ;;
    let dfd := dfd_update 5 ("Contribution - VE " ++ desc) (index Xgc, ve) dfd in
    rates <- rate_dict i Xg ;;
    Ok (list_set (i + 6)%nat (fun _ => rates) dfd)
  else
    let Xg := groupby_index_sum X in
    rates <- rate_dict i Xg ;;
    Ok (list_set (i + 6)%nat (fun _ => rates) dfd).

Definition cell9 (X X_cont : DataFrame) : Result (list PyDict) :=
  for_each [0; 1; 2; 3]%nat (cell9_step X X_cont) (repeat [] 10).

(** ** The notebook, run top to bottom *)

Section Run.

Variable RandomState : Type.
Variable seeded : Z -> RandomState.
Variable permutation : RandomState -> nat -> list nat.
Variable fit : DataFrame -> Series -> LinearRegression.
Variable cross_val_score : DataFrame -> Series -> nat -> Result (list Qc).

Definition notebook (global : RandomState) (mydata : DataFrame)
  : Result (Cell7 * list (string * list Qc) * list PyDict) :=
  ' (mydata, X) <- cell5 mydata ;;
  ' (out, printed) <-
      cell7 RandomState seeded permutation fit cross_val_score global mydata X ;;
  dfd <- cell9 (X_out out) (X_cont out) ;;
  Ok (out, printed, dfd).

End Run.

(** ** Vocabulary of the statements *)

Definition has_column (df : DataFrame) (k : string) : bool :=
  match lookup k (columns df) with
  | Some _ => true
  | None => false
  end.

(** The value of column [k] on row [i]. *)
Definition cell (df : DataFrame) (k : string) (i : nat) : option Qc :=
  match lookup k (columns df) with
  | Some s => nth_error s i
  | None => None
  end.

(** The four base features and the prefix of the interaction columns built
    from each. *)
Definition base_features : list (string * string) :=
  [("Winter", "WINT_"); ("Year", "IMP_"); ("AF", "AF_"); ("VE", "VE_")].

Definition indicator_columns : list string :=
  ["Age=M65"; "Age=F65"; "Age=M75"; "Age=F75"; "Age=M85"; "Age=F85"].

Definition required_columns : list string :=
  (["Winter"; "Year"; "AF"; "VE"] ++ indicator_columns)%list.

(** Modelled from the spec: the column layout of the pickled table
    [MortalityData_2010to2019], which is not part of the repository. The
    columns are those of the notebook's data-structure table, in its order,
    with one indicator per sex and age band of [agelist]. *)
Definition input_schema : list string :=
  ["Deaths"; "Persons"; "Persons_NoAdj"; "Rate"; "Rate_NoAdj";
   "Year"; "Winter"; "AF"; "VE";
   "Age=M65"; "Age=M75"; "Age=M85"; "Age=F65"; "Age=F75"; "Age=F85"].

(** The predictor labels of the two fits, as the prose of the notebook
    describes them: the full model uses the age indicators and every
    interaction column, the base model leaves the frost-day and vaccine
    columns out. *)
Definition base_predictors : list string :=
  ["Age=M65"; "Age=M75"; "Age=M85"; "Age=F65"; "Age=F75"; "Age=F85";
   "WINT_65"; "IMP_65"; "WINT_75"; "IMP_75"; "WINT_85"; "IMP_85"].

Definition frost_vaccine_columns : list string :=
  ["AF_65"; "VE_65"; "AF_75"; "VE_75"; "AF_85"; "VE_85"].

Definition full_predictors : list string :=
  (base_predictors ++ frost_vaccine_columns)%list.

Definition is_frost_vaccine (k : string) : bool :=
  existsb (String.eqb k) frost_vaccine_columns.

(** ** The frames of a run on a table with the documented columns *)

(** The values of column [k] (empty when the table has no such column). *)
Definition column (df : DataFrame) (k : string) : Series :=
  match lookup k (columns df) with
  | Some s => s
  | None => []
  end.

Definition named_columns (df : DataFrame) (names : list string)
  : list (string * Series) :=
  map (fun k => (k, column df k)) names.

Definition interaction (df : DataFrame) (base age : string) : Series :=
  series_mul (column df base)
    (series_add (column df ("Age=M" ++ age)) (column df ("Age=F" ++ age))).

(** The twelve interaction columns, in the order the two loops append them. *)
Definition interaction_block (df : DataFrame) : list (string * Series) :=
  [("WINT_65", interaction df "Winter" "65");
   ("IMP_65", interaction df "Year" "65");
   ("WINT_75", interaction df "Winter" "75");
   ("IMP_75", interaction df "Year" "75");
   ("WINT_85", interaction df "Winter" "85");
   ("IMP_85", interaction df "Year" "85");
   ("AF_65", interaction df "AF" "65");
   ("VE_65", interaction df "VE" "65");
   ("AF_75", interaction df "AF" "75");
   ("VE_75", interaction df "VE" "75");
   ("AF_85", interaction df "AF" "85");
   ("VE_85", interaction df "VE" "85")].

Definition extended_table (df : DataFrame) : DataFrame :=
  mkDataFrame (index df) (columns df ++ interaction_block df)%list.

Definition predictor_frame (df : DataFrame) : DataFrame :=
  mkDataFrame (index df)
    (named_columns df
       ["Age=M65"; "Age=M75"; "Age=M85"; "Age=F65"; "Age=F75"; "Age=F85"]
     ++ interaction_block df)%list.

Definition placeholder (df : DataFrame) (k : string) : string * Series :=
  (k, repeat (num 0) (nrows df)).

Definition initial_X (df : DataFrame) : DataFrame :=
  mkDataFrame (index df)
    (named_columns df
       ["Deaths"; "Persons"; "Persons_NoAdj"; "Rate"; "Rate_NoAdj"]
     ++ [placeholder df "PredR"; placeholder df "PredD";
         placeholder df "PredR_Base"; placeholder df "PredD_Base"]
     ++ columns (predictor_frame df))%list.

(** The linear form of a model on every row of [P]. *)
Definition predict_rows (m : LinearRegression) (P : DataFrame) : Series :=
  map (fun i => (dot (row_values P i) (coef_ m) + intercept_ m)%Qc)
    (seq 0 (nrows P)).

(** One column of the contribution table. *)
Definition contribution (persons : Series) (c : string * Series) (k : Qc)
  : string * Series :=
  (fst c,
   series_div_scalar
     (series_div_scalar (series_mul (series_mul_scalar (snd c) k) persons)
        (num 1000))
     (num 52)).

Section Partition.

Variable RandomState : Type.
Variable seeded : Z -> RandomState.
Variable permutation : RandomState -> nat -> list nat.

(** The row positions of the two parts of the split of [n] rows under the
    notebook's seed. *)
Definition training_rows (n : nat) : list nat :=
  firstn (n - n_test_of n)%nat
    (skipn (n_test_of n) (permutation (seeded 10101%Z) n)).

Definition holdout_rows (n : nat) : list nat :=
  firstn (n_test_of n) (permutation (seeded 10101%Z) n).

End Partition.

(** The labels of the interaction columns, in the order of
    [interaction_block]. *)
Definition interaction_names : list string :=
  ["WINT_65"; "IMP_65"; "WINT_75"; "IMP_75"; "WINT_85"; "IMP_85";
   "AF_65"; "VE_65"; "AF_75"; "VE_75"; "AF_85"; "VE_85"].

(** The table after the twelve assignments of the two loops, each
    overwriting its column or appending it. *)
Definition with_interactions (df : DataFrame) : DataFrame :=
  fold_left (fun d c => setitem d (fst c) (snd c)) (interaction_block df) df.

(** The labels of the four prediction columns cell 5 inserts and cell 7
    fills. *)
Definition prediction_columns : list string :=
  ["PredR"; "PredD"; "PredR_Base"; "PredD_Base"].

(** The labels cell 5 drops from the copy [X]. *)
Definition dropped_columns : list string := ["VE"; "Year"; "Winter"; "AF"].

(** Dates in strictly increasing order. *)
Fixpoint strictly_increasing (keys : list Timestamp) : bool :=
  match keys with
  | a :: (b :: _) as rest => ts_ltb a b && strictly_increasing rest
  | _ => true
  end.

(** The test of the winter-quarter filter on one date. *)
Definition is_winter (d : Timestamp) : bool := (month d =? 2)%Z.

(** ** The dictionaries of cell 9 in closed form *)

(** The winter-quarter view of a frame: [G[G.index.month == 2]] grouped by
    its index again. *)
Definition winter_frame (df : DataFrame) : DataFrame :=
  groupby_index_sum (df_select df (month_is df 2)).

(** What round [i] of the loop leaves in [dfd] for an age band whose rows
    are [Xa]. *)
Definition age_step_result (X_cont Xa : DataFrame) (i : nat)
    (dfd : list PyDict) : list PyDict :=
  let age := nth i agelist "" in
  let desc := nth i agedesc "" in
  let G := groupby_index_sum Xa in
  let W := winter_frame G in
  let C := winter_frame X_cont in
  let dfd :=
    dfd_update 0 ("Actual - Age " ++ desc) (index G, column G "Deaths") dfd in
  let dfd :=
    dfd_update 1 ("Unexplained - Age " ++ desc)
      (index G, series_sub (column G "Deaths") (column G "PredD")) dfd in
  let dfd :=
    dfd_update 2 ("Actual - Age " ++ desc)
      (index W, series_sub (column W "Deaths") (column W "PredD_Base")) dfd in
  let dfd :=
    dfd_update 3 ("Unexplained - Age " ++ desc)
      (index W, series_sub (column W "Deaths") (column W "PredD")) dfd in
  let dfd :=
    dfd_update 4 ("Contribution - AF " ++ desc)
      (index C, column C ("AF_" ++ age)) dfd in
  let dfd :=
    dfd_update 5 ("Contribution - VE " ++ desc)
      (index C, column C ("VE_" ++ age)) dfd in
  list_set (i + 6)%nat
    (fun _ =>
       [("Actual - Age " ++ desc,
         (index G, annual_rate (column G "Deaths") (column G "Persons")));
        ("Predicted - Age " ++ desc,
         (index G, annual_rate (column G "PredD") (column G "Persons")))])
    dfd.

(** What the last round (all ages) leaves in [dfd]. *)
Definition all_ages_step_result (X : DataFrame) (dfd : list PyDict)
  : list PyDict :=
  let desc := nth 3 agedesc "" in
  let G := groupby_index_sum X in
  list_set 9
    (fun _ =>
       [("Actual - Age " ++ desc,
         (index G, annual_rate (column G "Deaths") (column G "Persons")));
        ("Predicted - Age " ++ desc,
         (index G, annual_rate (column G "PredD") (column G "Persons")))])
    dfd.

(** The columns cell 9 reads: of [X], the two indicators of each age band
    and the four counts it aggregates; of [X_cont], the frost-day and
    vaccine contributions of each band. *)
Definition cell9_reads_X : list string :=
  ["Age=M65"; "Age=F65"; "Age=M75"; "Age=F75"; "Age=M85"; "Age=F85";
   "Deaths"; "Persons"; "PredD"; "PredD_Base"].
Definition cell9_reads_X_cont : list string :=
  ["AF_65"; "VE_65"; "AF_75"; "VE_75"; "AF_85"; "VE_85"].

(** ** One row of cell 7 in double precision

    The table holds IEEE 754 doubles, and every [*], [/] and [+] of the
    notebook rounds its result. The lines of cell 7 that produce [PredR],
    [PredD] and [X_cont] are given here on a single row, operation by
    operation in the order of the source. *)









(** ** A small table for concrete runs

    Two quarter ends (28 Feb 2011, 31 May 2011), one row per sex and age band
    on each. *)

Definition column_of (k : string) (values : list Z) : string * Series :=
  (k, map num values).

Definition feb2011 : Timestamp := mkTimestamp 2011 2 28.
Definition may2011 : Timestamp := mkTimestamp 2011 5 31.

Definition sample_index : list Timestamp :=
  (repeat feb2011 6 ++ repeat may2011 6)%list.

Definition sample_columns : list (string * Series) :=
  [ column_of "Deaths" [10; 12; 30; 33; 50; 60; 8; 9; 25; 26; 40; 45]%Z;
    column_of "Persons"
      [1000; 1100; 800; 900; 300; 500; 1000; 1100; 800; 900; 300; 500]%Z;
    column_of "Persons_NoAdj"
      [1000; 1100; 800; 900; 300; 500; 1000; 1100; 800; 900; 300; 500]%Z;
    column_of "Rate"
      [520; 567; 1950; 1906; 8666; 6240; 416; 425; 1625; 1502; 6933; 4680]%Z;
    column_of "Rate_NoAdj"
      [520; 567; 1950; 1906; 8666; 6240; 416; 425; 1625; 1502; 6933; 4680]%Z;
    column_of "Year" [1; 1; 1; 1; 1; 1; 1; 1; 1; 1; 1; 1]%Z;
    column_of "Winter" [1; 1; 1; 1; 1; 1; 0; 0; 0; 0; 0; 0]%Z;
    column_of "AF" [20; 20; 20; 20; 20; 20; 3; 3; 3; 3; 3; 3]%Z;
    column_of "VE" [50; 50; 50; 50; 50; 50; 50; 50; 50; 50; 50; 50]%Z;
    column_of "Age=M65" [1; 0; 0; 0; 0; 0; 1; 0; 0; 0; 0; 0]%Z;
    column_of "Age=M75" [0; 0; 1; 0; 0; 0; 0; 0; 1; 0; 0; 0]%Z;
    column_of "Age=M85" [0; 0; 0; 0; 1; 0; 0; 0; 0; 0; 1; 0]%Z;
    column_of "Age=F65" [0; 1; 0; 0; 0; 0; 0; 1; 0; 0; 0; 0]%Z;
    column_of "Age=F75" [0; 0; 0; 1; 0; 0; 0; 0; 0; 1; 0; 0]%Z;
    column_of "Age=F85" [0; 0; 0; 0; 0; 1; 0; 0; 0; 0; 0; 1]%Z ].

Definition sample_table : DataFrame := mkDataFrame sample_index sample_columns.

(** The same table without the female 75-84 indicator. *)
Definition sample_table_without_F75 : DataFrame :=
  mkDataFrame sample_index (remove_column "Age=F75" sample_columns).

(** Stand-ins for the library routines: a generator is its seed, the
    permutation rotates [0..n-1] by the seed, the fit returns the column sums
    as coefficients and the target sum as intercept, and the
    cross-validation reports [k] zero scores. *)
Definition sample_permutation (rs : Z) (n : nat) : list nat :=
  map (fun i => ((i + Z.to_nat rs) mod n)%nat) (seq 0 n).

Definition sample_fit (P : DataFrame) (y : Series) : LinearRegression :=
  mkLinearRegression (map (fun c => qsum (snd c)) (columns P)) (qsum y).

Definition sample_cross_val_score (P : DataFrame) (y : Series) (k : nat)
  : Result (list Qc) :=
  Ok (repeat (num 0) k).

(** The sample table with another rate and frost-day count on row 10, a row
    the sample split holds out. *)
Definition sample_table_other_holdout : DataFrame :=
  setitem
    (setitem sample_table "Rate"
       (map num
          [520; 567; 1950; 1906; 8666; 6240; 416; 425; 1625; 1502; 7000; 4680]%Z))
    "AF" (map num [20; 20; 20; 20; 20; 20; 3; 3; 3; 3; 9; 3]%Z).


(** The whole notebook on the sample table with the stand-in routines. *)
Definition sample_run
  : Result (Cell7 * list (string * list Qc) * list PyDict) :=
  notebook Z (fun seed => seed) sample_permutation sample_fit
    sample_cross_val_score 0%Z sample_table.

(** The frames that run hands to cell 9, and the dictionaries cell 9 built. *)
Definition sample_frames : DataFrame * DataFrame :=
  match sample_run with
  | Ok (out, _, _) => (X_out out, X_cont out)
  | Raise _ => (mkDataFrame [] [], mkDataFrame [] [])
  end.

Definition sample_dfd : list PyDict :=
  match sample_run with
  | Ok (_, _, dfd) => dfd
  | Raise _ => []
  end.

(** The first series of the winter dictionary [dfd[2]] of that run. *)
Definition sample_winter_excess_65 : Series :=
  snd (snd (nth 0 (nth 2 sample_dfd []) ("", ([], [])))).

(** A series with its rationals exposed as plain fractions, for display. *)
Definition fractions (p : Plot) : list Timestamp * list Q :=
  (fst p, map this (snd p)).

(** ** Column lookup after assignment *)

Lemma lookup_assign_same k s cols : lookup k (assign k s cols) = Some s.
Proof.
  induction cols as [|[n s0] rest IH]; simpl.
  - now rewrite String.eqb_refl.
  - destruct (String.eqb k n) eqn:E; simpl; rewrite E; auto.
Qed.

Lemma lookup_assign_other k k' s cols :
  String.eqb k k' = false -> lookup k (assign k' s cols) = lookup k cols.
Proof.
  intros Hne. induction cols as [|[n s0] rest IH]; simpl.
  - now rewrite Hne.
  - destruct (String.eqb k' n) eqn:E; simpl.
    + apply String.eqb_eq in E. subst n. now rewrite Hne.
    + now rewrite IH.
Qed.

Lemma getitem_setitem_same df k s : getitem (setitem df k s) k = Ok s.
Proof. unfold getitem, setitem; simpl. now rewrite lookup_assign_same. Qed.

Lemma getitem_setitem_other df k k' s :
  String.eqb k k' = false -> getitem (setitem df k' s) k = getitem df k.
Proof.
  intros H. unfold getitem, setitem; simpl. now rewrite lookup_assign_other.
Qed.

Lemma has_column_getitem df k :
  has_column df k = true -> exists s, getitem df k = Ok s.
Proof.
  unfold has_column, getitem.
  destruct (lookup k (columns df)); [eauto | discriminate].
Qed.

Lemma getitem_cases df k :
  (exists s, getitem df k = Ok s /\ has_column df k = true)
  \/ (getitem df k = Raise (KeyError k) /\ has_column df k = false).
Proof.
  unfold has_column, getitem. destruct (lookup k (columns df)); eauto.
Qed.

Lemma cell_getitem df k s i : getitem df k = Ok s -> cell df k i = nth_error s i.
Proof.
  unfold getitem, cell. destruct (lookup k (columns df)); congruence.
Qed.

Lemma cell_some_getitem df k i x :
  cell df k i = Some x -> exists s, getitem df k = Ok s /\ nth_error s i = Some x.
Proof.
  unfold getitem, cell. destruct (lookup k (columns df)); [eauto | discriminate].
Qed.

Lemma nth_error_zip_with {A B C} (f : A -> B -> C) xs ys i x y :
  nth_error xs i = Some x -> nth_error ys i = Some y ->
  nth_error (zip_with f xs ys) i = Some (f x y).
Proof.
  revert ys i.
  induction xs as [|a xs IH]; intros [|b ys] [|i]; simpl; try discriminate.
  - congruence.
  - apply IH.
Qed.

(** ** The Feature Builder *)

Ltac read_columns df :=
  repeat first
    [ rewrite getitem_setitem_same
    | rewrite getitem_setitem_other by reflexivity
    | match goal with
      | Hg : getitem df ?k = Ok _ |- context [getitem df ?k] => rewrite Hg
      end
    | progress cbn [bind] ].

Lemma feature_builder_series mydata :
  forallb (has_column mydata) required_columns = true ->
  exists out, feature_builder mydata = Ok out /\
    index out = index mydata /\
    forall age base prefix bs ms fs,
      In age agelist -> In (base, prefix) base_features ->
      getitem mydata base = Ok bs ->
      getitem mydata ("Age=M" ++ age) = Ok ms ->
      getitem mydata ("Age=F" ++ age) = Ok fs ->
      getitem out (prefix ++ age) = Ok (series_mul bs (series_add ms fs)).
Proof.
  intros H. cbn [forallb required_columns indicator_columns app] in H.
  repeat (apply andb_prop in H; destruct H as [?H H]).
  repeat match goal with
  | Hc : has_column _ _ = true |- _ =>
      apply has_column_getitem in Hc; destruct Hc as [? ?Hg]
  end.
  eexists. split; [|split].
  - unfold feature_builder, winter_year_step, frost_vaccine_step.
    cbn [for_each agelist append].
    read_columns mydata. reflexivity.
  - reflexivity.
  - intros age base prefix bs ms fs Hage Hbase Hb Hm Hf.
    cbn [agelist base_features In] in Hage, Hbase.
    repeat match goal with H : _ \/ _ |- _ => destruct H end; try contradiction;
    repeat match goal with
           | H : (_, _) = (_, _) |- _ => inversion H; clear H
           end; subst;
    cbn [append] in *; read_columns mydata; congruence.
Qed.

(** C1. Whenever the table carries the four base features and the six age
    indicators, the Feature Builder returns a table with the same rows in
    which, for every age band [a] of 65, 75, 85 and every base feature [f]
    (Winter, Year, AF, VE), the interaction column of [f] and [a] holds on
    each row the product of the row's [f] with the sum of the row's
    [Age=M a] and [Age=F a]. *)
Theorem feature_builder_interaction_columns :
  forall mydata,
    forallb (has_column mydata) required_columns = true ->
    exists out,
      feature_builder mydata = Ok out /\
      index out = index mydata /\
      forall age base prefix i b m f,
        In age agelist -> In (base, prefix) base_features ->
        cell mydata base i = Some b ->
        cell mydata ("Age=M" ++ age) i = Some m ->
        cell mydata ("Age=F" ++ age) i = Some f ->
        cell out (prefix ++ age) i = Some (b * (m + f))%Qc.
Proof.
  intros mydata H.
  destruct (feature_builder_series mydata H) as (out & Hout & Hidx & Hcols).
  exists out. split; [exact Hout|]. split; [exact Hidx|].
  intros age base prefix i b m f Hage Hbase Hb Hm Hf.
  apply cell_some_getitem in Hb, Hm, Hf.
  destruct Hb as (bs & Hbs & Hbi), Hm as (ms & Hms & Hmi), Hf as (fs & Hfs & Hfi).
  rewrite (cell_getitem _ _ _ i (Hcols age base prefix bs ms fs Hage Hbase Hbs Hms Hfs)).
  unfold series_mul, series_add.
  apply nth_error_zip_with; [exact Hbi|].
  apply nth_error_zip_with; assumption.
Qed.

Lemma feature_builder_missing_indicator mydata k :
  In k indicator_columns -> has_column mydata k = false ->
  exists label,
    feature_builder mydata = Raise (KeyError label) /\
    has_column mydata label = false.
Proof.
  intros Hin Hk.
  unfold feature_builder, winter_year_step, frost_vaccine_step.
  cbn [for_each agelist append].
  repeat (rewrite ?getitem_setitem_other by reflexivity;
    match goal with
    | |- context [getitem mydata ?c] =>
        let Hc := fresh "Hc" in
        destruct (getitem_cases mydata c) as [(? & Hc & ?) | (Hc & ?)];
        rewrite Hc; cbn [bind]
    end).
  all: try (eexists; split; [reflexivity | assumption]).
  exfalso.
  cbn [indicator_columns In] in Hin.
  repeat match goal with H : _ \/ _ |- _ => destruct H end; try contradiction;
  subst; congruence.
Qed.

(** C9. If the indicator column of either sex is absent for some age band of
    [agelist], the Feature Builder raises a [KeyError] naming a column the
    table lacks, and the run of the notebook stops with that error whatever
    the fitting, splitting and cross-validation routines are: no table with
    zero-filled interaction columns is produced and no fit takes place. *)
Theorem missing_indicator_fails_before_fitting :
  forall (RandomState : Type) (seeded : Z -> RandomState)
         (permutation : RandomState -> nat -> list nat)
         (fit : DataFrame -> Series -> LinearRegression)
         (cross_val_score : DataFrame -> Series -> nat -> Result (list Qc))
         (global : RandomState) (mydata : DataFrame) (age : string),
    In age agelist ->
    has_column mydata ("Age=M" ++ age) = false
    \/ has_column mydata ("Age=F" ++ age) = false ->
    exists label,
      has_column mydata label = false /\
      feature_builder mydata = Raise (KeyError label) /\
      notebook RandomState seeded permutation fit cross_val_score global mydata
      = Raise (KeyError label).
Proof.
  intros RS seeded permutation fit cvs global mydata age Hage Hmiss.
  assert (Hk : exists k, In k indicator_columns /\ has_column mydata k = false).
  { cbn [agelist In] in Hage.
    destruct Hage as [<-|[<-|[<-|[]]]]; destruct Hmiss as [Hm|Hm];
      cbn [append] in Hm; eexists; (split; [|exact Hm]);
      cbn [indicator_columns In]; tauto. }
  destruct Hk as (k & Hin & Hk).
  destruct (feature_builder_missing_indicator mydata k Hin Hk) as (label & Hfb & Hl).
  exists label. split; [exact Hl|]. split; [exact Hfb|].
  unfold notebook, cell5. rewrite Hfb. reflexivity.
Qed.

Lemma missing_indicator_fails_before_fitting_witness :
  In "75" agelist /\
  (has_column sample_table_without_F75 "Age=M75" = false
   \/ has_column sample_table_without_F75 "Age=F75" = false) /\
  exists label,
    has_column sample_table_without_F75 label = false /\
    feature_builder sample_table_without_F75 = Raise (KeyError label) /\
    notebook Z (fun seed => seed) sample_permutation sample_fit
      sample_cross_val_score 0%Z sample_table_without_F75
    = Raise (KeyError label).
Proof.
  assert (Hage : In "75" agelist) by (cbn; tauto).
  assert (Hmiss : has_column sample_table_without_F75 "Age=M75" = false
                  \/ has_column sample_table_without_F75 "Age=F75" = false)
    by (right; reflexivity).
  split; [exact Hage|]. split; [exact Hmiss|].
  exact (missing_indicator_fails_before_fitting Z (fun seed => seed)
           sample_permutation sample_fit sample_cross_val_score 0%Z
           sample_table_without_F75 "75" Hage Hmiss).
Defined.

Lemma feature_builder_interaction_columns_witness :
  forallb (has_column sample_table) required_columns = true /\
  exists out,
    feature_builder sample_table = Ok out /\
    index out = index sample_table /\
    forall age base prefix i b m f,
      In age agelist -> In (base, prefix) base_features ->
      cell sample_table base i = Some b ->
      cell sample_table ("Age=M" ++ age) i = Some m ->
      cell sample_table ("Age=F" ++ age) i = Some f ->
      cell out (prefix ++ age) i = Some (b * (m + f))%Qc.
Proof.
  assert (H : forallb (has_column sample_table) required_columns = true)
    by reflexivity.
  split; [exact H|].
  exact (feature_builder_interaction_columns sample_table H).
Defined.

(** ** Tables with the documented columns *)

Lemma bind_Ok {A B} (a : A) (k : A -> Result B) : bind (Ok a) k = k a.
Proof. reflexivity. Qed.

Lemma bind_inv {A B} (m : Result A) (k : A -> Result B) b :
  bind m k = Ok b -> exists a, m = Ok a /\ k a = Ok b.
Proof. destruct m as [a|e]; simpl; [eauto | discriminate]. Qed.

Lemma lookup_none_not_in k cols :
  lookup k cols = None -> ~ In k (map fst cols).
Proof.
  induction cols as [|[n s] rest IH]; simpl; [tauto|].
  destruct (String.eqb k n) eqn:E; [discriminate|].
  intros H [Hn|Hin]; [|now apply IH].
  subst n. now rewrite String.eqb_refl in E.
Qed.

Lemma lookup_in_columns k s cols : lookup k cols = Some s -> In (k, s) cols.
Proof.
  induction cols as [|[n s0] rest IH]; simpl; [discriminate|].
  destruct (String.eqb k n) eqn:E.
  - apply String.eqb_eq in E. subst n. intros [= ->]. now left.
  - intros H. right. now apply IH.
Qed.

Lemma lookup_column df k :
  In k (column_names df) -> lookup k (columns df) = Some (column df k).
Proof.
  intros Hin. unfold column.
  destruct (lookup k (columns df)) eqn:E; [reflexivity|].
  apply lookup_none_not_in in E. contradiction.
Qed.

Lemma getitem_column df k :
  In k (column_names df) -> getitem df k = Ok (column df k).
Proof. intros Hin. unfold getitem. now rewrite lookup_column. Qed.

Lemma column_length df k :
  well_formed df -> In k (column_names df) -> length (column df k) = nrows df.
Proof.
  intros Hwf Hin. pose proof (lookup_column df k Hin) as E.
  apply lookup_in_columns in E.
  unfold well_formed in Hwf. rewrite Forall_forall in Hwf.
  exact (Hwf _ E).
Qed.

Lemma columns_of_schema mydata :
  column_names mydata = input_schema ->
  columns mydata = named_columns mydata input_schema.
Proof.
  unfold column_names, named_columns, column.
  destruct mydata as [idx cols]. cbn [columns].
  intros H.
  do 16 (destruct cols as [|[? ?] cols]; try discriminate H).
  cbn [map fst input_schema] in H.
  injection H as -> -> -> -> -> -> -> -> -> -> -> -> -> -> ->.
  reflexivity.
Qed.

(** On a table with the documented columns, cell 5 succeeds and returns the
    extended table and the frame [X] in closed form. *)
Lemma cell5_schema mydata :
  column_names mydata = input_schema ->
  cell5 mydata = Ok (extended_table mydata, initial_X mydata).
Proof.
  intros H. apply columns_of_schema in H.
  unfold cell5, feature_builder, make_X, winter_year_step, frost_vaccine_step,
    getitem, setitem, drop, insert, extended_table, initial_X, predictor_frame,
    placeholder, interaction_block, interaction.
  cbn [for_each agelist append columns index].
  rewrite H.
  cbv -[series_mul series_add column num repeat nrows index].
  reflexivity.
Qed.

Lemma initial_X_predictors df : iloc_from (initial_X df) 9 = predictor_frame df.
Proof. reflexivity. Qed.

Lemma initial_X_rate df : getitem (initial_X df) "Rate" = Ok (column df "Rate").
Proof. reflexivity. Qed.

Lemma extended_table_persons df :
  column_names df = input_schema ->
  getitem (extended_table df) "Persons" = Ok (column df "Persons").
Proof.
  intros Hs. pose proof (columns_of_schema df Hs) as Hc.
  unfold getitem, extended_table. cbn [columns]. rewrite Hc. reflexivity.
Qed.

Lemma n_train_positive n : (2 <= n)%nat -> ((n - n_test_of n =? 0) = false)%nat.
Proof.
  intros H. apply Nat.eqb_neq. unfold n_test_of.
  pose proof (Nat.div_mod_eq (n + 4) 5) as E.
  pose proof (Nat.mod_upper_bound (n + 4) 5 ltac:(lia)). lia.
Qed.

Lemma predict_ok m P :
  length (coef_ m) = length (columns P) -> predict m P = Ok (predict_rows m P).
Proof. intros H. unfold predict. rewrite H, Nat.eqb_refl. reflexivity. Qed.

Lemma mul_columns_ok P coef :
  length coef = length (columns P) ->
  mul_columns P coef
  = Ok (mkDataFrame (index P)
          (zip_with (fun c k => (fst c, series_mul_scalar (snd c) k))
             (columns P) coef)).
Proof. intros H. unfold mul_columns. now rewrite H, Nat.eqb_refl. Qed.

Lemma mul_rows_ok P values :
  length values = nrows P ->
  mul_rows P values
  = Ok (mkDataFrame (index P)
          (map (fun c => (fst c, series_mul (snd c) values)) (columns P))).
Proof. intros H. unfold mul_rows. now rewrite H, Nat.eqb_refl. Qed.

Section Pipeline.

Variable RandomState : Type.
Variable seeded : Z -> RandomState.
Variable permutation : RandomState -> nat -> list nat.
Variable fit : DataFrame -> Series -> LinearRegression.

(** [fit] returns one coefficient per predictor column. *)
Hypothesis fit_shape :
  forall P y, length (coef_ (fit P y)) = length (columns P).

Let train_rows (n : nat) : list nat :=
  training_rows RandomState seeded permutation n.

(** Cell 7 up to the cross-validation loop, in closed form. *)
Lemma cell7_models_schema global mydata :
  column_names mydata = input_schema ->
  well_formed mydata ->
  (2 <= nrows mydata)%nat ->
  let P := predictor_frame mydata in
  let train := train_rows (nrows mydata) in
  let rate := column mydata "Rate" in
  let m := fit (df_take P train) (take (num 0) rate train) in
  let mb := fit (iloc_range (df_take P train) 0 12) (take (num 0) rate train) in
  let persons := column mydata "Persons" in
  exists out,
    cell7_models RandomState seeded permutation fit global
      (extended_table mydata) (initial_X mydata) = Ok out /\
    X_pred out = P /\
    X_train out = df_take P train /\
    X_test out
    = df_take P (holdout_rows RandomState seeded permutation (nrows mydata)) /\
    y_train out = take (num 0) rate train /\
    model out = m /\ model_base out = mb /\
    index (X_out out) = index mydata /\
    column_names (X_out out) = column_names (initial_X mydata) /\
    getitem (X_out out) "PredR" = Ok (predict_rows m P) /\
    getitem (X_out out) "PredD" = Ok (death_count persons (predict_rows m P)) /\
    getitem (X_out out) "PredR_Base" = Ok (predict_rows mb (iloc_range P 0 12)) /\
    getitem (X_out out) "PredD_Base"
    = Ok (death_count persons (predict_rows mb (iloc_range P 0 12))) /\
    X_cont out = mkDataFrame (index mydata)
                   (zip_with (contribution persons) (columns P) (coef_ m)).
Proof.
  intros Hs Hwf Hn P train rate m mb persons.
  pose proof (extended_table_persons mydata Hs) as Hpersons.
  fold persons in Hpersons.
  assert (Hlen : length persons = nrows mydata).
  { apply column_length; [exact Hwf|]. rewrite Hs. cbn; tauto. }
  assert (Hm : length (coef_ m) = length (columns P)).
  { subst m. rewrite fit_shape. unfold df_take. cbn [columns]. apply length_map. }
  assert (Hmb : length (coef_ mb) = length (columns (iloc_range P 0 12))).
  { subst mb. rewrite fit_shape. reflexivity. }
  unfold cell7_models.
  rewrite initial_X_predictors, initial_X_rate. fold P. fold rate.
  rewrite bind_Ok.
  unfold train_test_split, shuffle_split, check_random_state.
  replace (nrows P) with (nrows mydata) by reflexivity.
  rewrite (n_train_positive _ Hn). rewrite !bind_Ok.
  fold (training_rows RandomState seeded permutation (nrows mydata)).
  fold (holdout_rows RandomState seeded permutation (nrows mydata)).
  fold (train_rows (nrows mydata)). fold train. fold m. fold mb.
  rewrite (predict_ok m P Hm), bind_Ok. cbv zeta.
  rewrite Hpersons, bind_Ok.
  rewrite getitem_setitem_same, bind_Ok.
  rewrite (mul_columns_ok P _ Hm), bind_Ok.
  rewrite bind_Ok.
  rewrite mul_rows_ok by exact Hlen. rewrite bind_Ok.
  cbv zeta.
  rewrite (predict_ok mb (iloc_range P 0 12) Hmb), bind_Ok.
  rewrite bind_Ok.
  rewrite getitem_setitem_same, bind_Ok.
  eexists. split; [reflexivity|].
  cbn [X_pred X_train X_test y_train model model_base X_out X_cont].
  do 8 (split; [reflexivity|]).
  split; [rewrite !getitem_setitem_other by reflexivity;
          apply getitem_setitem_same|].
  split; [rewrite !getitem_setitem_other by reflexivity;
          apply getitem_setitem_same|].
  split; [rewrite !getitem_setitem_other by reflexivity;
          apply getitem_setitem_same|].
  split; [apply getitem_setitem_same|].
  unfold df_div_scalar. cbn [index columns]. f_equal.
  rewrite !map_map.
  generalize (coef_ m). generalize (columns P).
  induction l as [|c cs IH]; intros [|k ks]; cbn [zip_with map]; try reflexivity.
  f_equal. apply IH.
Qed.

(** ** Row-wise reading of series *)

Lemma length_zip_with {A B C} (f : A -> B -> C) xs ys :
  length (zip_with f xs ys) = Nat.min (length xs) (length ys).
Proof.
  revert ys. induction xs as [|x xs IH]; intros [|y ys]; simpl; auto.
Qed.

Lemma nth_zip_with {A B C} (f : A -> B -> C) xs ys i da db dc :
  (i < length xs)%nat -> (i < length ys)%nat ->
  nth i (zip_with f xs ys) dc = f (nth i xs da) (nth i ys db).
Proof.
  revert ys i. induction xs as [|x xs IH]; intros [|y ys] [|i]; simpl;
    try lia; auto.
  intros Hx Hy. apply IH; lia.
Qed.

Lemma nth_map_default {A B} (f : A -> B) l i d d' :
  (i < length l)%nat -> nth i (map f l) d = f (nth i l d').
Proof.
  intros H. rewrite (nth_indep _ d (f d')) by (now rewrite length_map).
  apply map_nth.
Qed.

Lemma nth_error_nth_default {A} (xs : list A) i d :
  (i < length xs)%nat -> nth_error xs i = Some (nth i xs d).
Proof. intros H. now apply nth_error_nth'. Qed.

Lemma qsum_scale (xs : list Qc) (a : Qc) :
  qsum (map (fun x => (x * a)%Qc) xs) = (qsum xs * a)%Qc.
Proof.
  unfold qsum. induction xs as [|x xs IH]; simpl.
  - change (num 0) with 0%Qc. ring.
  - rewrite IH. ring.
Qed.


Lemma predict_rows_length m P : length (predict_rows m P) = nrows P.
Proof. unfold predict_rows. now rewrite length_map, length_seq. Qed.


Lemma interaction_length df base age :
  well_formed df ->
  In base (column_names df) ->
  In ("Age=M" ++ age) (column_names df) ->
  In ("Age=F" ++ age) (column_names df) ->
  length (interaction df base age) = nrows df.
Proof.
  intros Hwf Hb Hm Hf. unfold interaction, series_mul, series_add.
  rewrite !length_zip_with, !column_length by assumption. lia.
Qed.




Lemma contribution_names persons cols coef :
  length coef = length cols ->
  map fst (zip_with (contribution persons) cols coef) = map fst cols.
Proof.
  revert coef. induction cols as [|c cols IH]; intros [|k ks] H;
    try discriminate H; cbn [zip_with map]; [reflexivity|].
  cbn [contribution fst]. f_equal. apply IH. now injection H.
Qed.




(** Whatever the frames, a successful cell 7 fitted both models on the rows
    the split put in the training part, and on nothing else. *)
Lemma cell7_models_fits global md X out :
  cell7_models RandomState seeded permutation fit global md X = Ok out ->
  exists y,
    getitem X "Rate" = Ok y /\
    X_pred out = iloc_from X 9 /\
    X_train out = df_take (iloc_from X 9) (train_rows (nrows X)) /\
    y_train out = take (num 0) y (train_rows (nrows X)) /\
    model out = fit (X_train out) (y_train out) /\
    model_base out = fit (iloc_range (X_train out) 0 12) (y_train out).
Proof.
  unfold cell7_models. intros H.
  apply bind_inv in H. destruct H as (y & Hy & H).
  apply bind_inv in H. destruct H as ([[[Xtr Xte] ytr] yte] & Hsplit & H).
  unfold train_test_split in Hsplit.
  apply bind_inv in Hsplit. destruct Hsplit as ([train test] & Hss & Hsplit).
  injection Hsplit as <- <- <- <-.
  unfold shuffle_split, check_random_state in Hss.
  change (nrows (iloc_from X 9)) with (nrows X) in Hss.
  destruct (nrows X - n_test_of (nrows X) =? 0)%nat; [discriminate|].
  injection Hss as <- <-.
  repeat (apply bind_inv in H; destruct H as (? & _ & H)).
  injection H as <-. cbn [X_pred X_train y_train model model_base].
  exists y. repeat split; assumption.
Qed.

Lemma column_names_df_take df rows :
  column_names (df_take df rows) = column_names df.
Proof.
  unfold column_names, df_take. cbn [columns]. rewrite map_map. reflexivity.
Qed.

Lemma column_names_df_select df mask :
  column_names (df_select df mask) = column_names df.
Proof.
  unfold column_names, df_select. cbn [columns]. rewrite map_map. reflexivity.
Qed.

Lemma column_names_iloc_from df lo :
  column_names (iloc_from df lo) = skipn lo (column_names df).
Proof.
  unfold column_names, iloc_from. cbn [columns]. symmetry. apply skipn_map.
Qed.

Lemma column_names_iloc_range df lo hi :
  column_names (iloc_range df lo hi)
  = firstn (hi - lo) (skipn lo (column_names df)).
Proof.
  unfold column_names, iloc_range. cbn [columns].
  now rewrite <- firstn_map, <- skipn_map.
Qed.

(** C6. On a table with the documented columns and at least two rows, the
    full model is fitted on the eighteen predictor columns and the base
    model on the twelve of them that are not frost-day or vaccine columns, a
    strict subset. Both fits receive the training rows of the split and the
    target on those rows, nothing else: any other successful run of cell 7 on
    a frame with as many rows whose predictors and target agree with this one
    on the training rows yields the same two models, whatever its holdout
    rows hold. *)
Theorem base_fit_drops_frost_vaccine_and_fits_use_training_rows :
  forall global mydata,
    column_names mydata = input_schema ->
    well_formed mydata ->
    (2 <= nrows mydata)%nat ->
    exists md X out,
      cell5 mydata = Ok (md, X) /\
      cell7_models RandomState seeded permutation fit global md X = Ok out /\
      model out = fit (X_train out) (y_train out) /\
      model_base out = fit (iloc_range (X_train out) 0 12) (y_train out) /\
      column_names (X_train out) = full_predictors /\
      column_names (iloc_range (X_train out) 0 12) = base_predictors /\
      base_predictors
      = filter (fun k => negb (is_frost_vaccine k)) full_predictors /\
      incl base_predictors full_predictors /\
      ~ incl full_predictors base_predictors /\
      X_train out = df_take (X_pred out) (train_rows (nrows mydata)) /\
      y_train out
      = take (num 0) (column mydata "Rate") (train_rows (nrows mydata)) /\
      forall global' md' X' out' y',
        cell7_models RandomState seeded permutation fit global' md' X'
        = Ok out' ->
        nrows X' = nrows mydata ->
        getitem X' "Rate" = Ok y' ->
        df_take (iloc_from X' 9) (train_rows (nrows mydata))
        = df_take (iloc_from X 9) (train_rows (nrows mydata)) ->
        take (num 0) y' (train_rows (nrows mydata))
        = take (num 0) (column mydata "Rate") (train_rows (nrows mydata)) ->
        model out' = model out /\ model_base out' = model_base out.
Proof.
  intros global mydata Hs Hwf Hn.
  destruct (cell7_models_schema global mydata Hs Hwf Hn)
    as (out & Hrun & HP & Htrain & _ & Hy & Hm & Hmb & _).
  exists (extended_table mydata), (initial_X mydata), out.
  split; [apply cell5_schema; exact Hs|].
  split; [exact Hrun|].
  assert (Hfit : model out = fit (X_train out) (y_train out))
    by (rewrite Hm, Htrain, Hy; reflexivity).
  assert (Hfitb : model_base out
                  = fit (iloc_range (X_train out) 0 12) (y_train out))
    by (rewrite Hmb, Htrain, Hy; reflexivity).
  split; [exact Hfit|]. split; [exact Hfitb|].
  split; [rewrite Htrain, column_names_df_take; reflexivity|].
  split; [rewrite column_names_iloc_range, Htrain, column_names_df_take;
          reflexivity|].
  split; [reflexivity|].
  split; [unfold full_predictors; apply incl_appl, incl_refl|].
  split.
  { intros Hincl.
    assert (Hin : In "AF_65" base_predictors).
    { apply Hincl. unfold full_predictors. apply in_or_app. right. now left. }
    assert (Hex : existsb (String.eqb "AF_65") base_predictors = true).
    { apply existsb_exists. exists "AF_65". split; [exact Hin|].
      apply String.eqb_refl. }
    discriminate Hex. }
  split; [rewrite Htrain, HP; reflexivity|].
  split; [exact Hy|].
  intros global' md' X' out' y' Hrun' Hrows Hy' HX Hrate.
  destruct (cell7_models_fits global' md' X' out' Hrun')
    as (y0 & Hy0 & _ & Htrain' & Hytrain' & Hfit' & Hfitb').
  rewrite Hy' in Hy0. injection Hy0 as <-.
  rewrite Hrows in Htrain', Hytrain'.
  rewrite initial_X_predictors in HX.
  assert (EX : X_train out' = X_train out)
    by (rewrite Htrain', Htrain; exact HX).
  assert (Ey : y_train out' = y_train out)
    by (rewrite Hytrain', Hy; exact Hrate).
  rewrite Hfit', Hfitb', Hfit, Hfitb, EX, Ey. split; reflexivity.
Qed.

Lemma in_names k names : existsb (String.eqb k) names = true -> In k names.
Proof.
  intros H. apply existsb_exists in H. destruct H as (x & Hin & E).
  apply String.eqb_eq in E. now subst x.
Qed.

(** C4. On a table with the documented columns, each round of the
    cross-validation loop succeeds in cutting its two frames, and neither is
    the predictor set of the model it is printed for: the frame scored for
    the full model is [X.iloc[:,7:]], the eighteen predictors preceded by the
    base model's own predictions [PredR_Base] and [PredD_Base]; the frame
    scored for the base model is [X.iloc[:,7:19]], those two prediction
    columns and the first ten base predictors, without [WINT_85] and
    [IMP_85]. *)
Theorem cross_validation_frames_are_not_the_predictor_sets :
  forall global mydata,
    column_names mydata = input_schema ->
    well_formed mydata ->
    (2 <= nrows mydata)%nat ->
    exists md X out,
      cell5 mydata = Ok (md, X) /\
      cell7_models RandomState seeded permutation fit global md X = Ok out /\
      column_names (X_pred out) = full_predictors /\
      column_names (iloc_range (X_pred out) 0 12) = base_predictors /\
      forall i, (i < 3)%nat ->
        exists P_full P_base rate,
          cv_frames (X_out out) i = Ok (P_full, P_base, rate) /\
          column_names P_full
          = "PredR_Base" :: "PredD_Base" :: full_predictors /\
          column_names P_base
          = "PredR_Base" :: "PredD_Base" :: firstn 10 base_predictors /\
          column_names P_full <> full_predictors /\
          column_names P_base <> base_predictors.
Proof.
  intros global mydata Hs Hwf Hn.
  destruct (cell7_models_schema global mydata Hs Hwf Hn)
    as (out & Hrun & HP & _ & _ & _ & _ & _ & _ & Hnames & _).
  exists (extended_table mydata), (initial_X mydata), out.
  split; [apply cell5_schema; exact Hs|].
  split; [exact Hrun|].
  split; [rewrite HP; reflexivity|].
  split; [rewrite HP; reflexivity|].
  assert (Hget : forall k,
             existsb (String.eqb k) (column_names (initial_X mydata)) = true ->
             getitem (X_out out) k = Ok (column (X_out out) k)).
  { intros k Hk. apply getitem_column. rewrite Hnames. now apply in_names. }
  intros i Hi.
  assert (Hage : exists age, nth i agelist "" = age /\ In age agelist).
  { destruct i as [|[|[|i]]]; [| | |lia]; eexists; (split; [reflexivity|]);
      cbn; tauto. }
  destruct Hage as (age & Eage & Hage).
  unfold cv_frames, age_rows, age_mask. rewrite Eage.
  assert (HM : getitem (X_out out) ("Age=M" ++ age)
               = Ok (column (X_out out) ("Age=M" ++ age))).
  { cbn [agelist In] in Hage. destruct Hage as [<-|[<-|[<-|[]]]];
      apply Hget; reflexivity. }
  assert (HF : getitem (X_out out) ("Age=F" ++ age)
               = Ok (column (X_out out) ("Age=F" ++ age))).
  { cbn [agelist In] in Hage. destruct Hage as [<-|[<-|[<-|[]]]];
      apply Hget; reflexivity. }
  rewrite HM, bind_Ok, HF, !bind_Ok.
  match goal with
  | |- context [df_select (X_out out) ?mask] => set (Xg := df_select (X_out out) mask)
  end.
  assert (HXg : column_names Xg = column_names (initial_X mydata)).
  { subst Xg. rewrite column_names_df_select. exact Hnames. }
  rewrite (getitem_column Xg "Rate")
    by (rewrite HXg; apply in_names; reflexivity).
  rewrite bind_Ok.
  eexists _, _, _. split; [reflexivity|].
  rewrite column_names_iloc_from, column_names_iloc_range, HXg.
  split; [reflexivity|]. split; [reflexivity|].
  split; discriminate.
Qed.

End Pipeline.

(** ** The Aggregator *)

Lemma getitem_ok_column df k s : getitem df k = Ok s -> column df k = s.
Proof.
  unfold getitem, column. destruct (lookup k (columns df)); congruence.
Qed.

Lemma rate_dict_inv i G rates :
  rate_dict i G = Ok rates ->
  (exists s, getitem G "Deaths" = Ok s) /\
  (exists s, getitem G "Persons" = Ok s) /\
  (exists s, getitem G "PredD" = Ok s) /\
  rates
  = [("Actual - Age " ++ nth i agedesc "",
      (index G, annual_rate (column G "Deaths") (column G "Persons")));
     ("Predicted - Age " ++ nth i agedesc "",
      (index G, annual_rate (column G "PredD") (column G "Persons")))].
Proof.
  unfold rate_dict. intros H.
  apply bind_inv in H. destruct H as (r1 & Hr1 & H).
  apply bind_inv in H. destruct H as (r2 & Hr2 & H).
  apply bind_inv in H. destruct H as (r3 & Hr3 & H).
  apply bind_inv in H. destruct H as (r4 & Hr4 & H).
  split; [eauto|]. split; [eauto|]. split; [eauto|].
  injection H as <-.
  repeat match goal with
  | E : getitem _ _ = Ok ?v |- _ => apply getitem_ok_column in E; subst v
  end.
  reflexivity.
Qed.

Lemma cell9_step_age X X_cont i dfd dfd' :
  (i < 3)%nat ->
  cell9_step X X_cont i dfd = Ok dfd' ->
  exists Xa,
    age_rows X (nth i agelist "") = Ok Xa /\
    (exists s, getitem (groupby_index_sum Xa) "Deaths" = Ok s) /\
    (exists s, getitem (groupby_index_sum Xa) "Persons" = Ok s) /\
    (exists s, getitem (groupby_index_sum Xa) "PredD" = Ok s) /\
    dfd' = age_step_result X_cont Xa i dfd.
Proof.
  intros Hi H. unfold cell9_step in H.
  apply Nat.ltb_lt in Hi. rewrite Hi in H.
  apply bind_inv in H. destruct H as (Xa & HXa & H).
  exists Xa. split; [exact HXa|].
  apply bind_inv in H. destruct H as (d1 & Hd1 & H).
  apply bind_inv in H. destruct H as (d2 & Hd2 & H).
  apply bind_inv in H. destruct H as (p1 & Hp1 & H).
  apply bind_inv in H. destruct H as (w1 & Hw1 & H).
  apply bind_inv in H. destruct H as (w2 & Hw2 & H).
  apply bind_inv in H. destruct H as (w3 & Hw3 & H).
  apply bind_inv in H. destruct H as (w4 & Hw4 & H).
  apply bind_inv in H. destruct H as (a1 & Ha1 & H).
  apply bind_inv in H. destruct H as (a2 & Ha2 & H).
  apply bind_inv in H. destruct H as (rates & Hr & H).
  destruct (rate_dict_inv _ _ _ Hr) as (HD & HP & HPD & ->).
  split; [exact HD|]. split; [exact HP|]. split; [exact HPD|].
  injection H as <-.
  unfold age_step_result, winter_frame.
  repeat match goal with
  | E : getitem _ _ = Ok ?v |- _ => apply getitem_ok_column in E; subst v
  end.
  reflexivity.
Qed.

Lemma cell9_step_all X X_cont dfd dfd' :
  cell9_step X X_cont 3 dfd = Ok dfd' ->
  (exists s, getitem (groupby_index_sum X) "Deaths" = Ok s) /\
  (exists s, getitem (groupby_index_sum X) "Persons" = Ok s) /\
  (exists s, getitem (groupby_index_sum X) "PredD" = Ok s) /\
  dfd' = all_ages_step_result X dfd.
Proof.
  unfold cell9_step. cbn [Nat.ltb Nat.leb]. intros H.
  apply bind_inv in H. destruct H as (rates & Hr & H).
  destruct (rate_dict_inv _ _ _ Hr) as (HD & HP & HPD & ->).
  injection H as <-. repeat split; assumption.
Qed.

Lemma lookup_map_columns (f : Series -> Series) k cols :
  lookup k (map (fun c => (fst c, f (snd c))) cols)
  = option_map f (lookup k cols).
Proof.
  induction cols as [|[n s] rest IH]; cbn [map lookup fst snd]; [reflexivity|].
  destruct (String.eqb k n); [reflexivity | exact IH].
Qed.

Lemma getitem_groupby df k s :
  getitem (groupby_index_sum df) k = Ok s ->
  getitem df k = Ok (column df k) /\
  s = map (group_total (index df) (column df k)) (group_keys (index df)).
Proof.
  unfold getitem, groupby_index_sum, column. cbn [columns].
  rewrite (lookup_map_columns
             (fun s => map (group_total (index df) s) (group_keys (index df)))).
  destruct (lookup k (columns df)); cbn [option_map]; [|discriminate].
  intros [= <-]. split; reflexivity.
Qed.

Lemma getitem_df_select df mask k s :
  getitem (df_select df mask) k = Ok s ->
  getitem df k = Ok (column df k) /\ s = select mask (column df k).
Proof.
  unfold getitem, df_select, column. cbn [columns].
  rewrite (lookup_map_columns (select mask)).
  destruct (lookup k (columns df)); cbn [option_map]; [|discriminate].
  intros [= <-]. split; reflexivity.
Qed.

Lemma zip_with_map {A B C D} (f : B -> C -> D) (g : A -> B) (h : A -> C) xs :
  zip_with f (map g xs) (map h xs) = map (fun x => f (g x) (h x)) xs.
Proof. induction xs as [|x xs IH]; cbn; [reflexivity | now rewrite IH]. Qed.

Lemma annual_rate_map {A} (f g : A -> Qc) keys :
  annual_rate (map f keys) (map g keys)
  = map (fun d => (f d / g d * num 1000 * num 52)%Qc) keys.
Proof.
  unfold annual_rate, series_mul_scalar, series_div.
  rewrite zip_with_map, !map_map. reflexivity.
Qed.

(** A successful cell 9 in closed form: the rows of the three age bands
    exist, carry [Deaths] and [Persons], and the dictionaries are those of
    the four rounds. *)
Lemma cell9_inv X X_cont dfd :
  cell9 X X_cont = Ok dfd ->
  exists Xa0 Xa1 Xa2,
    age_rows X "65" = Ok Xa0 /\
    age_rows X "75" = Ok Xa1 /\
    age_rows X "85" = Ok Xa2 /\
    Forall (fun Xa =>
              getitem Xa "Deaths" = Ok (column Xa "Deaths") /\
              getitem Xa "Persons" = Ok (column Xa "Persons"))
      [Xa0; Xa1; Xa2] /\
    dfd = all_ages_step_result X
            (age_step_result X_cont Xa2 2
               (age_step_result X_cont Xa1 1
                  (age_step_result X_cont Xa0 0 (repeat [] 10)))).
Proof.
  unfold cell9. cbn [for_each]. intros H.
  apply bind_inv in H. destruct H as (d1 & H0 & H).
  apply bind_inv in H. destruct H as (d2 & H1 & H).
  apply bind_inv in H. destruct H as (d3 & H2 & H).
  apply bind_inv in H. destruct H as (d4 & H3 & H).
  injection H as <-.
  apply cell9_step_age in H0; [|lia].
  destruct H0 as (Xa0 & E0 & (s0 & D0) & (p0 & P0) & _ & ->).
  apply cell9_step_age in H1; [|lia].
  destruct H1 as (Xa1 & E1 & (s1 & D1) & (p1 & P1) & _ & ->).
  apply cell9_step_age in H2; [|lia].
  destruct H2 as (Xa2 & E2 & (s2 & D2) & (p2 & P2) & _ & ->).
  apply cell9_step_all in H3. destruct H3 as (_ & _ & _ & ->).
  exists Xa0, Xa1, Xa2.
  split; [exact E0|]. split; [exact E1|]. split; [exact E2|].
  split; [|reflexivity].
  repeat (apply Forall_cons; [split; eapply getitem_groupby; eassumption|]).
  apply Forall_nil.
Qed.

(** The rate series cell 9 stores for round [i]. *)
Lemma rate_entry_of_result X X_cont Xa0 Xa1 Xa2 i :
  (i < 3)%nat ->
  let dfd := all_ages_step_result X
               (age_step_result X_cont Xa2 2
                  (age_step_result X_cont Xa1 1
                     (age_step_result X_cont Xa0 0 (repeat [] 10)))) in
  let Xa := nth i [Xa0; Xa1; Xa2] Xa0 in
  let G := groupby_index_sum Xa in
  dict_get ("Actual - Age " ++ nth i agedesc "") (nth (i + 6) dfd [])
  = Some (index G, annual_rate (column G "Deaths") (column G "Persons")).
Proof.
  intros Hi.
  destruct i as [|[|[|i]]]; [| | |lia];
    unfold all_ages_step_result, age_step_result, dfd_update;
    cbn [repeat list_set nth Nat.add dict_get];
    rewrite String.eqb_refl; reflexivity.
Qed.

(** C7. In every successful run of cell 9 and for each age band, the rate
    series stored for the band is keyed by the distinct dates of the band's
    rows and holds, at each date, the sum of [Deaths] over the band's rows
    of that date divided by the sum of their [Persons], times 1000, times
    52. On the sample table the 65-74 band has, on 28 Feb 2011, the two sex
    rows with deaths 10 and 12 and populations 1000 and 1100, and the run
    reports the rate 11440/21 for that date, which lies between 544.76 and
    544.77. *)
Theorem aggregated_rate_is_summed_deaths_over_summed_population :
  (forall X X_cont dfd i,
      cell9 X X_cont = Ok dfd ->
      (i < 3)%nat ->
      exists Xa deaths persons,
        age_rows X (nth i agelist "") = Ok Xa /\
        getitem Xa "Deaths" = Ok deaths /\
        getitem Xa "Persons" = Ok persons /\
        dict_get ("Actual - Age " ++ nth i agedesc "") (nth (i + 6) dfd [])
        = Some (group_keys (index Xa),
                map (fun d =>
                       (group_total (index Xa) deaths d
                        / group_total (index Xa) persons d
                        * num 1000 * num 52)%Qc)
                  (group_keys (index Xa)))) /\
  (exists out printed dfd Xa,
      sample_run = Ok (out, printed, dfd) /\
      age_rows (X_out out) "65" = Ok Xa /\
      index Xa = [feb2011; feb2011; may2011; may2011] /\
      map this (column Xa "Deaths") = [10 # 1; 12 # 1; 8 # 1; 9 # 1]%Q /\
      map this (column Xa "Persons")
      = [1000 # 1; 1100 # 1; 1000 # 1; 1100 # 1]%Q /\
      option_map fractions (dict_get "Actual - Age 65-74" (nth 6 dfd []))
      = Some ([feb2011; may2011], [11440 # 21; 8840 # 21]%Q) /\
      (22 # 2100) * 1000 * 52 == 11440 # 21 /\
      54476 # 100 < 11440 # 21 /\ 11440 # 21 < 54477 # 100)%Q.
Proof.
  split.
  - intros X X_cont dfd i Hrun Hi.
    destruct (cell9_inv X X_cont dfd Hrun)
      as (Xa0 & Xa1 & Xa2 & E0 & E1 & E2 & Hcols & ->).
    pose proof (rate_entry_of_result X X_cont Xa0 Xa1 Xa2 i Hi) as Hentry.
    cbv zeta in Hentry.
    set (Xa := nth i [Xa0; Xa1; Xa2] Xa0) in *.
    assert (HXa : age_rows X (nth i agelist "") = Ok Xa).
    { subst Xa. destruct i as [|[|[|i]]]; [| | |lia]; assumption. }
    assert (Hin : In Xa [Xa0; Xa1; Xa2]).
    { subst Xa. destruct i as [|[|[|i]]]; [| | |lia]; cbn; tauto. }
    rewrite Forall_forall in Hcols. destruct (Hcols Xa Hin) as (HD & HP).
    exists Xa, (column Xa "Deaths"), (column Xa "Persons").
    split; [exact HXa|]. split; [exact HD|]. split; [exact HP|].
    rewrite Hentry. unfold column at 1 2.
    unfold groupby_index_sum at 2 3. cbn [columns].
    rewrite !(lookup_map_columns
                (fun s => map (group_total (index Xa) s) (group_keys (index Xa)))).
    unfold getitem in HD, HP.
    destruct (lookup "Deaths" (columns Xa)) as [sd|]; [|discriminate HD].
    destruct (lookup "Persons" (columns Xa)) as [sp|]; [|discriminate HP].
    injection HD as <-. injection HP as <-.
    cbn [option_map]. rewrite annual_rate_map. reflexivity.
  - eexists _, _, _, _.
    split; [vm_compute; reflexivity|].
    split; [vm_compute; reflexivity|].
    vm_compute. repeat split; try reflexivity; discriminate.
Qed.

(** ** The winter-quarter filter *)

Lemma insert_key_in d x keys :
  In d (insert_key x keys) -> d = x \/ In d keys.
Proof.
  induction keys as [|k rest IH]; cbn [insert_key].
  - intros [<-|[]]. now left.
  - destruct (ts_eqb x k); [now right|].
    destruct (ts_ltb x k).
    + intros [<-|H]; [now left | now right].
    + intros [<-|H]; [right; now left|].
      destruct (IH H) as [->|H']; [now left | right; now right].
Qed.

Lemma group_keys_in d idx : In d (group_keys idx) -> In d idx.
Proof.
  unfold group_keys. induction idx as [|x idx IH]; cbn [fold_right]; [tauto|].
  intros H. apply insert_key_in in H. destruct H as [->|H]; [now left|].
  right. now apply IH.
Qed.

Lemma select_self_in {A} (p : A -> bool) (xs : list A) d :
  In d (select (map p xs) xs) -> p d = true /\ In d xs.
Proof.
  induction xs as [|x xs IH]; cbn [map select]; [intros []|].
  destruct (p x) eqn:E.
  - intros [<-|H]; [split; [exact E | now left]|].
    destruct (IH H). split; [assumption | now right].
  - intros H. destruct (IH H). split; [assumption | now right].
Qed.

(** The winter view of a frame is indexed by dates of the frame whose month
    is February. *)
Lemma winter_frame_index df d :
  In d (index (winter_frame df)) -> month d = 2%Z /\ In d (index df).
Proof.
  unfold winter_frame, groupby_index_sum, df_select, month_is. cbn [index].
  intros H. apply group_keys_in in H.
  apply (select_self_in (fun t => (month t =? 2)%Z)) in H.
  destruct H as (Hm & Hin). split; [now apply Z.eqb_eq | exact Hin].
Qed.

Lemma dict_update_in k v d entry :
  In entry (dict_update k v d) -> entry = (k, v) \/ In entry d.
Proof.
  induction d as [|[n v0] rest IH]; cbn [dict_update].
  - intros [<-|[]]. now left.
  - destruct (String.eqb k n) eqn:E.
    + apply String.eqb_eq in E. subst n.
      intros [<-|H]; [now left | right; now right].
    + intros [<-|H]; [right; now left|].
      destruct (IH H) as [->|H']; [now left | right; now right].
Qed.

(** C8. In every successful run of cell 9, each series stored in one of the
    four winter-quarter dictionaries ([dfd[2]] to [dfd[5]]) is indexed only
    by dates whose month is 2, the month the winter-quarter filter tests
    for. *)
Theorem winter_dictionaries_hold_only_winter_dates :
  forall X X_cont dfd j label idx values t,
    cell9 X X_cont = Ok dfd ->
    (2 <= j <= 5)%nat ->
    In (label, (idx, values)) (nth j dfd []) ->
    In t idx ->
    month t = 2%Z.
Proof.
  intros X X_cont dfd j label idx values t Hrun Hj Hentry Ht.
  destruct (cell9_inv X X_cont dfd Hrun)
    as (Xa0 & Xa1 & Xa2 & _ & _ & _ & _ & ->).
  assert (Hidx : exists df, idx = index (winter_frame df)).
  { unfold all_ages_step_result, age_step_result, dfd_update in Hentry.
    assert (Ej : (j = 2 \/ j = 3 \/ j = 4 \/ j = 5)%nat) by lia.
    destruct Ej as [->|[->|[->| ->]]];
      cbn [repeat list_set nth Nat.add] in Hentry;
      repeat (apply dict_update_in in Hentry;
              destruct Hentry as [Hentry|Hentry];
              [apply (f_equal (fun e => fst (snd e))) in Hentry;
               cbn [fst snd] in Hentry; eexists; exact Hentry|]);
      destruct Hentry. }
  destruct Hidx as (df & ->).
  now apply winter_frame_index in Ht.
Qed.

(** ** Totals by date, with and without a row filter *)

Lemma Qc_eqb_eq x y : Qc_eqb x y = true <-> x = y.
Proof.
  unfold Qc_eqb. rewrite Qeq_bool_iff. split.
  - apply Qc_is_canon.
  - intros ->. reflexivity.
Qed.

Lemma ts_eqb_month d t : ts_eqb d t = true -> month t = month d.
Proof.
  unfold ts_eqb. intros H.
  apply andb_prop in H. destruct H as (H & _).
  apply andb_prop in H. destruct H as (_ & H).
  apply Z.eqb_eq in H. now symmetry.
Qed.

Lemma length_select_map {A B} (p : A -> bool) (xs : list A) (ys : list B) :
  length ys = length xs ->
  length (select (map p xs) ys) = length (select (map p xs) xs).
Proof.
  revert ys. induction xs as [|x xs IH]; intros [|y ys] H;
    try discriminate H; cbn [map select]; [reflexivity|].
  injection H as H. destruct (p x); cbn [length]; rewrite (IH ys H); reflexivity.
Qed.

(** Dropping rows before summing by date changes nothing at date [d] when
    every dropped row of that date holds 0. *)
Lemma group_total_select idx s mask d :
  length mask = length idx ->
  length s = length idx ->
  (forall i, nth i mask true = false ->
             ts_eqb d (nth i idx d) = true ->
             nth i s (num 0) = num 0) ->
  group_total (select mask idx) (select mask s) d = group_total idx s d.
Proof.
  unfold group_total. revert s mask.
  induction idx as [|a idx IH]; intros [|x s] [|b mask] Hm Hs Hz;
    try discriminate Hm; try discriminate Hs; [reflexivity|].
  injection Hm as Hm. injection Hs as Hs.
  assert (Hz' : forall i, nth i mask true = false ->
                          ts_eqb d (nth i idx d) = true ->
                          nth i s (num 0) = num 0)
    by (intros i; exact (Hz (S i))).
  specialize (IH s mask Hm Hs Hz').
  destruct b; cbn [select map].
  - destruct (ts_eqb d a); cbn [qsum fold_right]; fold (qsum); [|exact IH].
    unfold qsum in *. now rewrite IH.
  - rewrite IH. destruct (ts_eqb d a) eqn:E; [|reflexivity].
    pose proof (Hz O eq_refl E) as H0. cbn [nth] in H0. subst x.
    unfold qsum. cbn [fold_right]. change (num 0) with 0%Qc. ring.
Qed.

(** Restricting a frame to the winter quarter does not change the total of a
    winter date. *)
Lemma group_total_winter idx s d :
  length s = length idx ->
  month d = 2%Z ->
  let w := map (fun t => (month t =? 2)%Z) idx in
  group_total (select w idx) (select w s) d = group_total idx s d.
Proof.
  intros Hs Hd w. apply group_total_select; [apply length_map | exact Hs |].
  intros i Hw Ht. exfalso.
  apply ts_eqb_month in Ht.
  destruct (Nat.lt_ge_cases i (length idx)) as [Hi|Hi].
  - subst w.
    rewrite (nth_map_default _ _ _ _ d Hi) in Hw.
    apply Z.eqb_neq in Hw. congruence.
  - subst w. rewrite nth_overflow in Hw by (now rewrite length_map).
    discriminate.
Qed.

Lemma column_groupby df k :
  In k (column_names df) ->
  column (groupby_index_sum df) k
  = map (group_total (index df) (column df k)) (group_keys (index df)).
Proof.
  intros Hin. unfold column at 1. unfold groupby_index_sum. cbn [columns].
  rewrite (lookup_map_columns
             (fun s => map (group_total (index df) s) (group_keys (index df)))).
  rewrite (lookup_column df k Hin). reflexivity.
Qed.

Lemma column_df_select df mask k :
  In k (column_names df) ->
  column (df_select df mask) k = select mask (column df k).
Proof.
  intros Hin. unfold column at 1. unfold df_select. cbn [columns].
  rewrite (lookup_map_columns (select mask)).
  rewrite (lookup_column df k Hin). reflexivity.
Qed.

Lemma column_names_groupby df :
  column_names (groupby_index_sum df) = column_names df.
Proof.
  unfold column_names, groupby_index_sum. cbn [columns].
  rewrite map_map. reflexivity.
Qed.

(** The winter view of a column, date by date: the total over the rows of
    the date that a filter keeps, for any filter that only drops rows on
    which the column is 0. *)
Lemma winter_column_is_filtered_total df k mask :
  In k (column_names df) ->
  length (column df k) = nrows df ->
  length mask = nrows df ->
  (forall i, nth i mask true = false -> nth i (column df k) (num 0) = num 0) ->
  getitem (winter_frame df) k
  = Ok (map (fun d => group_total (select mask (index df))
                        (select mask (column df k)) d)
          (index (winter_frame df))).
Proof.
  intros Hin Hlen Hmask Hzero.
  assert (Hin' : In k (column_names (winter_frame df))).
  { unfold winter_frame.
    now rewrite column_names_groupby, column_names_df_select. }
  rewrite (getitem_column _ _ Hin'). f_equal.
  unfold winter_frame at 1.
  rewrite column_groupby by (now rewrite column_names_df_select).
  rewrite column_df_select by exact Hin.
  change (index (df_select df (month_is df 2)))
    with (select (month_is df 2) (index df)).
  change (group_keys (select (month_is df 2) (index df)))
    with (index (winter_frame df)).
  apply map_ext_in. intros d Hd.
  apply winter_frame_index in Hd. destruct Hd as (Hd & _).
  unfold month_is.
  rewrite (group_total_winter (index df) (column df k) d Hlen Hd).
  symmetry. apply group_total_select; [exact Hmask | exact Hlen |].
  intros i Hi _. now apply Hzero.
Qed.

Section Totals.

Variable RandomState : Type.
Variable seeded : Z -> RandomState.
Variable permutation : RandomState -> nat -> list nat.
Variable fit : DataFrame -> Series -> LinearRegression.

Hypothesis fit_shape :
  forall P y, length (coef_ (fit P y)) = length (columns P).

(** Cell 7 writes the four prediction columns of [X] and no other. *)
Lemma cell7_models_keeps_columns global md X out k :
  cell7_models RandomState seeded permutation fit global md X = Ok out ->
  existsb (String.eqb k) ["PredR"; "PredD"; "PredR_Base"; "PredD_Base"] = false ->
  getitem (X_out out) k = getitem X k.
Proof.
  unfold cell7_models. intros H Hk.
  cbn [existsb] in Hk.
  repeat (apply orb_false_elim in Hk; destruct Hk as (? & Hk)).
  apply bind_inv in H. destruct H as (y & _ & H).
  apply bind_inv in H. destruct H as ([[[Xtr Xte] ytr] yte] & _ & H).
  repeat (apply bind_inv in H; destruct H as (? & _ & H)).
  injection H as <-. cbn [X_out].
  now rewrite !getitem_setitem_other by assumption.
Qed.

Lemma lookup_contribution persons cols coef k s0 :
  length coef = length cols ->
  lookup k cols = Some s0 ->
  exists c,
    lookup k (zip_with (contribution persons) cols coef)
    = Some (snd (contribution persons (k, s0) c)).
Proof.
  revert coef. induction cols as [|[n s] cols IH]; intros [|c coef] Hlen Hk;
    try discriminate Hlen; try discriminate Hk.
  cbn [zip_with lookup contribution fst snd] in *.
  destruct (String.eqb k n).
  - injection Hk as ->. now exists c.
  - apply IH; [now injection Hlen | exact Hk].
Qed.

Lemma contribution_zero persons k s0 c i :
  nth_error s0 i = Some (num 0) ->
  (i < length persons)%nat ->
  nth_error (snd (contribution persons (k, s0) c)) i = Some (num 0).
Proof.
  intros Hs Hp. cbn [contribution snd fst].
  unfold series_div_scalar, series_mul, series_mul_scalar.
  rewrite !nth_error_map.
  rewrite (nth_error_zip_with _ _ _ i (num 0 * c)%Qc (nth i persons (num 0)));
    [| rewrite nth_error_map, Hs; reflexivity
     | now apply nth_error_nth_default ].
  cbn [option_map]. f_equal.
  change (num 0) with 0%Qc. unfold Qcdiv. ring.
Qed.

Lemma interaction_lookup mydata age base prefix :
  column_names mydata = input_schema ->
  In age agelist -> In (base, prefix) base_features ->
  lookup (prefix ++ age) (columns (extended_table mydata))
  = Some (interaction mydata base age) /\
  lookup (prefix ++ age) (columns (predictor_frame mydata))
  = Some (interaction mydata base age) /\
  In base (column_names mydata) /\
  In ("Age=M" ++ age) (column_names mydata) /\
  In ("Age=F" ++ age) (column_names mydata) /\
  getitem (initial_X mydata) ("Age=M" ++ age)
  = Ok (column mydata ("Age=M" ++ age)) /\
  getitem (initial_X mydata) ("Age=F" ++ age)
  = Ok (column mydata ("Age=F" ++ age)) /\
  existsb (String.eqb ("Age=M" ++ age))
    ["PredR"; "PredD"; "PredR_Base"; "PredD_Base"] = false /\
  existsb (String.eqb ("Age=F" ++ age))
    ["PredR"; "PredD"; "PredR_Base"; "PredD_Base"] = false.
Proof.
  intros Hs Hage Hbase.
  pose proof (columns_of_schema mydata Hs) as Hc.
  unfold extended_table. cbn [columns]. rewrite Hc, Hs.
  cbn [agelist base_features In] in Hage, Hbase.
  repeat match goal with H : _ \/ _ |- _ => destruct H end; try contradiction;
    repeat match goal with
           | H : (_, _) = (_, _) |- _ => inversion H; clear H
           end; subst;
    (split; [reflexivity|]); (split; [reflexivity|]);
    (split; [apply in_names; reflexivity|]);
    (split; [apply in_names; reflexivity|]);
    (split; [apply in_names; reflexivity|]);
    repeat split; reflexivity.
Qed.

Lemma interaction_zero mydata base age i :
  well_formed mydata ->
  In base (column_names mydata) ->
  In ("Age=M" ++ age) (column_names mydata) ->
  In ("Age=F" ++ age) (column_names mydata) ->
  cell mydata ("Age=M" ++ age) i = Some (num 0) ->
  cell mydata ("Age=F" ++ age) i = Some (num 0) ->
  (i < nrows mydata)%nat /\
  nth_error (interaction mydata base age) i = Some (num 0).
Proof.
  intros Hwf Hb HM HF Hm Hf.
  unfold cell in Hm, Hf.
  rewrite (lookup_column _ _ HM) in Hm. rewrite (lookup_column _ _ HF) in Hf.
  assert (Hi : (i < nrows mydata)%nat).
  { rewrite <- (column_length mydata _ Hwf HM).
    apply nth_error_Some. congruence. }
  split; [exact Hi|].
  unfold interaction, series_mul, series_add.
  rewrite (nth_error_zip_with _ _ _ i (nth i (column mydata base) (num 0))
             (num 0 + num 0)%Qc).
  - f_equal. change (num 0) with 0%Qc. ring.
  - apply nth_error_nth_default. now rewrite column_length.
  - now apply nth_error_zip_with.
Qed.

Lemma contribution_length persons k s0 c :
  length s0 = length persons ->
  length (snd (contribution persons (k, s0) c)) = length persons.
Proof.
  intros H. cbn [contribution snd fst].
  unfold series_div_scalar, series_mul, series_mul_scalar.
  rewrite !length_map, length_zip_with, length_map, H. apply Nat.min_id.
Qed.

Lemma age_mask_discards_zero_rows X m f age mask i :
  getitem X ("Age=M" ++ age) = Ok m ->
  getitem X ("Age=F" ++ age) = Ok f ->
  length m = length f ->
  (forall v, nth_error m i = Some v \/ nth_error f i = Some v ->
             v = num 0 \/ v = num 1) ->
  age_mask X age = Ok mask ->
  length mask = length m /\
  (nth i mask true = false ->
   nth_error m i = Some (num 0) /\ nth_error f i = Some (num 0)).
Proof.
  intros Hm Hf Hlen Hbin Hmask.
  unfold age_mask in Hmask. rewrite Hm, bind_Ok, Hf, bind_Ok in Hmask.
  injection Hmask as <-.
  unfold mask_or, series_eq_scalar.
  split; [rewrite length_zip_with, !length_map, <- Hlen; apply Nat.min_id|].
  intros Hi.
  destruct (Nat.lt_ge_cases i (length m)) as [Hlt|Hge].
  - assert (Hlt' : (i < length f)%nat) by (rewrite <- Hlen; exact Hlt).
    rewrite (nth_zip_with _ _ _ _ true true) in Hi
      by (rewrite length_map; assumption).
    rewrite (nth_map_default _ _ _ _ (num 0) Hlt) in Hi.
    rewrite (nth_map_default _ _ _ _ (num 0) Hlt') in Hi.
    apply orb_false_elim in Hi. destruct Hi as (Hm1 & Hf1).
    pose proof (nth_error_nth_default m i (num 0) Hlt) as Em.
    pose proof (nth_error_nth_default f i (num 0) Hlt') as Ef.
    rewrite Em, Ef.
    destruct (Hbin _ (or_introl Em)) as [->|E1];
      [|rewrite E1 in Hm1; discriminate Hm1].
    destruct (Hbin _ (or_intror Ef)) as [->|E2];
      [|rewrite E2 in Hf1; discriminate Hf1].
    split; reflexivity.
  - rewrite nth_overflow in Hi; [discriminate|].
    rewrite length_zip_with, !length_map. lia.
Qed.

(** C10. On a table with the documented columns and at least two rows, take
    an age band [a] and an interaction column [f_a]. (1) On every row whose
    [Age=M a] and [Age=F a] are both 0, the column is 0 in the extended
    table, and so is its contribution. (2) Hence the winter-quarter series
    cell 9 builds from the contribution table without any age filter holds,
    at each of its dates, the total of the contributions over the rows of
    that date kept by any row filter that only drops rows whose two
    indicators are 0. (3) When the two indicators of the band only take the
    values 0 and 1, the age-band filter of the notebook is such a filter. *)
Theorem contribution_totals_need_no_age_filter :
  forall global mydata,
    column_names mydata = input_schema ->
    well_formed mydata ->
    (2 <= nrows mydata)%nat ->
    exists md X out,
      cell5 mydata = Ok (md, X) /\
      cell7_models RandomState seeded permutation fit global md X = Ok out /\
      forall age base prefix,
        In age agelist -> In (base, prefix) base_features ->
        let k := prefix ++ age in
        let both_zero i :=
          cell mydata ("Age=M" ++ age) i = Some (num 0) /\
          cell mydata ("Age=F" ++ age) i = Some (num 0) in
        let filtered_totals mask :=
          map (fun d =>
                 group_total (select mask (index (X_cont out)))
                   (select mask (column (X_cont out) k)) d)
            (index (winter_frame (X_cont out))) in
        (forall i, both_zero i ->
                   cell md k i = Some (num 0) /\
                   cell (X_cont out) k i = Some (num 0)) /\
        (forall mask,
            length mask = nrows mydata ->
            (forall i, nth i mask true = false -> both_zero i) ->
            getitem (winter_frame (X_cont out)) k = Ok (filtered_totals mask)) /\
        ((forall i v,
             cell mydata ("Age=M" ++ age) i = Some v
             \/ cell mydata ("Age=F" ++ age) i = Some v ->
             v = num 0 \/ v = num 1) ->
         exists mask,
           age_mask (X_out out) age = Ok mask /\
           getitem (winter_frame (X_cont out)) k = Ok (filtered_totals mask)).
Proof.
  intros global mydata Hs Hwf Hn.
  destruct (cell7_models_schema RandomState seeded permutation fit fit_shape
              global mydata Hs Hwf Hn)
    as (out & Hrun & HP & _ & _ & _ & Hm & _ & _ & _ & _ & _ & _ & _ & HC).
  exists (extended_table mydata), (initial_X mydata), out.
  split; [apply cell5_schema; exact Hs|].
  split; [exact Hrun|].
  intros age base prefix Hage Hbase k both_zero filtered_totals.
  destruct (interaction_lookup mydata age base prefix Hs Hage Hbase)
    as (Hext & Hpred & Hb & HM & HF & HXM & HXF & HkM & HkF).
  fold k in Hext, Hpred.
  set (persons := column mydata "Persons") in *.
  assert (Hlen : length persons = nrows mydata)
    by (apply column_length; [exact Hwf | rewrite Hs; cbn; tauto]).
  assert (Hcoef : length (coef_ (model out))
                  = length (columns (predictor_frame mydata))).
  { rewrite Hm, fit_shape. unfold df_take. cbn [columns]. apply length_map. }
  rewrite <- Hm in HC.
  destruct (lookup_contribution persons _ _ k _ Hcoef Hpred) as (c & Hlook).
  assert (Hcol : column (X_cont out) k
                 = snd (contribution persons (k, interaction mydata base age) c)).
  { unfold column. rewrite HC. cbn [columns]. now rewrite Hlook. }
  assert (Hink : In k (column_names (X_cont out))).
  { rewrite HC. unfold column_names. cbn [columns].
    rewrite contribution_names by exact Hcoef.
    apply in_names. apply existsb_exists. exists k. split.
    - apply lookup_in_columns in Hpred.
      change k with (fst (k, interaction mydata base age)).
      now apply in_map.
    - apply String.eqb_refl. }
  assert (Hrows : nrows (X_cont out) = nrows mydata)
    by (rewrite HC; reflexivity).
  assert (Hzero : forall i, both_zero i ->
                            cell (extended_table mydata) k i = Some (num 0) /\
                            cell (X_cont out) k i = Some (num 0)).
  { intros i (Hmi & Hfi).
    destruct (interaction_zero mydata base age i Hwf Hb HM HF Hmi Hfi)
      as (Hi & Hint).
    split.
    - unfold cell. rewrite Hext. exact Hint.
    - unfold cell. rewrite HC. cbn [columns]. rewrite Hlook.
      apply contribution_zero; [exact Hint | rewrite Hlen; exact Hi]. }
  assert (Htotals : forall mask,
             length mask = nrows mydata ->
             (forall i, nth i mask true = false -> both_zero i) ->
             getitem (winter_frame (X_cont out)) k = Ok (filtered_totals mask)).
  { intros mask Hmask Hdrop. subst filtered_totals. cbv beta.
    apply winter_column_is_filtered_total.
    - exact Hink.
    - rewrite Hcol, Hrows, <- Hlen. apply contribution_length.
      rewrite Hlen. now apply interaction_length.
    - now rewrite Hrows.
    - intros i Hi. destruct (Hzero i (Hdrop i Hi)) as (_ & Hci).
      unfold cell in Hci. rewrite (lookup_column _ _ Hink) in Hci.
      now apply nth_error_nth. }
  split; [exact Hzero|]. split; [exact Htotals|].
  intros Hbin.
  assert (HgM : getitem (X_out out) ("Age=M" ++ age)
                = Ok (column mydata ("Age=M" ++ age))).
  { rewrite (cell7_models_keeps_columns _ _ _ _ _ Hrun HkM). exact HXM. }
  assert (HgF : getitem (X_out out) ("Age=F" ++ age)
                = Ok (column mydata ("Age=F" ++ age))).
  { rewrite (cell7_models_keeps_columns _ _ _ _ _ Hrun HkF). exact HXF. }
  assert (Hmask : exists mask, age_mask (X_out out) age = Ok mask).
  { unfold age_mask. rewrite HgM, bind_Ok, HgF, bind_Ok. eauto. }
  destruct Hmask as (mask & Hmask).
  exists mask. split; [exact Hmask|].
  assert (Hlens : length (column mydata ("Age=M" ++ age))
                  = length (column mydata ("Age=F" ++ age)))
    by (now rewrite !column_length).
  apply Htotals.
  - destruct (age_mask_discards_zero_rows _ _ _ _ mask O HgM HgF Hlens) as (L & _);
      [|exact Hmask | rewrite L; now apply column_length].
    intros v Hv. apply (Hbin O v). unfold cell.
    now rewrite (lookup_column _ _ HM), (lookup_column _ _ HF).
  - intros i Hi. unfold both_zero, cell.
    rewrite (lookup_column _ _ HM), (lookup_column _ _ HF).
    destruct (age_mask_discards_zero_rows _ _ _ _ mask i HgM HgF Hlens) as (_ & Hz);
      [|exact Hmask | exact (Hz Hi)].
    intros v Hv. apply (Hbin i v). unfold cell.
    now rewrite (lookup_column _ _ HM), (lookup_column _ _ HF).
Qed.

End Totals.

(** ** Runs on the sample table *)

Lemma sample_fit_shape P y :
  length (coef_ (sample_fit P y)) = length (columns P).
Proof. unfold sample_fit. cbn [coef_]. apply length_map. Qed.

Lemma sample_schema : column_names sample_table = input_schema.
Proof. reflexivity. Qed.

Lemma sample_labels_distinct : NoDup (column_names sample_table).
Proof.
  change (column_names sample_table) with input_schema. unfold input_schema.
  repeat (apply NoDup_cons;
          [cbn [In]; intros H;
           repeat (destruct H as [H|H]; [discriminate H|]); exact H|]).
  apply NoDup_nil.
Qed.

Lemma sample_well_formed : well_formed sample_table.
Proof.
  unfold well_formed, sample_table, sample_columns. cbn [columns].
  repeat (apply Forall_cons; [reflexivity|]). apply Forall_nil.
Qed.

Lemma sample_rows : (2 <= nrows sample_table)%nat.
Proof. apply Nat.leb_le. reflexivity. Qed.




Lemma cross_validation_frames_are_not_the_predictor_sets_witness :
  column_names sample_table = input_schema /\
  well_formed sample_table /\
  (2 <= nrows sample_table)%nat /\
  exists md X out P_full P_base rate,
    cell5 sample_table = Ok (md, X) /\
    cell7_models Z (fun seed => seed) sample_permutation sample_fit 0%Z md X
    = Ok out /\
    cv_frames (X_out out) 0 = Ok (P_full, P_base, rate) /\
    column_names P_full = "PredR_Base" :: "PredD_Base" :: full_predictors /\
    column_names P_base
    = "PredR_Base" :: "PredD_Base" :: firstn 10 base_predictors.
Proof.
  split; [exact sample_schema|]. split; [exact sample_well_formed|].
  split; [exact sample_rows|].
  destruct (cross_validation_frames_are_not_the_predictor_sets Z
              (fun seed => seed) sample_permutation sample_fit sample_fit_shape
              0%Z sample_table sample_schema sample_well_formed sample_rows)
    as (md & X & out & H5 & H7 & _ & _ & Hcv).
  destruct (Hcv 0%nat ltac:(lia)) as (Pf & Pb & rate & Hf & Hnf & Hnb & _).
  exists md, X, out, Pf, Pb, rate. repeat split; assumption.
Defined.

Lemma sample_cell9 :
  cell9 (fst sample_frames) (snd sample_frames) = Ok sample_dfd.
Proof. vm_compute. reflexivity. Qed.

Lemma aggregated_rate_is_summed_deaths_over_summed_population_witness :
  cell9 (fst sample_frames) (snd sample_frames) = Ok sample_dfd /\
  (0 < 3)%nat /\
  exists Xa deaths persons,
    age_rows (fst sample_frames) "65" = Ok Xa /\
    getitem Xa "Deaths" = Ok deaths /\
    getitem Xa "Persons" = Ok persons /\
    dict_get "Actual - Age 65-74" (nth 6 sample_dfd [])
    = Some (group_keys (index Xa),
            map (fun d =>
                   (group_total (index Xa) deaths d
                    / group_total (index Xa) persons d
                    * num 1000 * num 52)%Qc)
              (group_keys (index Xa))).
Proof.
  split; [exact sample_cell9|]. split; [lia|].
  exact (proj1 aggregated_rate_is_summed_deaths_over_summed_population
           (fst sample_frames) (snd sample_frames) sample_dfd 0%nat
           sample_cell9 ltac:(lia)).
Defined.

Lemma winter_dictionaries_hold_only_winter_dates_witness :
  cell9 (fst sample_frames) (snd sample_frames) = Ok sample_dfd /\
  (2 <= 2 <= 5)%nat /\
  In ("Actual - Age 65-74", ([feb2011], sample_winter_excess_65))
    (nth 2 sample_dfd []) /\
  In feb2011 [feb2011] /\
  month feb2011 = 2%Z.
Proof.
  assert (Hin : In ("Actual - Age 65-74", ([feb2011], sample_winter_excess_65))
                  (nth 2 sample_dfd [])).
  { vm_compute. left. reflexivity. }
  assert (Ht : In feb2011 [feb2011]) by (left; reflexivity).
  assert (Hj : (2 <= 2 <= 5)%nat) by lia.
  split; [exact sample_cell9|]. split; [exact Hj|].
  split; [exact Hin|]. split; [exact Ht|].
  exact (winter_dictionaries_hold_only_winter_dates
           (fst sample_frames) (snd sample_frames) sample_dfd 2%nat
           "Actual - Age 65-74" [feb2011] sample_winter_excess_65 feb2011
           sample_cell9 Hj Hin Ht).
Defined.

Lemma sample_other_schema :
  column_names sample_table_other_holdout = input_schema.
Proof. reflexivity. Qed.

Lemma sample_other_well_formed : well_formed sample_table_other_holdout.
Proof.
  unfold well_formed. vm_compute.
  repeat (apply Forall_cons; [reflexivity|]). apply Forall_nil.
Qed.

Lemma sample_other_rows : (2 <= nrows sample_table_other_holdout)%nat.
Proof. apply Nat.leb_le. reflexivity. Qed.

Lemma base_fit_drops_frost_vaccine_and_fits_use_training_rows_witness :
  column_names sample_table = input_schema /\
  well_formed sample_table /\
  (2 <= nrows sample_table)%nat /\
  cell sample_table "Rate" 10 <> cell sample_table_other_holdout "Rate" 10 /\
  exists md X out md' X' out',
    cell5 sample_table = Ok (md, X) /\
    cell7_models Z (fun seed => seed) sample_permutation sample_fit 0%Z md X
    = Ok out /\
    cell5 sample_table_other_holdout = Ok (md', X') /\
    cell7_models Z (fun seed => seed) sample_permutation sample_fit 7%Z md' X'
    = Ok out' /\
    column_names (X_train out) = full_predictors /\
    column_names (iloc_range (X_train out) 0 12) = base_predictors /\
    model out' = model out /\
    model_base out' = model_base out.
Proof.
  split; [exact sample_schema|]. split; [exact sample_well_formed|].
  split; [exact sample_rows|].
  split; [vm_compute; discriminate|].
  destruct (base_fit_drops_frost_vaccine_and_fits_use_training_rows Z
              (fun seed => seed) sample_permutation sample_fit sample_fit_shape
              0%Z sample_table sample_schema sample_well_formed sample_rows)
    as (md & X & out & H5 & H7 & _ & _ & Hfull & Hbase & _ & _ & _ & _ & _
        & Hsame).
  destruct (base_fit_drops_frost_vaccine_and_fits_use_training_rows Z
              (fun seed => seed) sample_permutation sample_fit sample_fit_shape
              7%Z sample_table_other_holdout sample_other_schema
              sample_other_well_formed sample_other_rows)
    as (md' & X' & out' & H5' & H7' & _).
  exists md, X, out, md', X', out'.
  split; [exact H5|]. split; [exact H7|].
  split; [exact H5'|]. split; [exact H7'|].
  split; [exact Hfull|]. split; [exact Hbase|].
  rewrite (cell5_schema _ sample_schema) in H5.
  rewrite (cell5_schema _ sample_other_schema) in H5'.
  injection H5 as <- <-. injection H5' as <- <-.
  apply (Hsame 7%Z _ _ out'
           (column (initial_X sample_table_other_holdout) "Rate") H7').
  - reflexivity.
  - reflexivity.
  - vm_compute. reflexivity.
  - vm_compute. reflexivity.
Defined.

Lemma sample_indicators_binary_65 i v :
  cell sample_table "Age=M65" i = Some v
  \/ cell sample_table "Age=F65" i = Some v ->
  v = num 0 \/ v = num 1.
Proof.
  intros H.
  do 12 (destruct i as [|i];
         [destruct H as [H|H]; injection H as <-;
          first [left; reflexivity | right; reflexivity]|]).
  destruct H as [H|H]; destruct i; discriminate H.
Qed.

Lemma contribution_totals_need_no_age_filter_witness :
  column_names sample_table = input_schema /\
  well_formed sample_table /\
  (2 <= nrows sample_table)%nat /\
  exists md X out mask,
    cell5 sample_table = Ok (md, X) /\
    cell7_models Z (fun seed => seed) sample_permutation sample_fit 0%Z md X
    = Ok out /\
    cell md "AF_65" 2 = Some (num 0) /\
    cell (X_cont out) "AF_65" 2 = Some (num 0) /\
    age_mask (X_out out) "65" = Ok mask /\
    getitem (winter_frame (X_cont out)) "AF_65"
    = Ok (map (fun d =>
                 group_total (select mask (index (X_cont out)))
                   (select mask (column (X_cont out) "AF_65")) d)
            (index (winter_frame (X_cont out)))).
Proof.
  split; [exact sample_schema|]. split; [exact sample_well_formed|].
  split; [exact sample_rows|].
  destruct (contribution_totals_need_no_age_filter Z (fun seed => seed)
              sample_permutation sample_fit sample_fit_shape 0%Z sample_table
              sample_schema sample_well_formed sample_rows)
    as (md & X & out & H5 & H7 & Hband).
  assert (Hage : In "65" agelist) by (left; reflexivity).
  assert (Hbase : In ("AF", "AF_") base_features)
    by (right; right; left; reflexivity).
  destruct (Hband "65" "AF" "AF_" Hage Hbase) as (Hzero & _ & Hcode).
  destruct (Hzero 2%nat (conj eq_refl eq_refl)) as (Hmd & Hcont).
  destruct (Hcode sample_indicators_binary_65) as (mask & Hmask & Htotal).
  exists md, X, out, mask.
  split; [exact H5|]. split; [exact H7|].
  split; [exact Hmd|]. split; [exact Hcont|].
  split; [exact Hmask | exact Htotal].
Defined.

(** ** More on cell 5 *)

Lemma column_setitem_other df k k' s :
  String.eqb k k' = false -> column (setitem df k' s) k = column df k.
Proof.
  intros H. unfold column, setitem. cbn [columns].
  now rewrite lookup_assign_other.
Qed.

Lemma has_column_setitem_other df k k' s :
  String.eqb k k' = false -> has_column (setitem df k' s) k = has_column df k.
Proof.
  intros H. unfold has_column, setitem. cbn [columns].
  now rewrite lookup_assign_other.
Qed.

Lemma getitem_has_column df k s : getitem df k = Ok s -> has_column df k = true.
Proof.
  unfold getitem, has_column. destruct (lookup k (columns df)); [reflexivity|discriminate].
Qed.

Lemma has_column_getitem_column df k :
  has_column df k = true -> getitem df k = Ok (column df k).
Proof.
  unfold has_column, getitem, column.
  destruct (lookup k (columns df)); [reflexivity | discriminate].
Qed.

(** The two loops of cell 5 succeed exactly when the table has the ten
    columns they read, and then perform the twelve assignments of
    [with_interactions]. *)
Lemma feature_builder_closed_form mydata :
  forallb (has_column mydata) required_columns = true ->
  feature_builder mydata = Ok (with_interactions mydata).
Proof.
  intros H. cbn [forallb required_columns indicator_columns app] in H.
  repeat (apply andb_prop in H; destruct H as [?H H]).
  repeat match goal with
  | Hc : has_column _ _ = true |- _ => apply has_column_getitem_column in Hc
  end.
  unfold feature_builder, winter_year_step, frost_vaccine_step.
  cbn [for_each agelist append].
  repeat first
    [ rewrite getitem_setitem_other by reflexivity
    | match goal with
      | Hg : getitem mydata ?k = Ok _ |- context [getitem mydata ?k] =>
          rewrite Hg
      end
    | rewrite bind_Ok ].
  reflexivity.
Qed.

Lemma feature_builder_ok_required mydata out :
  feature_builder mydata = Ok out ->
  forallb (has_column mydata) required_columns = true.
Proof.
  intros H.
  destruct (forallb (has_column mydata) required_columns) eqn:E; [reflexivity|].
  exfalso.
  assert (Hmiss : exists k, In k required_columns /\ has_column mydata k = false).
  { destruct (forallb_forall (has_column mydata) required_columns) as (_ & Hall).
    destruct (existsb (fun k => negb (has_column mydata k)) required_columns) eqn:Ex.
    - apply existsb_exists in Ex. destruct Ex as (k & Hin & Hk).
      exists k. split; [exact Hin|]. now apply negb_true_iff.
    - rewrite Hall in E; [discriminate|].
      intros k Hin.
      destruct (has_column mydata k) eqn:Hk; [reflexivity|].
      assert (existsb (fun k => negb (has_column mydata k)) required_columns = true).
      { apply existsb_exists. exists k. split; [exact Hin|]. now rewrite Hk. }
      congruence. }
  destruct Hmiss as (k & Hin & Hk).
  revert H.
  unfold feature_builder, winter_year_step, frost_vaccine_step.
  cbn [for_each agelist append].
  repeat (rewrite ?getitem_setitem_other by reflexivity;
    match goal with
    | |- context [getitem mydata ?c] =>
        let Hc := fresh "Hc" in
        destruct (getitem_cases mydata c) as [(? & Hc & ?) | (Hc & ?)];
        rewrite Hc; cbn [bind]
    end).
  all: try discriminate.
  intros _.
  cbn [required_columns indicator_columns app In] in Hin.
  repeat match goal with H : _ \/ _ |- _ => destruct H end; try contradiction;
  subst; congruence.
Qed.

Lemma column_names_setitem_absent df k s :
  has_column df k = false ->
  column_names (setitem df k s) = (column_names df ++ [k])%list.
Proof.
  unfold has_column, column_names, setitem. cbn [columns].
  induction (columns df) as [|[n s0] rest IH]; cbn [lookup assign map fst app];
    [reflexivity|].
  destruct (String.eqb k n); [discriminate|].
  intros H. cbn [map fst]. now rewrite IH.
Qed.

Lemma assign_same_value k s cols :
  lookup k cols = Some s -> assign k s cols = cols.
Proof.
  induction cols as [|[n s0] rest IH]; cbn [lookup assign]; [discriminate|].
  destruct (String.eqb k n).
  - now intros [= ->].
  - intros H. now rewrite IH.
Qed.

Lemma setitem_same_value df k s :
  lookup k (columns df) = Some s -> setitem df k s = df.
Proof.
  intros H. unfold setitem. rewrite (assign_same_value _ _ _ H).
  now destruct df.
Qed.

Lemma fold_setitem_same_values df entries :
  (forall c, In c entries -> lookup (fst c) (columns df) = Some (snd c)) ->
  fold_left (fun d c => setitem d (fst c) (snd c)) entries df = df.
Proof.
  induction entries as [|c entries IH]; intros H; cbn [fold_left];
    [reflexivity|].
  rewrite setitem_same_value by (apply H; now left).
  apply IH. intros c' Hc'. apply H. now right.
Qed.

Lemma with_interactions_lookup df c :
  In c (interaction_block df) ->
  lookup (fst c) (columns (with_interactions df)) = Some (snd c).
Proof.
  unfold with_interactions, interaction_block. cbn [In fold_left fst snd].
  intros H.
  repeat (destruct H as [<-|H];
          [cbn [fst snd]; unfold setitem; cbn [columns];
           rewrite ?lookup_assign_other by reflexivity;
           apply lookup_assign_same|]).
  destruct H.
Qed.

Lemma with_interactions_column df k :
  existsb (String.eqb k) interaction_names = false ->
  lookup k (columns (with_interactions df)) = lookup k (columns df).
Proof.
  intros Hk. cbn [existsb interaction_names] in Hk.
  repeat (apply orb_false_elim in Hk; destruct Hk as (? & Hk)).
  unfold with_interactions, interaction_block. cbn [fold_left fst snd].
  unfold setitem. cbn [columns].
  now rewrite !lookup_assign_other by assumption.
Qed.

Lemma with_interactions_block df :
  interaction_block (with_interactions df) = interaction_block df.
Proof.
  unfold interaction_block, interaction, column.
  now rewrite !with_interactions_column by reflexivity.
Qed.

Lemma with_interactions_idempotent df :
  with_interactions (with_interactions df) = with_interactions df.
Proof.
  unfold with_interactions at 1. rewrite with_interactions_block.
  apply fold_setitem_same_values. apply with_interactions_lookup.
Qed.

Lemma feature_builder_inv mydata out :
  feature_builder mydata = Ok out ->
  forallb (has_column mydata) required_columns = true /\
  out = with_interactions mydata.
Proof.
  intros H. pose proof (feature_builder_ok_required _ _ H) as Hreq.
  split; [exact Hreq|].
  rewrite (feature_builder_closed_form _ Hreq) in H. now injection H.
Qed.

(** X1. The two loops of cell 5 leave the index and every column other
    than the twelve interaction columns as they were; and when the table has
    none of the twelve labels yet, the result lists the original columns in
    their order followed by the twelve new ones in the order WINT_65,
    IMP_65, WINT_75, IMP_75, WINT_85, IMP_85, AF_65, VE_65, AF_75, VE_75,
    AF_85, VE_85. *)
Theorem feature_builder_keeps_columns_and_appends_in_order :
  forall mydata out,
    feature_builder mydata = Ok out ->
    index out = index mydata /\
    (forall k, existsb (String.eqb k) interaction_names = false ->
               getitem out k = getitem mydata k) /\
    (forallb (fun k => negb (has_column mydata k)) interaction_names = true ->
     column_names out = (column_names mydata ++ interaction_names)%list).
Proof.
  intros mydata out H.
  destruct (feature_builder_inv _ _ H) as (_ & ->).
  split; [reflexivity|]. split.
  - intros k Hk. unfold getitem. now rewrite with_interactions_column.
  - intros Hnew. cbn [forallb interaction_names] in Hnew.
    repeat (apply andb_prop in Hnew; destruct Hnew as (?Hn & Hnew)).
    repeat match goal with
           | Hn : negb _ = true |- _ => apply negb_true_iff in Hn
           end.
    unfold with_interactions, interaction_block. cbn [fold_left fst snd].
    repeat (rewrite column_names_setitem_absent
             by (rewrite ?has_column_setitem_other by reflexivity; assumption)).
    rewrite <- !app_assoc. reflexivity.
Qed.

Lemma feature_builder_keeps_columns_and_appends_in_order_witness :
  exists out,
    feature_builder sample_table = Ok out /\
    index out = index sample_table /\
    getitem out "Deaths" = getitem sample_table "Deaths" /\
    column_names out = (column_names sample_table ++ interaction_names)%list.
Proof.
  exists (with_interactions sample_table).
  assert (H : feature_builder sample_table = Ok (with_interactions sample_table))
    by (apply feature_builder_closed_form; reflexivity).
  destruct (feature_builder_keeps_columns_and_appends_in_order _ _ H)
    as (Hidx & Hkeep & Hnames).
  split; [exact H|]. split; [exact Hidx|].
  split; [apply Hkeep; reflexivity | apply Hnames; reflexivity].
Defined.

(** X2. Cell 5 can be run again on the table it produced: the loops
    overwrite the twelve interaction columns with the values they already
    hold, and the copy [X] is rebuilt from that table, so the second run
    returns the same pair of frames. *)
Theorem cell5_can_be_rerun :
  forall mydata md X,
    cell5 mydata = Ok (md, X) ->
    cell5 md = Ok (md, X).
Proof.
  intros mydata md X H. unfold cell5 in *.
  apply bind_inv in H. destruct H as (md0 & Hfb & H).
  apply bind_inv in H. destruct H as (X0 & HX & H).
  injection H as <- <-.
  destruct (feature_builder_inv _ _ Hfb) as (Hreq & ->).
  assert (Hreq' : forallb (has_column (with_interactions mydata))
                    required_columns = true).
  { apply forallb_forall. intros k Hk.
    rewrite forallb_forall in Hreq. specialize (Hreq k Hk).
    unfold has_column in *. rewrite with_interactions_column; [exact Hreq|].
    cbn [required_columns indicator_columns app In] in Hk.
    repeat (destruct Hk as [<-|Hk]; [reflexivity|]). destruct Hk. }
  rewrite (feature_builder_closed_form _ Hreq'), bind_Ok.
  rewrite with_interactions_idempotent, HX, bind_Ok. reflexivity.
Qed.

Lemma cell5_can_be_rerun_witness :
  cell5 sample_table
  = Ok (extended_table sample_table, initial_X sample_table) /\
  cell5 (extended_table sample_table)
  = Ok (extended_table sample_table, initial_X sample_table).
Proof.
  assert (H : cell5 sample_table
              = Ok (extended_table sample_table, initial_X sample_table))
    by (apply cell5_schema; reflexivity).
  split; [exact H|].
  exact (cell5_can_be_rerun _ _ _ H).
Defined.

(** X3. On a table with the documented columns, cell 5 returns the extended
    table, which still has the four base features, and a copy [X] without
    them whose columns are, in order: the five measures, the four prediction
    placeholders filled with 0 on every row, and then the eighteen
    predictors, so that [X.iloc[:,9:]] is exactly the predictor block. Every
    other column of [X] is the column of the extended table. *)
Theorem cell5_lays_out_predictors_from_position_9 :
  forall mydata,
    column_names mydata = input_schema ->
    exists md X,
      cell5 mydata = Ok (md, X) /\
      column_names X
      = (["Deaths"; "Persons"; "Persons_NoAdj"; "Rate"; "Rate_NoAdj"]
         ++ prediction_columns ++ full_predictors)%list /\
      column_names (iloc_from X 9) = full_predictors /\
      index X = index mydata /\
      (forall k, In k prediction_columns ->
                 getitem X k = Ok (repeat (num 0) (nrows mydata))) /\
      (forall k, In k dropped_columns ->
                 has_column X k = false /\ has_column md k = true) /\
      (forall k, In k (column_names X) -> ~ In k prediction_columns ->
                 getitem X k = getitem md k).
Proof.
  intros mydata Hs.
  exists (extended_table mydata), (initial_X mydata).
  split; [now apply cell5_schema|].
  pose proof (columns_of_schema mydata Hs) as Hc.
  split; [reflexivity|]. split; [reflexivity|]. split; [reflexivity|].
  split.
  { intros k Hk. cbn [prediction_columns In] in Hk.
    repeat (destruct Hk as [<-|Hk]; [reflexivity|]). destruct Hk. }
  split.
  { intros k Hk. cbn [dropped_columns In] in Hk.
    unfold has_column, extended_table. cbn [columns]. rewrite Hc.
    repeat (destruct Hk as [<-|Hk]; [split; reflexivity|]). destruct Hk. }
  intros k Hk Hnot.
  unfold getitem, extended_table. cbn [columns]. rewrite Hc.
  change (column_names (initial_X mydata))
    with (["Deaths"; "Persons"; "Persons_NoAdj"; "Rate"; "Rate_NoAdj"]
          ++ prediction_columns ++ full_predictors)%list in Hk.
  cbn [app prediction_columns full_predictors base_predictors
         frost_vaccine_columns In] in Hk, Hnot.
  repeat (destruct Hk as [<-|Hk]; [first [reflexivity | exfalso; tauto]|]).
  destruct Hk.
Qed.

Lemma cell5_lays_out_predictors_from_position_9_witness :
  column_names sample_table = input_schema /\
  exists md X,
    cell5 sample_table = Ok (md, X) /\
    column_names (iloc_from X 9) = full_predictors /\
    getitem X "PredD_Base" = Ok (repeat (num 0) (nrows sample_table)) /\
    has_column X "AF" = false /\ has_column md "AF" = true.
Proof.
  split; [exact sample_schema|].
  destruct (cell5_lays_out_predictors_from_position_9 sample_table
              sample_schema)
    as (md & X & H5 & _ & Hpred & _ & Hzero & Hdrop & _).
  exists md, X. split; [exact H5|]. split; [exact Hpred|].
  split; [apply Hzero; cbn; tauto|].
  apply Hdrop. cbn; tauto.
Defined.

Lemma lookup_remove_other k k' cols :
  String.eqb k k' = false -> lookup k (remove_column k' cols) = lookup k cols.
Proof.
  intros Hne. induction cols as [|[n s] rest IH]; cbn [remove_column lookup];
    [reflexivity|].
  destruct (String.eqb k' n) eqn:E.
  - apply String.eqb_eq in E. subst n. now rewrite Hne.
  - cbn [lookup]. now rewrite IH.
Qed.

Lemma length_remove_column k cols s :
  lookup k cols = Some s -> S (length (remove_column k cols)) = length cols.
Proof.
  induction cols as [|[n s0] rest IH]; cbn [remove_column lookup length];
    [discriminate|].
  destruct (String.eqb k n); [reflexivity|].
  intros H. cbn [length]. now rewrite IH.
Qed.

Lemma lookup_app k (l1 l2 : list (string * Series)) :
  lookup k (l1 ++ l2)
  = match lookup k l1 with Some s => Some s | None => lookup k l2 end.
Proof.
  induction l1 as [|[n s] l1 IH]; cbn [app lookup]; [reflexivity|].
  destruct (String.eqb k n); [reflexivity | exact IH].
Qed.

Lemma lookup_inserted_other k k' v n cols :
  String.eqb k k' = false ->
  lookup k (firstn n cols ++ (k', v) :: skipn n cols) = lookup k cols.
Proof.
  intros Hne. rewrite lookup_app. cbn [lookup]. rewrite Hne.
  rewrite <- lookup_app. now rewrite firstn_skipn.
Qed.

Lemma lookup_inserted_same k v n cols :
  lookup k cols = None ->
  lookup k (firstn n cols ++ (k, v) :: skipn n cols) = Some v.
Proof.
  intros Hnone. rewrite lookup_app. cbn [lookup]. rewrite String.eqb_refl.
  rewrite <- (firstn_skipn n cols), lookup_app in Hnone.
  now destruct (lookup k (firstn n cols)).
Qed.

Lemma present_in_names df k : has_column df k = true -> In k (column_names df).
Proof.
  unfold has_column, column_names.
  destruct (lookup k (columns df)) as [s|] eqn:E; [|discriminate].
  intros _. apply lookup_in_columns in E.
  change k with (fst (k, s)). now apply in_map.
Qed.

Lemma present_names_length df names :
  NoDup names ->
  forallb (has_column df) names = true ->
  (length names <= length (columns df))%nat.
Proof.
  intros Hnd Hall. rewrite forallb_forall in Hall.
  rewrite <- (length_map fst (columns df)).
  apply NoDup_incl_length; [exact Hnd|].
  intros k Hk. apply present_in_names. now apply Hall.
Qed.

Lemma insert_ok df loc k c :
  has_column df k = false ->
  (loc <= length (columns df))%nat ->
  insert df loc k c
  = Ok (mkDataFrame (index df)
          (firstn loc (columns df)
           ++ (k, repeat c (nrows df)) :: skipn loc (columns df))).
Proof.
  unfold has_column, insert. intros Hk Hloc.
  destruct (lookup k (columns df)); [discriminate|].
  apply Nat.ltb_ge in Hloc. now rewrite Hloc.
Qed.


Lemma five_indicators_distinct :
  NoDup ["Age=M65"; "Age=F65"; "Age=M75"; "Age=F75"; "Age=M85"].
Proof.
  repeat (apply NoDup_cons;
          [cbn [In]; intros H;
           repeat (destruct H as [H|H]; [discriminate H|]); exact H|]).
  apply NoDup_nil.
Qed.

(** The frame cell 5 copies the table into, after the drop. *)
Lemma drop_closed_form md :
  forallb (has_column md) dropped_columns = true ->
  drop md dropped_columns
  = Ok (mkDataFrame (index md)
          (remove_column "AF"
             (remove_column "Winter"
                (remove_column "Year" (remove_column "VE" (columns md)))))).
Proof.
  intros H. cbn [forallb dropped_columns] in H.
  repeat (apply andb_prop in H; destruct H as (?H & H)).
  unfold has_column in *. unfold drop, dropped_columns. cbn [for_each].
  destruct (lookup "VE" (columns md)); [|discriminate].
  rewrite bind_Ok. cbn [columns index].
  rewrite lookup_remove_other by reflexivity.
  destruct (lookup "Year" (columns md)); [|discriminate].
  rewrite bind_Ok. cbn [columns index].
  rewrite !lookup_remove_other by reflexivity.
  destruct (lookup "Winter" (columns md)); [|discriminate].
  rewrite bind_Ok. cbn [columns index].
  rewrite !lookup_remove_other by reflexivity.
  destruct (lookup "AF" (columns md)); [|discriminate].
  rewrite bind_Ok. reflexivity.
Qed.

Lemma insert_spec df loc k c :
  has_column df k = false ->
  (loc <= length (columns df))%nat ->
  exists df',
    insert df loc k c = Ok df' /\
    index df' = index df /\
    length (columns df') = S (length (columns df)) /\
    lookup k (columns df') = Some (repeat c (nrows df)) /\
    (forall k', String.eqb k' k = false ->
                lookup k' (columns df') = lookup k' (columns df)).
Proof.
  intros Hk Hloc. eexists. split; [now apply insert_ok|].
  cbn [index columns]. split; [reflexivity|]. split.
  - rewrite length_app. cbn [length]. rewrite length_firstn, length_skipn. lia.
  - split.
    + apply lookup_inserted_same. unfold has_column in Hk.
      now destruct (lookup k (columns df)).
    + intros k' Hne. now apply lookup_inserted_other.
Qed.

Lemma drop_spec md :
  forallb (has_column md) dropped_columns = true ->
  exists D,
    drop md dropped_columns = Ok D /\
    index D = index md /\
    (length (columns D) + 4 = length (columns md))%nat /\
    (forall k, existsb (String.eqb k) dropped_columns = false ->
               lookup k (columns D) = lookup k (columns md)).
Proof.
  intros H. eexists. split; [now apply drop_closed_form|].
  cbn [index columns]. split; [reflexivity|].
  cbn [forallb dropped_columns] in H.
  repeat (apply andb_prop in H; destruct H as (?H & H)).
  unfold has_column in *.
  split.
  - destruct (lookup "VE" (columns md)) as [s1|] eqn:E1; [|discriminate].
    pose proof (length_remove_column _ _ _ E1) as L1.
    destruct (lookup "Year" (columns md)) as [s2|] eqn:E2; [|discriminate].
    rewrite <- (lookup_remove_other "Year" "VE") in E2 by reflexivity.
    pose proof (length_remove_column _ _ _ E2) as L2.
    destruct (lookup "Winter" (columns md)) as [s3|] eqn:E3; [|discriminate].
    rewrite <- (lookup_remove_other "Winter" "VE") in E3 by reflexivity.
    rewrite <- (lookup_remove_other "Winter" "Year") in E3 by reflexivity.
    pose proof (length_remove_column _ _ _ E3) as L3.
    destruct (lookup "AF" (columns md)) as [s4|] eqn:E4; [|discriminate].
    rewrite <- (lookup_remove_other "AF" "VE") in E4 by reflexivity.
    rewrite <- (lookup_remove_other "AF" "Year") in E4 by reflexivity.
    rewrite <- (lookup_remove_other "AF" "Winter") in E4 by reflexivity.
    pose proof (length_remove_column _ _ _ E4) as L4.
    lia.
  - intros k Hk. cbn [existsb dropped_columns] in Hk.
    repeat (apply orb_false_elim in Hk; destruct Hk as (? & Hk)).
    now rewrite !lookup_remove_other by assumption.
Qed.

(** X4. Cell 5 succeeds on every table with distinct column labels and one
    value per row in each column, whatever its other columns and their
    order, that has the ten columns the loops read and no column named like
    one of the four prediction placeholders. The copy [X] then
    has the index of the table, as many columns as the extended table (four
    dropped, four inserted), zeros in the four placeholders, and every other
    column it keeps is the column of the extended table. *)
Theorem cell5_succeeds_without_prediction_columns :
  forall mydata,
    NoDup (column_names mydata) ->
    well_formed mydata ->
    forallb (has_column mydata) required_columns = true ->
    forallb (fun k => negb (has_column mydata k)) prediction_columns = true ->
    exists md X,
      cell5 mydata = Ok (md, X) /\
      index X = index mydata /\
      length (columns X) = length (columns md) /\
      (forall k, In k prediction_columns ->
                 getitem X k = Ok (repeat (num 0) (nrows mydata))) /\
      (forall k, existsb (String.eqb k) (prediction_columns ++ dropped_columns)
                 = false ->
                 getitem X k = getitem md k).
Proof.
  intros mydata _ _ Hreq Hpred.
  unfold cell5. rewrite (feature_builder_closed_form _ Hreq), bind_Ok.
  set (md := with_interactions mydata).
  assert (Hmd : forall k, existsb (String.eqb k) interaction_names = false ->
                          has_column md k = has_column mydata k).
  { intros k Hk. unfold has_column, md. now rewrite with_interactions_column. }
  rewrite forallb_forall in Hreq.
  assert (Hdropped : forallb (has_column md) dropped_columns = true).
  { apply forallb_forall. intros k Hk.
    cbn [dropped_columns In] in Hk.
    repeat (destruct Hk as [<-|Hk];
            [rewrite Hmd by reflexivity; apply Hreq; cbn; tauto|]).
    destruct Hk. }
  destruct (drop_spec md Hdropped) as (D & HD & HDi & HDl & HDk).
  assert (Hfive : (5 <= length (columns D))%nat).
  { apply (present_names_length D _ five_indicators_distinct).
    apply forallb_forall. intros k Hk. unfold has_column.
    rewrite HDk by (cbn [In] in Hk;
                    repeat (destruct Hk as [<-|Hk]; [reflexivity|]);
                    destruct Hk).
    fold (has_column md k). rewrite Hmd.
    - apply Hreq. cbn [In] in Hk. cbn.
      repeat (destruct Hk as [<-|Hk]; [tauto|]). destruct Hk.
    - cbn [In] in Hk.
      repeat (destruct Hk as [<-|Hk]; [reflexivity|]). destruct Hk. }
  cbn [forallb prediction_columns] in Hpred.
  repeat (apply andb_prop in Hpred; destruct Hpred as (?P & Hpred)).
  repeat match goal with
         | P : negb _ = true |- _ => apply negb_true_iff in P
         end.
  assert (HDp : forall k, In k prediction_columns -> has_column D k = false).
  { intros k Hk. unfold has_column. cbn [prediction_columns In] in Hk.
    repeat (destruct Hk as [<-|Hk];
            [rewrite HDk by reflexivity; fold (has_column md "PredR");
             fold (has_column md "PredD"); fold (has_column md "PredR_Base");
             fold (has_column md "PredD_Base");
             rewrite Hmd by reflexivity; assumption|]).
    destruct Hk. }
  unfold make_X. fold dropped_columns. rewrite HD, bind_Ok.
  destruct (insert_spec D 5 "PredR" (num 0)) as (X1 & E1 & I1 & L1 & G1 & K1);
    [apply HDp; cbn; tauto | exact Hfive |].
  rewrite E1, bind_Ok.
  destruct (insert_spec X1 6 "PredD" (num 0)) as (X2 & E2 & I2 & L2 & G2 & K2);
    [unfold has_column; rewrite K1 by reflexivity;
     apply (HDp "PredD"); cbn; tauto | lia |].
  rewrite E2, bind_Ok.
  destruct (insert_spec X2 7 "PredR_Base" (num 0))
    as (X3 & E3 & I3 & L3 & G3 & K3);
    [unfold has_column; rewrite K2, K1 by reflexivity;
     apply (HDp "PredR_Base"); cbn; tauto | lia |].
  rewrite E3, bind_Ok.
  destruct (insert_spec X3 8 "PredD_Base" (num 0))
    as (X4 & E4 & I4 & L4 & G4 & K4);
    [unfold has_column; rewrite K3, K2, K1 by reflexivity;
     apply (HDp "PredD_Base"); cbn; tauto | lia |].
  rewrite E4, bind_Ok.
  exists md, X4. split; [reflexivity|].
  assert (Hidx : index X4 = index mydata).
  { rewrite I4, I3, I2, I1, HDi. reflexivity. }
  assert (Hrows : forall Y, index Y = index mydata -> nrows Y = nrows mydata)
    by (intros Y HY; unfold nrows; now rewrite HY).
  split; [exact Hidx|].
  split.
  { assert (Hmdl : length (columns md) = length (columns md)) by reflexivity.
    lia. }
  split.
  - intros k Hk. unfold getitem. cbn [prediction_columns In] in Hk.
    destruct Hk as [<-|[<-|[<-|[<-|[]]]]].
    + rewrite K4, K3, K2 by reflexivity. rewrite G1.
      now rewrite (Hrows D HDi).
    + rewrite K4, K3 by reflexivity. rewrite G2.
      rewrite (Hrows X1) by (now rewrite I1, HDi). reflexivity.
    + rewrite K4 by reflexivity. rewrite G3.
      rewrite (Hrows X2) by (now rewrite I2, I1, HDi). reflexivity.
    + rewrite G4.
      rewrite (Hrows X3) by (now rewrite I3, I2, I1, HDi). reflexivity.
  - intros k Hk. unfold prediction_columns, dropped_columns in Hk.
    cbn [existsb app] in Hk.
    repeat (apply orb_false_elim in Hk; destruct Hk as (?Q & Hk)).
    unfold getitem.
    rewrite K4, K3, K2, K1 by assumption.
    rewrite HDk; [reflexivity|].
    cbn [existsb dropped_columns]. now rewrite Q3, Q4, Q5, Q6.
Qed.

Lemma cell5_succeeds_without_prediction_columns_witness :
  NoDup (column_names sample_table) /\
  well_formed sample_table /\
  forallb (has_column sample_table) required_columns = true /\
  forallb (fun k => negb (has_column sample_table k)) prediction_columns = true /\
  exists md X,
    cell5 sample_table = Ok (md, X) /\
    index X = index sample_table /\
    length (columns X) = length (columns md).
Proof.
  assert (H1 : forallb (has_column sample_table) required_columns = true)
    by reflexivity.
  assert (H2 : forallb (fun k => negb (has_column sample_table k))
                 prediction_columns = true) by reflexivity.
  split; [exact sample_labels_distinct|].
  split; [exact sample_well_formed|].
  split; [exact H1|]. split; [exact H2|].
  destruct (cell5_succeeds_without_prediction_columns sample_table
              sample_labels_distinct sample_well_formed H1 H2)
    as (md & X & H5 & Hi & Hl & _).
  exists md, X. repeat split; assumption.
Defined.



(** ** More on cell 7 *)

Lemma column_names_setitem_present df k s :
  has_column df k = true -> column_names (setitem df k s) = column_names df.
Proof.
  unfold has_column, column_names, setitem. cbn [columns].
  induction (columns df) as [|[n s0] rest IH]; cbn [lookup assign map fst];
    [discriminate|].
  destruct (String.eqb k n); [reflexivity|].
  intros H. cbn [map fst]. now rewrite IH.
Qed.

Lemma predict_inv m P s :
  predict m P = Ok s ->
  length (coef_ m) = length (columns P) /\ s = predict_rows m P.
Proof.
  unfold predict.
  destruct (length (coef_ m) =? length (columns P))%nat eqn:E; [|discriminate].
  intros [= <-]. split; [now apply Nat.eqb_eq | reflexivity].
Qed.

Lemma mul_columns_inv P coef Q :
  mul_columns P coef = Ok Q ->
  length coef = length (columns P) /\
  Q = mkDataFrame (index P)
        (zip_with (fun c k => (fst c, series_mul_scalar (snd c) k))
           (columns P) coef).
Proof.
  unfold mul_columns.
  destruct (length coef =? length (columns P))%nat eqn:E; [|discriminate].
  intros [= <-]. split; [now apply Nat.eqb_eq | reflexivity].
Qed.

Lemma mul_rows_inv P values Q :
  mul_rows P values = Ok Q ->
  length values = nrows P /\
  Q = mkDataFrame (index P)
        (map (fun c => (fst c, series_mul (snd c) values)) (columns P)).
Proof.
  unfold mul_rows.
  destruct (length values =? nrows P)%nat eqn:E; [|discriminate].
  intros [= <-]. split; [now apply Nat.eqb_eq | reflexivity].
Qed.

Lemma contribution_columns persons cols coef :
  map (fun col => (fst col, series_div_scalar (snd col) (num 52)))
    (map (fun col => (fst col, series_div_scalar (snd col) (num 1000)))
       (map (fun c => (fst c, series_mul (snd c) persons))
          (zip_with (fun c k => (fst c, series_mul_scalar (snd c) k))
             cols coef)))
  = zip_with (contribution persons) cols coef.
Proof.
  rewrite !map_map. revert coef.
  induction cols as [|c cs IH]; intros [|k ks]; cbn [zip_with map];
    try reflexivity.
  f_equal. apply IH.
Qed.

Section CellSeven.

Variable RandomState : Type.
Variable seeded : Z -> RandomState.
Variable permutation : RandomState -> nat -> list nat.
Variable fit : DataFrame -> Series -> LinearRegression.

(** A successful cell 7, whatever the frames: what it read and what it
    wrote. *)
Lemma cell7_models_inv global md X out :
  cell7_models RandomState seeded permutation fit global md X = Ok out ->
  exists persons,
    getitem md "Persons" = Ok persons /\
    length persons = nrows X /\
    length (coef_ (model out)) = length (columns (iloc_from X 9)) /\
    X_pred out = iloc_from X 9 /\
    X_out out
    = setitem
        (setitem
           (setitem
              (setitem X "PredR" (predict_rows (model out) (iloc_from X 9)))
              "PredD"
              (death_count persons
                 (predict_rows (model out) (iloc_from X 9))))
           "PredR_Base"
           (predict_rows (model_base out) (iloc_range (iloc_from X 9) 0 12)))
        "PredD_Base"
        (death_count persons
           (predict_rows (model_base out) (iloc_range (iloc_from X 9) 0 12))) /\
    X_cont out
    = mkDataFrame (index X)
        (zip_with (contribution persons) (columns (iloc_from X 9))
           (coef_ (model out))).
Proof.
  unfold cell7_models. intros H.
  apply bind_inv in H. destruct H as (y & _ & H).
  apply bind_inv in H. destruct H as ([[[Xtr Xte] ytr] yte] & _ & H).
  apply bind_inv in H. destruct H as (predR & HpR & H).
  apply predict_inv in HpR. destruct HpR as (Hcoef & ->).
  apply bind_inv in H. destruct H as (persons & Hpersons & H).
  apply bind_inv in H. destruct H as (predR' & HpR' & H).
  rewrite getitem_setitem_same in HpR'. injection HpR' as <-.
  apply bind_inv in H. destruct H as (C1 & HC1 & H).
  apply mul_columns_inv in HC1. destruct HC1 as (_ & ->).
  apply bind_inv in H. destruct H as (persons' & Hpersons' & H).
  rewrite Hpersons in Hpersons'. injection Hpersons' as <-.
  apply bind_inv in H. destruct H as (C2 & HC2 & H).
  apply mul_rows_inv in HC2. destruct HC2 as (Hlen & ->).
  apply bind_inv in H. destruct H as (predRB & HpRB & H).
  apply predict_inv in HpRB. destruct HpRB as (_ & ->).
  apply bind_inv in H. destruct H as (persons' & Hpersons' & H).
  rewrite Hpersons in Hpersons'. injection Hpersons' as <-.
  apply bind_inv in H. destruct H as (predRB' & HpRB' & H).
  rewrite getitem_setitem_same in HpRB'. injection HpRB' as <-.
  injection H as <-.
  cbn [X_out X_pred X_cont model model_base].
  exists persons. split; [exact Hpersons|].
  split; [exact Hlen|]. split; [exact Hcoef|].
  split; [reflexivity|]. split; [reflexivity|].
  unfold df_div_scalar. cbn [index columns].
  now rewrite contribution_columns.
Qed.

(** X6. Whatever the frames, a successful cell 7 keeps the index of [X],
    leaves every column other than [PredR], [PredD], [PredR_Base] and
    [PredD_Base] as it was, and keeps the order of the columns when [X]
    already has those four; the contribution table it builds has the index
    of [X] and one column per column of [X.iloc[:,9:]], under the same
    labels in the same order. *)
Theorem cell7_writes_only_the_prediction_columns :
  forall global md X out,
    cell7_models RandomState seeded permutation fit global md X = Ok out ->
    index (X_out out) = index X /\
    (forall k, existsb (String.eqb k) prediction_columns = false ->
               getitem (X_out out) k = getitem X k) /\
    (forallb (has_column X) prediction_columns = true ->
     column_names (X_out out) = column_names X) /\
    index (X_cont out) = index X /\
    column_names (X_cont out) = column_names (iloc_from X 9).
Proof.
  intros global md X out H.
  destruct (cell7_models_inv _ _ _ _ H)
    as (persons & _ & _ & Hcoef & _ & HX & HC).
  rewrite HX, HC. split; [reflexivity|]. split.
  - intros k Hk. cbn [existsb prediction_columns] in Hk.
    repeat (apply orb_false_elim in Hk; destruct Hk as (? & Hk)).
    now rewrite !getitem_setitem_other by assumption.
  - split.
    + intros Hhas. cbn [forallb prediction_columns] in Hhas.
      repeat (apply andb_prop in Hhas; destruct Hhas as (?P & Hhas)).
      rewrite !column_names_setitem_present; try reflexivity;
        rewrite ?has_column_setitem_other by reflexivity; assumption.
    + split; [reflexivity|].
      unfold column_names. cbn [columns].
      now apply contribution_names.
Qed.

End CellSeven.

Lemma cell7_writes_only_the_prediction_columns_witness :
  exists out,
    cell7_models Z (fun seed => seed) sample_permutation sample_fit 0%Z
      (extended_table sample_table) (initial_X sample_table) = Ok out /\
    index (X_out out) = index (initial_X sample_table) /\
    getitem (X_out out) "Deaths" = getitem (initial_X sample_table) "Deaths" /\
    column_names (X_out out) = column_names (initial_X sample_table) /\
    column_names (X_cont out) = full_predictors.
Proof.
  destruct (cell7_models_schema Z (fun seed => seed) sample_permutation
              sample_fit sample_fit_shape 0%Z sample_table sample_schema
              sample_well_formed sample_rows)
    as (out & Hrun & _).
  exists out. split; [exact Hrun|].
  destruct (cell7_writes_only_the_prediction_columns Z (fun seed => seed)
              sample_permutation sample_fit 0%Z _ _ out Hrun)
    as (Hidx & Hkeep & Hnames & _ & Hcont).
  split; [exact Hidx|].
  split; [apply Hkeep; reflexivity|].
  split; [apply Hnames; reflexivity|].
  rewrite Hcont. reflexivity.
Defined.

(** ** The order of dates and the keys of a groupby *)

Lemma ts_eqb_eq a b : ts_eqb a b = true <-> a = b.
Proof.
  unfold ts_eqb. destruct a as [ya ma da], b as [yb mb db]. cbn [year month day].
  rewrite !andb_true_iff, !Z.eqb_eq. split.
  - intros [[-> ->] ->]. reflexivity.
  - intros [= -> -> ->]. repeat split.
Qed.

Lemma ts_eqb_refl a : ts_eqb a a = true.
Proof. now apply ts_eqb_eq. Qed.

Lemma ts_eqb_sym a b : ts_eqb a b = ts_eqb b a.
Proof.
  destruct (ts_eqb a b) eqn:E.
  - apply ts_eqb_eq in E. subst. symmetry. apply ts_eqb_refl.
  - destruct (ts_eqb b a) eqn:E'; [|reflexivity].
    apply ts_eqb_eq in E'. subst. now rewrite ts_eqb_refl in E.
Qed.

Lemma ts_ltb_spec a b :
  ts_ltb a b = true <->
  (year a < year b
   \/ (year a = year b
       /\ (month a < month b \/ (month a = month b /\ day a < day b))))%Z.
Proof.
  unfold ts_ltb.
  rewrite orb_true_iff, andb_true_iff, orb_true_iff, andb_true_iff,
    !Z.ltb_lt, !Z.eqb_eq.
  reflexivity.
Qed.

Lemma ts_ltb_trans a b c :
  ts_ltb a b = true -> ts_ltb b c = true -> ts_ltb a c = true.
Proof. rewrite !ts_ltb_spec. lia. Qed.

Lemma ts_ltb_not_eqb a b : ts_ltb a b = true -> ts_eqb a b = false.
Proof.
  intros H. destruct (ts_eqb a b) eqn:E; [|reflexivity].
  apply ts_eqb_eq in E. subst b. apply ts_ltb_spec in H. lia.
Qed.

Lemma ts_ltb_total a b :
  ts_eqb a b = false -> ts_ltb a b = false -> ts_ltb b a = true.
Proof.
  intros He Hl. apply ts_ltb_spec.
  assert (Hne : a <> b) by (intros ->; now rewrite ts_eqb_refl in He).
  assert (Hnl : ~ (year a < year b
                   \/ (year a = year b
                       /\ (month a < month b
                           \/ (month a = month b /\ day a < day b))))%Z).
  { intros H. apply ts_ltb_spec in H. congruence. }
  destruct a as [ya ma da], b as [yb mb db]. cbn [year month day] in *.
  assert (~ (ya = yb /\ ma = mb /\ da = db)) by (intros (-> & -> & ->); tauto).
  lia.
Qed.

Lemma strictly_increasing_tail a keys :
  strictly_increasing (a :: keys) = true -> strictly_increasing keys = true.
Proof.
  destruct keys as [|b keys]; [reflexivity|].
  cbn [strictly_increasing]. intros H. apply andb_prop in H. tauto.
Qed.

Lemma strictly_increasing_head a keys d :
  strictly_increasing (a :: keys) = true -> In d keys -> ts_ltb a d = true.
Proof.
  revert a. induction keys as [|b keys IH]; intros a H Hin; [destruct Hin|].
  cbn [strictly_increasing] in H. apply andb_prop in H. destruct H as (Hab & H).
  destruct Hin as [<-|Hin]; [exact Hab|].
  apply (ts_ltb_trans a b d Hab). now apply IH.
Qed.

Lemma strictly_increasing_cons a keys :
  (forall d, In d keys -> ts_ltb a d = true) ->
  strictly_increasing keys = true ->
  strictly_increasing (a :: keys) = true.
Proof.
  destruct keys as [|b keys]; [reflexivity|].
  intros Hall H. cbn [strictly_increasing].
  rewrite (Hall b) by (now left). exact H.
Qed.

Lemma insert_key_sorted x keys :
  strictly_increasing keys = true ->
  strictly_increasing (insert_key x keys) = true.
Proof.
  induction keys as [|k rest IH]; intros H; [reflexivity|].
  cbn [insert_key].
  destruct (ts_eqb x k) eqn:E; [exact H|].
  destruct (ts_ltb x k) eqn:L.
  - cbn [strictly_increasing]. now rewrite L.
  - pose proof (ts_ltb_total _ _ E L) as Hkx.
    apply strictly_increasing_cons.
    + intros d Hd. apply insert_key_in in Hd. destruct Hd as [->|Hd];
        [exact Hkx | now apply (strictly_increasing_head k rest)].
    + apply IH. now apply strictly_increasing_tail in H.
Qed.

Lemma group_keys_sorted idx : strictly_increasing (group_keys idx) = true.
Proof.
  unfold group_keys. induction idx as [|x idx IH]; [reflexivity|].
  cbn [fold_right]. now apply insert_key_sorted.
Qed.

Lemma insert_key_keeps d x keys : In d keys -> In d (insert_key x keys).
Proof.
  induction keys as [|k rest IH]; [intros []|].
  cbn [insert_key]. intros Hin.
  destruct (ts_eqb x k); [exact Hin|].
  destruct (ts_ltb x k); [now right|].
  destruct Hin as [<-|Hin]; [now left | right; now apply IH].
Qed.

Lemma insert_key_adds x keys : In x (insert_key x keys).
Proof.
  induction keys as [|k rest IH]; [now left|].
  cbn [insert_key].
  destruct (ts_eqb x k) eqn:E.
  - apply ts_eqb_eq in E. subst. now left.
  - destruct (ts_ltb x k); [now left | now right].
Qed.

Lemma group_keys_complete d idx : In d idx -> In d (group_keys idx).
Proof.
  unfold group_keys. induction idx as [|x idx IH]; [intros []|].
  cbn [fold_right]. intros [<-|Hin].
  - apply insert_key_adds.
  - apply insert_key_keeps. now apply IH.
Qed.

Lemma insert_key_below x keys :
  (forall d, In d keys -> ts_ltb x d = true) -> insert_key x keys = x :: keys.
Proof.
  destruct keys as [|k rest]; [reflexivity|].
  intros H. cbn [insert_key].
  pose proof (H k (or_introl eq_refl)) as L.
  now rewrite (ts_ltb_not_eqb _ _ L), L.
Qed.

(** Grouping a frame whose dates already increase strictly finds each date
    as its own group. *)
Lemma group_keys_of_sorted keys :
  strictly_increasing keys = true -> group_keys keys = keys.
Proof.
  unfold group_keys. induction keys as [|a keys IH]; intros H; [reflexivity|].
  cbn [fold_right]. rewrite IH by (now apply strictly_increasing_tail in H).
  apply insert_key_below. intros d Hd.
  now apply (strictly_increasing_head a keys).
Qed.

Lemma select_sorted (p : Timestamp -> bool) keys :
  strictly_increasing keys = true ->
  strictly_increasing (select (map p keys) keys) = true.
Proof.
  induction keys as [|a keys IH]; intros H; [reflexivity|].
  pose proof (strictly_increasing_tail _ _ H) as Ht.
  cbn [map select]. destruct (p a); [|now apply IH].
  apply strictly_increasing_cons; [|now apply IH].
  intros d Hd. apply select_self_in in Hd. destruct Hd as (_ & Hd).
  now apply (strictly_increasing_head a keys).
Qed.

Lemma select_map_filter {A B} (p : A -> bool) (f : A -> B) xs :
  select (map p xs) (map f xs) = map f (filter p xs).
Proof.
  induction xs as [|x xs IH]; [reflexivity|].
  cbn [map select filter]. destruct (p x); cbn [map]; now rewrite IH.
Qed.

Lemma select_self_filter {A} (p : A -> bool) xs :
  select (map p xs) xs = filter p xs.
Proof.
  rewrite <- (map_id xs) at 2. rewrite select_map_filter. apply map_id.
Qed.

(** On strictly increasing dates, the total at a date of the list is the
    value on its row. *)
Lemma group_total_of_sorted {A} keys (f : A -> Qc) (xs : list A) :
  length xs = length keys ->
  strictly_increasing keys = true ->
  map (group_total keys (map f xs)) keys = map f xs.
Proof.
  revert xs. induction keys as [|a keys IH]; intros [|x xs] Hlen H;
    try discriminate Hlen; [reflexivity|].
  injection Hlen as Hlen.
  pose proof (strictly_increasing_tail _ _ H) as Ht.
  cbn [map]. f_equal.
  - unfold group_total. cbn [map select]. rewrite ts_eqb_refl.
    cbn [qsum fold_right].
    assert (Hrest : select (map (ts_eqb a) keys) (map f xs) = []).
    { clear IH Ht. revert xs Hlen.
      assert (Hall : forall d, In d keys -> ts_eqb a d = false).
      { intros d Hd. apply ts_ltb_not_eqb.
        now apply (strictly_increasing_head a keys). }
      clear H. induction keys as [|k keys IHk]; intros [|y ys] Hl;
        try discriminate Hl; [reflexivity|].
      cbn [map select]. rewrite (Hall k) by (now left).
      apply IHk; [intros d Hd; apply Hall; now right | now injection Hl]. }
    unfold qsum in *. rewrite Hrest. cbn [fold_right].
    change (num 0) with 0%Qc. ring.
  - rewrite <- (IH xs Hlen Ht) at 2.
    apply map_ext_in. intros d Hd.
    unfold group_total. cbn [map select].
    assert (E : ts_eqb d a = false).
    { rewrite ts_eqb_sym. apply ts_ltb_not_eqb.
      now apply (strictly_increasing_head a keys). }
    now rewrite E.
Qed.

(** ** The series cell 9 stores *)

Lemma getitem_in_names df k s : getitem df k = Ok s -> In k (column_names df).
Proof. intros H. apply present_in_names. now apply getitem_has_column in H. Qed.

Lemma column_names_winter_frame df :
  column_names (winter_frame df) = column_names df.
Proof.
  unfold winter_frame.
  now rewrite column_names_groupby, column_names_df_select.
Qed.

Lemma dict_get_update_same k v d : dict_get k (dict_update k v d) = Some v.
Proof.
  induction d as [|[n v0] rest IH]; cbn [dict_update dict_get].
  - now rewrite String.eqb_refl.
  - destruct (String.eqb k n) eqn:E; cbn [dict_get]; rewrite E; auto.
Qed.

Lemma dict_get_update_other k k' v d :
  String.eqb k k' = false -> dict_get k (dict_update k' v d) = dict_get k d.
Proof.
  intros Hne. induction d as [|[n v0] rest IH]; cbn [dict_update dict_get].
  - now rewrite Hne.
  - destruct (String.eqb k' n) eqn:E; cbn [dict_get].
    + apply String.eqb_eq in E. subst n. now rewrite Hne.
    + now rewrite IH.
Qed.

(** The columns a successful round of cell 9 found. *)
Lemma cell9_step_age_columns X X_cont i dfd dfd' Xa :
  (i < 3)%nat ->
  cell9_step X X_cont i dfd = Ok dfd' ->
  age_rows X (nth i agelist "") = Ok Xa ->
  Forall (fun k => In k (column_names Xa))
    ["Deaths"; "Persons"; "PredD"; "PredD_Base"] /\
  In ("AF_" ++ nth i agelist "") (column_names X_cont) /\
  In ("VE_" ++ nth i agelist "") (column_names X_cont).
Proof.
  intros Hi H HXa. unfold cell9_step in H.
  apply Nat.ltb_lt in Hi. rewrite Hi, HXa, bind_Ok in H.
  apply bind_inv in H. destruct H as (d1 & Hd1 & H).
  apply bind_inv in H. destruct H as (d2 & Hd2 & H).
  apply bind_inv in H. destruct H as (p1 & Hp1 & H).
  apply bind_inv in H. destruct H as (w1 & Hw1 & H).
  apply bind_inv in H. destruct H as (w2 & Hw2 & H).
  apply bind_inv in H. destruct H as (w3 & Hw3 & H).
  apply bind_inv in H. destruct H as (w4 & Hw4 & H).
  apply bind_inv in H. destruct H as (a1 & Ha1 & H).
  apply bind_inv in H. destruct H as (a2 & Ha2 & H).
  apply bind_inv in H. destruct H as (rates & Hr & H).
  destruct (rate_dict_inv _ _ _ Hr) as (_ & (sp & HP) & _ & _).
  apply getitem_in_names in Hd1, Hp1, Hw2, Ha1, Ha2, HP.
  fold (winter_frame (groupby_index_sum Xa)) in Hw2.
  fold (winter_frame X_cont) in Ha1, Ha2.
  rewrite column_names_winter_frame in Hw2, Ha1, Ha2.
  rewrite column_names_groupby in Hd1, Hp1, Hw2, HP.
  split; [|split; assumption].
  repeat (apply Forall_cons; [assumption|]). apply Forall_nil.
Qed.

Lemma cell9_band_columns X X_cont dfd i Xa :
  cell9 X X_cont = Ok dfd ->
  (i < 3)%nat ->
  age_rows X (nth i agelist "") = Ok Xa ->
  Forall (fun k => In k (column_names Xa))
    ["Deaths"; "Persons"; "PredD"; "PredD_Base"] /\
  In ("AF_" ++ nth i agelist "") (column_names X_cont) /\
  In ("VE_" ++ nth i agelist "") (column_names X_cont).
Proof.
  unfold cell9. cbn [for_each]. intros H Hi HXa.
  apply bind_inv in H. destruct H as (d1 & H0 & H).
  apply bind_inv in H. destruct H as (d2 & H1 & H).
  apply bind_inv in H. destruct H as (d3 & H2 & H).
  destruct i as [|[|[|i]]]; [| | |lia].
  - exact (cell9_step_age_columns _ _ 0%nat _ _ Xa ltac:(lia) H0 HXa).
  - exact (cell9_step_age_columns _ _ 1%nat _ _ Xa ltac:(lia) H1 HXa).
  - exact (cell9_step_age_columns _ _ 2%nat _ _ Xa ltac:(lia) H2 HXa).
Qed.

(** The entries of the six per-band dictionaries in the result. *)
Lemma band_entries_of_result X X_cont Xa0 Xa1 Xa2 i :
  (i < 3)%nat ->
  let dfd := all_ages_step_result X
               (age_step_result X_cont Xa2 2
                  (age_step_result X_cont Xa1 1
                     (age_step_result X_cont Xa0 0 (repeat [] 10)))) in
  let Xa := nth i [Xa0; Xa1; Xa2] Xa0 in
  let age := nth i agelist "" in
  let desc := nth i agedesc "" in
  let G := groupby_index_sum Xa in
  let W := winter_frame G in
  let C := winter_frame X_cont in
  dict_get ("Actual - Age " ++ desc) (nth 0 dfd [])
  = Some (index G, column G "Deaths") /\
  dict_get ("Unexplained - Age " ++ desc) (nth 1 dfd [])
  = Some (index G, series_sub (column G "Deaths") (column G "PredD")) /\
  dict_get ("Actual - Age " ++ desc) (nth 2 dfd [])
  = Some (index W, series_sub (column W "Deaths") (column W "PredD_Base")) /\
  dict_get ("Unexplained - Age " ++ desc) (nth 3 dfd [])
  = Some (index W, series_sub (column W "Deaths") (column W "PredD")) /\
  dict_get ("Contribution - AF " ++ desc) (nth 4 dfd [])
  = Some (index C, column C ("AF_" ++ age)) /\
  dict_get ("Contribution - VE " ++ desc) (nth 5 dfd [])
  = Some (index C, column C ("VE_" ++ age)).
Proof.
  intros Hi.
  destruct i as [|[|[|i]]]; [| | |lia];
    unfold all_ages_step_result, age_step_result, dfd_update;
    cbn [repeat list_set nth Nat.add agelist agedesc append];
    repeat split;
    rewrite ?dict_get_update_other by reflexivity;
    apply dict_get_update_same.
Qed.

Lemma index_groupby df : index (groupby_index_sum df) = group_keys (index df).
Proof. reflexivity. Qed.

(** The second groupby of the winter view changes nothing: filtering the
    grouped frame to February and grouping again keeps the February dates
    and the totals they had. *)
Lemma winter_frame_of_groupby Xa k :
  In k (column_names Xa) ->
  index (winter_frame (groupby_index_sum Xa))
  = filter is_winter (group_keys (index Xa)) /\
  column (winter_frame (groupby_index_sum Xa)) k
  = map (group_total (index Xa) (column Xa k))
      (filter is_winter (group_keys (index Xa))).
Proof.
  intros Hin.
  set (keys := group_keys (index Xa)).
  assert (Hsorted : strictly_increasing keys = true) by apply group_keys_sorted.
  assert (Hsel : index (df_select (groupby_index_sum Xa)
                          (month_is (groupby_index_sum Xa) 2))
                 = filter is_winter keys).
  { unfold df_select, month_is. cbn [index]. rewrite index_groupby. fold keys.
    change (fun d : Timestamp => (month d =? 2)%Z) with is_winter.
    apply select_self_filter. }
  assert (Hwsorted : strictly_increasing (filter is_winter keys) = true).
  { rewrite <- select_self_filter. now apply select_sorted. }
  split.
  - unfold winter_frame. rewrite index_groupby, Hsel.
    now apply group_keys_of_sorted.
  - unfold winter_frame.
    rewrite column_groupby
      by (now rewrite column_names_df_select, column_names_groupby).
    rewrite Hsel, group_keys_of_sorted by exact Hwsorted.
    rewrite column_df_select by (now rewrite column_names_groupby).
    rewrite column_groupby by exact Hin. fold keys.
    unfold month_is. rewrite index_groupby. fold keys.
    change (fun d : Timestamp => (month d =? 2)%Z) with is_winter.
    rewrite select_map_filter.
    apply group_total_of_sorted; [reflexivity | exact Hwsorted].
Qed.

Lemma series_sub_map {A} (f g : A -> Qc) keys :
  series_sub (map f keys) (map g keys) = map (fun d => (f d - g d)%Qc) keys.
Proof. unfold series_sub. apply zip_with_map. Qed.

(** X8. In every successful run of cell 9 and for each age band, the
    series of [dfd[0]] holds, for each distinct date of the band's rows in
    increasing order, the total of [Deaths] over the band's rows of that
    date, and the series of [dfd[1]] holds that total minus the total of
    [PredD] over the same rows. *)
Theorem deaths_and_unexplained_deaths_by_date :
  forall X X_cont dfd i,
    cell9 X X_cont = Ok dfd ->
    (i < 3)%nat ->
    exists Xa,
      age_rows X (nth i agelist "") = Ok Xa /\
      let keys := group_keys (index Xa) in
      let total k d := group_total (index Xa) (column Xa k) d in
      strictly_increasing keys = true /\
      (forall d, In d keys <-> In d (index Xa)) /\
      dict_get ("Actual - Age " ++ nth i agedesc "") (nth 0 dfd [])
      = Some (keys, map (total "Deaths") keys) /\
      dict_get ("Unexplained - Age " ++ nth i agedesc "") (nth 1 dfd [])
      = Some (keys,
              map (fun d => (total "Deaths" d - total "PredD" d)%Qc) keys).
Proof.
  intros X X_cont dfd i Hrun Hi.
  destruct (cell9_inv X X_cont dfd Hrun)
    as (Xa0 & Xa1 & Xa2 & E0 & E1 & E2 & _ & Hdfd).
  set (Xa := nth i [Xa0; Xa1; Xa2] Xa0).
  assert (HXa : age_rows X (nth i agelist "") = Ok Xa).
  { subst Xa. destruct i as [|[|[|i]]]; [| | |lia]; assumption. }
  destruct (cell9_band_columns X X_cont dfd i Xa Hrun Hi HXa) as (Hcols & _).
  rewrite Forall_forall in Hcols.
  assert (HD : In "Deaths" (column_names Xa)) by (apply Hcols; cbn; tauto).
  assert (HP : In "PredD" (column_names Xa)) by (apply Hcols; cbn; tauto).
  destruct (band_entries_of_result X X_cont Xa0 Xa1 Xa2 i Hi)
    as (A0 & A1 & _).
  cbv zeta in A0, A1. fold Xa in A0, A1. rewrite <- Hdfd in A0, A1.
  exists Xa. split; [exact HXa|]. cbv zeta.
  split; [apply group_keys_sorted|].
  split; [intros d; split; [apply group_keys_in | apply group_keys_complete]|].
  rewrite A0, A1, index_groupby, !column_groupby by assumption.
  split; [reflexivity|].
  now rewrite series_sub_map.
Qed.

Lemma deaths_and_unexplained_deaths_by_date_witness :
  cell9 (fst sample_frames) (snd sample_frames) = Ok sample_dfd /\
  (0 < 3)%nat /\
  exists Xa,
    age_rows (fst sample_frames) "65" = Ok Xa /\
    dict_get "Actual - Age 65-74" (nth 0 sample_dfd [])
    = Some (group_keys (index Xa),
            map (fun d => group_total (index Xa) (column Xa "Deaths") d)
              (group_keys (index Xa))).
Proof.
  split; [exact sample_cell9|]. split; [lia|].
  destruct (deaths_and_unexplained_deaths_by_date
              (fst sample_frames) (snd sample_frames) sample_dfd 0%nat
              sample_cell9 ltac:(lia))
    as (Xa & HXa & _ & _ & Hact & _).
  exists Xa. split; [exact HXa | exact Hact].
Defined.

(** X9. In every successful run of cell 9 and for each age band, the two
    winter-quarter series ([dfd[2]], [dfd[3]]) are keyed by the February
    dates of the band, in increasing order, and hold at each of them the
    total of [Deaths] over the band's rows of that date minus the total of
    [PredD_Base], respectively of [PredD], over the same rows: grouping the
    filtered frame a second time leaves the totals as they were. *)
Theorem winter_excess_deaths_by_date :
  forall X X_cont dfd i,
    cell9 X X_cont = Ok dfd ->
    (i < 3)%nat ->
    exists Xa,
      age_rows X (nth i agelist "") = Ok Xa /\
      let winter_keys := filter is_winter (group_keys (index Xa)) in
      let total k d := group_total (index Xa) (column Xa k) d in
      dict_get ("Actual - Age " ++ nth i agedesc "") (nth 2 dfd [])
      = Some (winter_keys,
              map (fun d => (total "Deaths" d - total "PredD_Base" d)%Qc)
                winter_keys) /\
      dict_get ("Unexplained - Age " ++ nth i agedesc "") (nth 3 dfd [])
      = Some (winter_keys,
              map (fun d => (total "Deaths" d - total "PredD" d)%Qc)
                winter_keys).
Proof.
  intros X X_cont dfd i Hrun Hi.
  destruct (cell9_inv X X_cont dfd Hrun)
    as (Xa0 & Xa1 & Xa2 & E0 & E1 & E2 & _ & Hdfd).
  set (Xa := nth i [Xa0; Xa1; Xa2] Xa0).
  assert (HXa : age_rows X (nth i agelist "") = Ok Xa).
  { subst Xa. destruct i as [|[|[|i]]]; [| | |lia]; assumption. }
  destruct (cell9_band_columns X X_cont dfd i Xa Hrun Hi HXa) as (Hcols & _).
  rewrite Forall_forall in Hcols.
  assert (HD : In "Deaths" (column_names Xa)) by (apply Hcols; cbn; tauto).
  assert (HP : In "PredD" (column_names Xa)) by (apply Hcols; cbn; tauto).
  assert (HB : In "PredD_Base" (column_names Xa)) by (apply Hcols; cbn; tauto).
  destruct (band_entries_of_result X X_cont Xa0 Xa1 Xa2 i Hi)
    as (_ & _ & A2 & A3 & _).
  cbv zeta in A2, A3. fold Xa in A2, A3. rewrite <- Hdfd in A2, A3.
  exists Xa. split; [exact HXa|]. cbv zeta.
  destruct (winter_frame_of_groupby Xa "Deaths" HD) as (Hidx & HcD).
  destruct (winter_frame_of_groupby Xa "PredD" HP) as (_ & HcP).
  destruct (winter_frame_of_groupby Xa "PredD_Base" HB) as (_ & HcB).
  rewrite A2, A3, Hidx, HcD, HcP, HcB, !series_sub_map.
  split; reflexivity.
Qed.

Lemma winter_excess_deaths_by_date_witness :
  cell9 (fst sample_frames) (snd sample_frames) = Ok sample_dfd /\
  (0 < 3)%nat /\
  exists Xa,
    age_rows (fst sample_frames) "65" = Ok Xa /\
    dict_get "Actual - Age 65-74" (nth 2 sample_dfd [])
    = Some (filter is_winter (group_keys (index Xa)),
            map (fun d =>
                   (group_total (index Xa) (column Xa "Deaths") d
                    - group_total (index Xa) (column Xa "PredD_Base") d)%Qc)
              (filter is_winter (group_keys (index Xa)))).
Proof.
  split; [exact sample_cell9|]. split; [lia|].
  destruct (winter_excess_deaths_by_date
              (fst sample_frames) (snd sample_frames) sample_dfd 0%nat
              sample_cell9 ltac:(lia))
    as (Xa & HXa & Hact & _).
  exists Xa. split; [exact HXa | exact Hact].
Defined.

Lemma filter_insert_key (p : Timestamp -> bool) a keys :
  strictly_increasing keys = true ->
  filter p (insert_key a keys)
  = if p a then insert_key a (filter p keys) else filter p keys.
Proof.
  induction keys as [|k rest IH]; intros Hs.
  - cbn [insert_key filter]. now destruct (p a).
  - pose proof (strictly_increasing_tail _ _ Hs) as Ht.
    cbn [insert_key].
    destruct (ts_eqb a k) eqn:E.
    + apply ts_eqb_eq in E. subst k. cbn [filter].
      destruct (p a) eqn:Pa; [|reflexivity].
      cbn [insert_key]. now rewrite ts_eqb_refl.
    + destruct (ts_ltb a k) eqn:L.
      * cbn [filter]. destruct (p a) eqn:Pa; [|reflexivity].
        symmetry. apply insert_key_below.
        intros d Hd. change (In d (filter p (k :: rest))) in Hd.
        apply filter_In in Hd. destruct Hd as ([<-|Hd] & _); [exact L|].
        apply (ts_ltb_trans a k d L).
        now apply (strictly_increasing_head k rest).
      * cbn [filter]. rewrite (IH Ht).
        destruct (p a) eqn:Pa, (p k) eqn:Pk; try reflexivity.
        cbn [insert_key]. now rewrite E, L.
Qed.

Lemma group_keys_filter (p : Timestamp -> bool) idx :
  group_keys (filter p idx) = filter p (group_keys idx).
Proof.
  induction idx as [|a idx IH]; [reflexivity|].
  change (group_keys (a :: idx)) with (insert_key a (group_keys idx)).
  rewrite filter_insert_key by apply group_keys_sorted.
  cbn [filter]. destruct (p a); [|exact IH].
  change (group_keys (a :: filter p idx))
    with (insert_key a (group_keys (filter p idx))).
  now rewrite IH.
Qed.

(** The winter view of any frame: its February dates, and for each of them
    the total of a column over all rows of that date. *)
Lemma winter_frame_totals df k :
  In k (column_names df) ->
  length (column df k) = nrows df ->
  index (winter_frame df) = filter is_winter (group_keys (index df)) /\
  column (winter_frame df) k
  = map (group_total (index df) (column df k))
      (filter is_winter (group_keys (index df))).
Proof.
  intros Hin Hlen.
  assert (Hidx : index (winter_frame df)
                 = filter is_winter (group_keys (index df))).
  { unfold winter_frame. rewrite index_groupby.
    unfold df_select, month_is. cbn [index].
    change (fun d : Timestamp => (month d =? 2)%Z) with is_winter.
    now rewrite select_self_filter, group_keys_filter. }
  split; [exact Hidx|].
  rewrite <- Hidx. unfold winter_frame at 1.
  rewrite column_groupby by (now rewrite column_names_df_select).
  rewrite column_df_select by exact Hin.
  change (group_keys (index (df_select df (month_is df 2))))
    with (index (winter_frame df)).
  apply map_ext_in. intros d Hd.
  apply winter_frame_index in Hd. destruct Hd as (Hd & _).
  unfold df_select, month_is. cbn [index].
  now apply group_total_winter.
Qed.

(** X10. In every successful run of cell 9 on a contribution table whose
    columns have one value per row, the two contribution series of an age
    band [a] ([dfd[4]], [dfd[5]]) are keyed by the February dates of the
    contribution table, in increasing order, and hold at each of them the
    total of column [AF_a], respectively [VE_a], over all rows of the table
    with that date, of whatever band and sex. *)
Theorem winter_contributions_by_date :
  forall X X_cont dfd i,
    cell9 X X_cont = Ok dfd ->
    (i < 3)%nat ->
    well_formed X_cont ->
    let winter_keys := filter is_winter (group_keys (index X_cont)) in
    let total k d := group_total (index X_cont) (column X_cont k) d in
    dict_get ("Contribution - AF " ++ nth i agedesc "") (nth 4 dfd [])
    = Some (winter_keys, map (total ("AF_" ++ nth i agelist "")) winter_keys) /\
    dict_get ("Contribution - VE " ++ nth i agedesc "") (nth 5 dfd [])
    = Some (winter_keys, map (total ("VE_" ++ nth i agelist "")) winter_keys).
Proof.
  intros X X_cont dfd i Hrun Hi Hwf winter_keys total.
  destruct (cell9_inv X X_cont dfd Hrun)
    as (Xa0 & Xa1 & Xa2 & E0 & E1 & E2 & _ & Hdfd).
  set (Xa := nth i [Xa0; Xa1; Xa2] Xa0).
  assert (HXa : age_rows X (nth i agelist "") = Ok Xa).
  { subst Xa. destruct i as [|[|[|i]]]; [| | |lia]; assumption. }
  destruct (cell9_band_columns X X_cont dfd i Xa Hrun Hi HXa)
    as (_ & HAF & HVE).
  destruct (band_entries_of_result X X_cont Xa0 Xa1 Xa2 i Hi)
    as (_ & _ & _ & _ & A4 & A5).
  cbv zeta in A4, A5. rewrite <- Hdfd in A4, A5.
  destruct (winter_frame_totals X_cont _ HAF (column_length _ _ Hwf HAF))
    as (Hidx & HcA).
  destruct (winter_frame_totals X_cont _ HVE (column_length _ _ Hwf HVE))
    as (_ & HcV).
  rewrite A4, A5, Hidx, HcA, HcV. split; reflexivity.
Qed.

Lemma sample_contributions_well_formed : well_formed (snd sample_frames).
Proof.
  unfold well_formed. vm_compute.
  repeat (apply Forall_cons; [reflexivity|]). apply Forall_nil.
Qed.

Lemma winter_contributions_by_date_witness :
  cell9 (fst sample_frames) (snd sample_frames) = Ok sample_dfd /\
  (2 < 3)%nat /\
  well_formed (snd sample_frames) /\
  dict_get "Contribution - AF 85+  " (nth 4 sample_dfd [])
  = Some (filter is_winter (group_keys (index (snd sample_frames))),
          map (fun d =>
                 group_total (index (snd sample_frames))
                   (column (snd sample_frames) "AF_85") d)
            (filter is_winter (group_keys (index (snd sample_frames))))).
Proof.
  split; [exact sample_cell9|]. split; [lia|].
  split; [exact sample_contributions_well_formed|].
  exact (proj1 (winter_contributions_by_date
                  (fst sample_frames) (snd sample_frames) sample_dfd 2%nat
                  sample_cell9 ltac:(lia) sample_contributions_well_formed)).
Defined.

(** X11. In every successful run of cell 9, the pair of series stored last,
    under the label "All - Test data only", is computed from every row of
    [X]: no age filter is applied and cell 9 never sees the split. At each
    distinct date of [X] the actual rate is the total of [Deaths] over all
    rows of the date divided by the total of [Persons], times 1000, times
    52, and the predicted rate is the same with [PredD] for [Deaths]. *)
Theorem all_ages_rates_use_every_row :
  forall X X_cont dfd,
    cell9 X X_cont = Ok dfd ->
    let keys := group_keys (index X) in
    let total k d := group_total (index X) (column X k) d in
    dict_get "Actual - Age All - Test data only" (nth 9 dfd [])
    = Some (keys,
            map (fun d =>
                   (total "Deaths" d / total "Persons" d
                    * num 1000 * num 52)%Qc) keys) /\
    dict_get "Predicted - Age All - Test data only" (nth 9 dfd [])
    = Some (keys,
            map (fun d =>
                   (total "PredD" d / total "Persons" d
                    * num 1000 * num 52)%Qc) keys).
Proof.
  intros X X_cont dfd Hrun keys total.
  assert (Hcols : In "Deaths" (column_names X)
                  /\ In "Persons" (column_names X)
                  /\ In "PredD" (column_names X)).
  { unfold cell9 in Hrun. cbn [for_each] in Hrun.
    apply bind_inv in Hrun. destruct Hrun as (d1 & _ & Hrun).
    apply bind_inv in Hrun. destruct Hrun as (d2 & _ & Hrun).
    apply bind_inv in Hrun. destruct Hrun as (d3 & _ & Hrun).
    apply bind_inv in Hrun. destruct Hrun as (d4 & H3 & _).
    apply cell9_step_all in H3.
    destruct H3 as ((s1 & H1) & (s2 & H2) & (s3 & H3) & _).
    apply getitem_in_names in H1, H2, H3.
    rewrite column_names_groupby in H1, H2, H3. tauto. }
  destruct Hcols as (HD & HP & HPD).
  destruct (cell9_inv X X_cont dfd Hrun)
    as (Xa0 & Xa1 & Xa2 & _ & _ & _ & _ & ->).
  unfold all_ages_step_result.
  set (rest := age_step_result X_cont Xa2 2 _).
  assert (Hlen : length rest = 10%nat).
  { subst rest. unfold age_step_result, dfd_update.
    cbn [repeat list_set nth Nat.add length]. reflexivity. }
  do 10 (destruct rest as [|? rest]; [discriminate Hlen|]).
  cbn [list_set nth agedesc dict_get append].
  rewrite !index_groupby, !column_groupby by assumption. fold keys.
  rewrite !annual_rate_map.
  split; reflexivity.
Qed.

(** ** Rates as weighted means *)

Lemma insert_inv df loc k c df' :
  insert df loc k c = Ok df' ->
  index df' = index df /\
  (forall k', String.eqb k' k = false ->
              lookup k' (columns df') = lookup k' (columns df)).
Proof.
  unfold insert.
  destruct (lookup k (columns df)); [discriminate|].
  destruct (length (columns df) <? loc)%nat; [discriminate|].
  intros [= <-]. cbn [index columns]. split; [reflexivity|].
  intros k' Hne. now apply lookup_inserted_other.
Qed.

Lemma drop_inv md D :
  drop md dropped_columns = Ok D ->
  index D = index md /\
  (forall k, existsb (String.eqb k) dropped_columns = false ->
             lookup k (columns D) = lookup k (columns md)).
Proof.
  intros H.
  assert (Hall : forallb (has_column md) dropped_columns = true).
  { unfold drop, dropped_columns in H. cbn [for_each] in H.
    unfold dropped_columns. cbn [forallb]. unfold has_column.
    destruct (lookup "VE" (columns md)); [|discriminate H].
    rewrite bind_Ok in H. cbn [columns index] in H.
    rewrite lookup_remove_other in H by reflexivity.
    destruct (lookup "Year" (columns md)); [|discriminate H].
    rewrite bind_Ok in H. cbn [columns index] in H.
    rewrite !lookup_remove_other in H by reflexivity.
    destruct (lookup "Winter" (columns md)); [|discriminate H].
    rewrite bind_Ok in H. cbn [columns index] in H.
    rewrite !lookup_remove_other in H by reflexivity.
    destruct (lookup "AF" (columns md)); [|discriminate H].
    reflexivity. }
  destruct (drop_spec md Hall) as (D' & HD' & Hi & _ & Hk).
  rewrite H in HD'. injection HD' as <-. split; assumption.
Qed.

Lemma make_X_inv md X :
  make_X md = Ok X ->
  index X = index md /\
  (forall k,
      existsb (String.eqb k) (prediction_columns ++ dropped_columns) = false ->
      lookup k (columns X) = lookup k (columns md)).
Proof.
  unfold make_X. fold dropped_columns. intros H.
  apply bind_inv in H. destruct H as (D & HD & H).
  apply bind_inv in H. destruct H as (X1 & H1 & H).
  apply bind_inv in H. destruct H as (X2 & H2 & H).
  apply bind_inv in H. destruct H as (X3 & H3 & H).
  apply drop_inv in HD. destruct HD as (ID & KD).
  apply insert_inv in H1, H2, H3, H.
  destruct H1 as (I1 & K1), H2 as (I2 & K2), H3 as (I3 & K3), H as (I4 & K4).
  split; [now rewrite I4, I3, I2, I1, ID|].
  intros k Hk. unfold prediction_columns, dropped_columns in Hk.
  cbn [existsb app] in Hk.
  repeat (apply orb_false_elim in Hk; destruct Hk as (?Q & Hk)).
  rewrite K4, K3, K2, K1 by assumption.
  apply KD. cbn [existsb dropped_columns]. now rewrite Q3, Q4, Q5, Q6.
Qed.

Lemma select_zip_with {A B C} (f : A -> B -> C) mask xs ys :
  length xs = length ys ->
  select mask (zip_with f xs ys) = zip_with f (select mask xs) (select mask ys).
Proof.
  revert xs ys. induction mask as [|b mask IH]; intros [|x xs] [|y ys] H;
    try discriminate H; cbn [select zip_with]; try reflexivity.
  injection H as H. destruct b; cbn [zip_with]; now rewrite IH.
Qed.

Lemma select_map {A B} (f : A -> B) mask xs :
  select mask (map f xs) = map f (select mask xs).
Proof.
  revert xs. induction mask as [|b mask IH]; intros [|x xs];
    cbn [select map]; try reflexivity.
  destruct b; cbn [map]; now rewrite IH.
Qed.

Lemma select_death_count mask persons rate :
  length persons = length rate ->
  select mask (death_count persons rate)
  = death_count (select mask persons) (select mask rate).
Proof.
  intros H. unfold death_count, series_div_scalar, series_mul.
  now rewrite !select_map, select_zip_with.
Qed.

Lemma group_total_scale idx s (c : Qc) d :
  group_total idx (map (fun x => (x * c)%Qc) s) d
  = (group_total idx s d * c)%Qc.
Proof. unfold group_total. now rewrite select_map, qsum_scale. Qed.

Lemma group_total_death_count idx persons rate d :
  group_total idx (death_count persons rate) d
  = (group_total idx (series_mul persons rate) d / num 1000 / num 52)%Qc.
Proof.
  unfold death_count, series_div_scalar, Qcdiv.
  now rewrite !group_total_scale.
Qed.

Lemma num_1000_nonzero : num 1000 <> 0%Qc.
Proof. intros H. apply (f_equal this) in H. discriminate H. Qed.

Lemma num_52_nonzero : num 52 <> 0%Qc.
Proof. intros H. apply (f_equal this) in H. discriminate H. Qed.

(** Undoing the weekly scaling: a count per 1000 and 52, divided by a
    population and scaled back, is the plain quotient. *)
Lemma rate_of_scaled_count (t p : Qc) :
  (t / num 1000 / num 52 / p * num 1000 * num 52 = t / p)%Qc.
Proof.
  unfold Qcdiv.
  transitivity (t * / p * (/ num 1000 * num 1000) * (/ num 52 * num 52))%Qc;
    [ring|].
  rewrite !Qcmult_inv_l by (apply num_1000_nonzero || apply num_52_nonzero).
  ring.
Qed.

Lemma age_rows_inv X age Xa :
  age_rows X age = Ok Xa -> exists mask, Xa = df_select X mask.
Proof.
  unfold age_rows. intros H.
  apply bind_inv in H. destruct H as (mask & _ & H).
  injection H as <-. now exists mask.
Qed.

Lemma predicted_entry_of_result X X_cont Xa0 Xa1 Xa2 i :
  (i < 3)%nat ->
  let dfd := all_ages_step_result X
               (age_step_result X_cont Xa2 2
                  (age_step_result X_cont Xa1 1
                     (age_step_result X_cont Xa0 0 (repeat [] 10)))) in
  let Xa := nth i [Xa0; Xa1; Xa2] Xa0 in
  let G := groupby_index_sum Xa in
  dict_get ("Predicted - Age " ++ nth i agedesc "") (nth (i + 6) dfd [])
  = Some (index G, annual_rate (column G "PredD") (column G "Persons")).
Proof.
  intros Hi.
  destruct i as [|[|[|i]]]; [| | |lia];
    unfold all_ages_step_result, age_step_result, dfd_update;
    cbn [repeat list_set nth Nat.add];
    reflexivity.
Qed.


Lemma all_ages_rates_use_every_row_witness :
  cell9 (fst sample_frames) (snd sample_frames) = Ok sample_dfd /\
  dict_get "Actual - Age All - Test data only" (nth 9 sample_dfd [])
  = Some (group_keys (index (fst sample_frames)),
          map (fun d =>
                 (group_total (index (fst sample_frames))
                    (column (fst sample_frames) "Deaths") d
                  / group_total (index (fst sample_frames))
                      (column (fst sample_frames) "Persons") d
                  * num 1000 * num 52)%Qc)
            (group_keys (index (fst sample_frames)))).
Proof.
  split; [exact sample_cell9|].
  exact (proj1 (all_ages_rates_use_every_row
                  (fst sample_frames) (snd sample_frames) sample_dfd
                  sample_cell9)).
Defined.

Section WeightedMean.

Variable RandomState : Type.
Variable seeded : Z -> RandomState.
Variable permutation : RandomState -> nat -> list nat.
Variable fit : DataFrame -> Series -> LinearRegression.
Variable cross_val_score : DataFrame -> Series -> nat -> Result (list Qc).

(** The three columns of the final table the rate of a band is made of:
    [PredD] is [Persons * PredR / 1000 / 52] with the [Persons] column of the
    table itself, and the three have one value per row. *)
Lemma notebook_prediction_columns global mydata out printed dfd :
  notebook RandomState seeded permutation fit cross_val_score global mydata
  = Ok (out, printed, dfd) ->
  cell9 (X_out out) (X_cont out) = Ok dfd /\
  Forall (fun k => In k (column_names (X_out out)))
    ["Persons"; "PredR"; "PredD"] /\
  length (column (X_out out) "Persons") = length (column (X_out out) "PredR") /\
  column (X_out out) "PredD"
  = death_count (column (X_out out) "Persons") (column (X_out out) "PredR").
Proof.
  unfold notebook. intros H.
  apply bind_inv in H. destruct H as ([md X] & H5 & H).
  apply bind_inv in H. destruct H as ([out' printed'] & H7 & H).
  apply bind_inv in H. destruct H as (dfd' & H9 & H).
  injection H as <- <- <-.
  split; [exact H9|].
  unfold cell5 in H5.
  apply bind_inv in H5. destruct H5 as (md' & _ & H5).
  apply bind_inv in H5. destruct H5 as (X' & HX & H5).
  injection H5 as <- <-.
  unfold cell7 in H7.
  apply bind_inv in H7. destruct H7 as (out'' & Hm & H7).
  apply bind_inv in H7. destruct H7 as (pr & _ & H7).
  injection H7 as <- <-.
  destruct (cell7_models_inv RandomState seeded permutation fit _ _ _ _ Hm)
    as (persons & Hpersons & Hlen & _ & _ & Hout & _).
  destruct (make_X_inv _ _ HX) as (_ & Hkeep).
  assert (HXp : getitem X' "Persons" = Ok persons).
  { unfold getitem in *. rewrite (Hkeep "Persons") by reflexivity.
    exact Hpersons. }
  set (predR := predict_rows (model out'') (iloc_from X' 9)) in *.
  assert (GP : getitem (X_out out'') "Persons" = Ok persons).
  { rewrite Hout. rewrite !getitem_setitem_other by reflexivity. exact HXp. }
  assert (GR : getitem (X_out out'') "PredR" = Ok predR).
  { rewrite Hout. rewrite !getitem_setitem_other by reflexivity.
    apply getitem_setitem_same. }
  assert (GD : getitem (X_out out'') "PredD" = Ok (death_count persons predR)).
  { rewrite Hout. rewrite !getitem_setitem_other by reflexivity.
    apply getitem_setitem_same. }
  assert (CP : column (X_out out'') "Persons" = persons).
  { pose proof (getitem_column _ _ (getitem_in_names _ _ _ GP)) as E.
    rewrite GP in E. now injection E. }
  assert (CR : column (X_out out'') "PredR" = predR).
  { pose proof (getitem_column _ _ (getitem_in_names _ _ _ GR)) as E.
    rewrite GR in E. now injection E. }
  assert (CD : column (X_out out'') "PredD" = death_count persons predR).
  { pose proof (getitem_column _ _ (getitem_in_names _ _ _ GD)) as E.
    rewrite GD in E. now injection E. }
  split.
  { repeat (apply Forall_cons; [eapply getitem_in_names; eassumption|]).
    apply Forall_nil. }
  rewrite CP, CR, CD. split; [|reflexivity].
  rewrite Hlen. subst predR. now rewrite predict_rows_length.
Qed.

(** X12. In every successful run of the notebook and for each age band, the
    predicted rate series cell 9 stores for the band holds, at each distinct
    date of the band's rows, the mean of the model's predicted rate [PredR]
    over the band's rows of that date weighted by their [Persons]: the
    division by 1000 and by 52 that cell 7 applies to obtain [PredD] and the
    multiplication by 1000 and by 52 of cell 9 cancel (numbers as exact
    rationals). *)
Theorem predicted_band_rate_is_population_weighted_mean :
  forall global mydata out printed dfd i,
    notebook RandomState seeded permutation fit cross_val_score global mydata
    = Ok (out, printed, dfd) ->
    (i < 3)%nat ->
    exists Xa,
      age_rows (X_out out) (nth i agelist "") = Ok Xa /\
      let persons := column Xa "Persons" in
      let predR := column Xa "PredR" in
      dict_get ("Predicted - Age " ++ nth i agedesc "") (nth (i + 6) dfd [])
      = Some (group_keys (index Xa),
              map (fun d =>
                     (group_total (index Xa) (series_mul persons predR) d
                      / group_total (index Xa) persons d)%Qc)
                (group_keys (index Xa))).
Proof.
  intros global mydata out printed dfd i Hrun Hi.
  destruct (notebook_prediction_columns _ _ _ _ _ Hrun)
    as (H9 & Hnames & Hlen & HD).
  inversion Hnames as [|? ? NP Hn1]; subst.
  inversion Hn1 as [|? ? NR Hn2]; subst.
  inversion Hn2 as [|? ? ND _]; subst.
  destruct (cell9_inv _ _ _ H9)
    as (Xa0 & Xa1 & Xa2 & E0 & E1 & E2 & _ & Hdfd).
  set (Xa := nth i [Xa0; Xa1; Xa2] Xa0).
  assert (HXa : age_rows (X_out out) (nth i agelist "") = Ok Xa).
  { subst Xa. destruct i as [|[|[|i]]]; [exact E0|exact E1|exact E2|lia]. }
  exists Xa. split; [exact HXa|].
  intros persons predR.
  pose proof (predicted_entry_of_result (X_out out) (X_cont out)
                Xa0 Xa1 Xa2 i Hi) as Hentry.
  cbv zeta in Hentry. rewrite <- Hdfd in Hentry. fold Xa in Hentry.
  rewrite Hentry. rewrite index_groupby.
  destruct (age_rows_inv _ _ _ HXa) as (mask & HXm).
  assert (NPa : In "Persons" (column_names Xa))
    by (rewrite HXm, column_names_df_select; exact NP).
  assert (NDa : In "PredD" (column_names Xa))
    by (rewrite HXm, column_names_df_select; exact ND).
  rewrite !column_groupby by assumption.
  rewrite annual_rate_map.
  assert (HDa : column Xa "PredD" = death_count persons predR).
  { subst persons predR. rewrite HXm.
    rewrite !column_df_select by assumption.
    rewrite HD. now apply select_death_count. }
  rewrite HDa. f_equal. f_equal. apply map_ext. intros d.
  rewrite group_total_death_count. apply rate_of_scaled_count.
Qed.

End WeightedMean.


Lemma sample_notebook :
  exists out printed dfd,
    notebook Z (fun seed => seed) sample_permutation sample_fit
      sample_cross_val_score 0%Z sample_table
    = Ok (out, printed, dfd).
Proof. eexists _, _, _. vm_compute. reflexivity. Qed.

Lemma predicted_band_rate_is_population_weighted_mean_witness :
  exists out printed dfd Xa,
    notebook Z (fun seed => seed) sample_permutation sample_fit
      sample_cross_val_score 0%Z sample_table
    = Ok (out, printed, dfd) /\
    (0 < 3)%nat /\
    age_rows (X_out out) "65" = Ok Xa /\
    dict_get "Predicted - Age 65-74" (nth 6 dfd [])
    = Some (group_keys (index Xa),
            map (fun d =>
                   (group_total (index Xa)
                      (series_mul (column Xa "Persons") (column Xa "PredR")) d
                    / group_total (index Xa) (column Xa "Persons") d)%Qc)
              (group_keys (index Xa))).
Proof.
  destruct sample_notebook as (out & printed & dfd & Hrun).
  destruct (predicted_band_rate_is_population_weighted_mean Z
              (fun seed => seed) sample_permutation sample_fit
              sample_cross_val_score 0%Z sample_table out printed dfd
              0%nat Hrun ltac:(lia))
    as (Xa & HXa & Hentry).
  exists out, printed, dfd, Xa.
  split; [exact Hrun|]. split; [lia|]. split; [exact HXa | exact Hentry].
Defined.

(** ** When cell 9 succeeds *)

Lemma age_rows_ok X age :
  In ("Age=M" ++ age)%string (column_names X) ->
  In ("Age=F" ++ age)%string (column_names X) ->
  exists mask, age_rows X age = Ok (df_select X mask).
Proof.
  intros HM HF. unfold age_rows, age_mask.
  rewrite (getitem_column _ _ HM), bind_Ok, (getitem_column _ _ HF), !bind_Ok.
  eexists. reflexivity.
Qed.


Lemma rate_dict_ok i G :
  In "Deaths" (column_names G) ->
  In "Persons" (column_names G) ->
  In "PredD" (column_names G) ->
  exists rates, rate_dict i G = Ok rates.
Proof.
  intros HD HP HPD. unfold rate_dict.
  rewrite (getitem_column _ _ HD), bind_Ok, (getitem_column _ _ HP), bind_Ok,
    (getitem_column _ _ HPD), !bind_Ok.
  eexists. reflexivity.
Qed.

Lemma cell9_step_age_ok X X_cont i dfd :
  (i < 3)%nat ->
  In ("Age=M" ++ nth i agelist "")%string (column_names X) ->
  In ("Age=F" ++ nth i agelist "")%string (column_names X) ->
  Forall (fun k => In k (column_names X))
    ["Deaths"; "Persons"; "PredD"; "PredD_Base"] ->
  In ("AF_" ++ nth i agelist "")%string (column_names X_cont) ->
  In ("VE_" ++ nth i agelist "")%string (column_names X_cont) ->
  exists dfd', cell9_step X X_cont i dfd = Ok dfd'.
Proof.
  intros Hi HM HF Hcols HAF HVE.
  inversion Hcols as [|? ? HD Hc1]; subst.
  inversion Hc1 as [|? ? HP Hc2]; subst.
  inversion Hc2 as [|? ? HPD Hc3]; subst.
  inversion Hc3 as [|? ? HPB _]; subst.
  destruct (age_rows_ok X _ HM HF) as (mask & HXa).
  unfold cell9_step. apply Nat.ltb_lt in Hi. rewrite Hi, HXa, bind_Ok.
  set (G := groupby_index_sum (df_select X mask)).
  assert (HG : column_names G = column_names X).
  { subst G. now rewrite column_names_groupby, column_names_df_select. }
  fold (winter_frame G). fold (winter_frame X_cont).
  set (W := winter_frame G). set (C := winter_frame X_cont).
  assert (HW : column_names W = column_names X).
  { subst W. now rewrite column_names_winter_frame. }
  assert (HC : column_names C = column_names X_cont).
  { subst C. apply column_names_winter_frame. }
  rewrite (getitem_column G "Deaths") by (rewrite HG; exact HD).
  rewrite !bind_Ok.
  rewrite (getitem_column G "PredD") by (rewrite HG; exact HPD).
  rewrite !bind_Ok.
  rewrite (getitem_column W "Deaths") by (rewrite HW; exact HD).
  rewrite !bind_Ok.
  rewrite (getitem_column W "PredD_Base") by (rewrite HW; exact HPB).
  rewrite !bind_Ok.
  rewrite (getitem_column W "PredD") by (rewrite HW; exact HPD).
  rewrite !bind_Ok.
  rewrite (getitem_column C _) by (rewrite HC; exact HAF).
  rewrite !bind_Ok.
  rewrite (getitem_column C _) by (rewrite HC; exact HVE).
  rewrite !bind_Ok.
  destruct (rate_dict_ok i G) as (rates & ->);
    try (rewrite HG; assumption).
  rewrite bind_Ok. eexists. reflexivity.
Qed.

Lemma cell9_step_all_ok X X_cont dfd :
  Forall (fun k => In k (column_names X)) ["Deaths"; "Persons"; "PredD"] ->
  exists dfd', cell9_step X X_cont 3 dfd = Ok dfd'.
Proof.
  intros Hcols.
  inversion Hcols as [|? ? HD Hc1]; subst.
  inversion Hc1 as [|? ? HP Hc2]; subst.
  inversion Hc2 as [|? ? HPD _]; subst.
  unfold cell9_step. cbn [Nat.ltb Nat.leb].
  destruct (rate_dict_ok 3 (groupby_index_sum X)) as (rates & ->);
    try (rewrite column_names_groupby; assumption).
  rewrite bind_Ok. eexists. reflexivity.
Qed.

Lemma cell9_ok X X_cont :
  Forall (fun k => In k (column_names X)) cell9_reads_X ->
  Forall (fun k => In k (column_names X_cont)) cell9_reads_X_cont ->
  exists dfd, cell9 X X_cont = Ok dfd.
Proof.
  intros HX HC.
  rewrite Forall_forall in HX, HC.
  assert (HXk : forall k, existsb (String.eqb k) cell9_reads_X = true ->
                          In k (column_names X))
    by (intros k Hk; apply HX, in_names, Hk).
  assert (HCk : forall k, existsb (String.eqb k) cell9_reads_X_cont = true ->
                          In k (column_names X_cont))
    by (intros k Hk; apply HC, in_names, Hk).
  assert (Hfour : Forall (fun k => In k (column_names X))
                    ["Deaths"; "Persons"; "PredD"; "PredD_Base"]).
  { repeat (apply Forall_cons; [apply HXk; reflexivity|]). apply Forall_nil. }
  assert (Hthree : Forall (fun k => In k (column_names X))
                     ["Deaths"; "Persons"; "PredD"]).
  { repeat (apply Forall_cons; [apply HXk; reflexivity|]). apply Forall_nil. }
  unfold cell9. cbn [for_each].
  destruct (cell9_step_age_ok X X_cont 0 (repeat [] 10)) as (d1 & ->);
    [lia | apply HXk; reflexivity | apply HXk; reflexivity | exact Hfour
     | apply HCk; reflexivity | apply HCk; reflexivity |].
  rewrite bind_Ok.
  destruct (cell9_step_age_ok X X_cont 1 d1) as (d2 & ->);
    [lia | apply HXk; reflexivity | apply HXk; reflexivity | exact Hfour
     | apply HCk; reflexivity | apply HCk; reflexivity |].
  rewrite bind_Ok.
  destruct (cell9_step_age_ok X X_cont 2 d2) as (d3 & ->);
    [lia | apply HXk; reflexivity | apply HXk; reflexivity | exact Hfour
     | apply HCk; reflexivity | apply HCk; reflexivity |].
  rewrite bind_Ok.
  destruct (cell9_step_all_ok X X_cont d3 Hthree) as (d4 & ->).
  rewrite bind_Ok. eexists. reflexivity.
Qed.



(** ** The whole run on a table with the documented columns *)

Lemma cv_frames_ok X i :
  In ("Age=M" ++ nth i agelist "")%string (column_names X) ->
  In ("Age=F" ++ nth i agelist "")%string (column_names X) ->
  In "Rate" (column_names X) ->
  exists frames, cv_frames X i = Ok frames.
Proof.
  intros HM HF HR. unfold cv_frames.
  destruct (age_rows_ok X _ HM HF) as (mask & ->). rewrite bind_Ok.
  rewrite (getitem_column (df_select X mask) "Rate")
    by (rewrite column_names_df_select; exact HR).
  rewrite bind_Ok. eexists. reflexivity.
Qed.

Section WholeRun.

Variable RandomState : Type.
Variable seeded : Z -> RandomState.
Variable permutation : RandomState -> nat -> list nat.
Variable fit : DataFrame -> Series -> LinearRegression.
Variable cross_val_score : DataFrame -> Series -> nat -> Result (list Qc).

Hypothesis fit_shape :
  forall P y, length (coef_ (fit P y)) = length (columns P).

(** One round of the scoring loop either appends its lines or ends with
    the error of a scoring call. *)
Lemma cross_validation_step_cases X i acc :
  (exists frames, cv_frames X i = Ok frames) ->
  (exists acc', cross_validation_step cross_val_score X i acc = Ok acc') \/
  (exists P y e,
      cross_val_score P y 5 = Raise e /\
      cross_validation_step cross_val_score X i acc = Raise e).
Proof.
  intros ([[Pf Pb] rate] & Hf). unfold cross_validation_step.
  rewrite Hf, bind_Ok.
  destruct (cross_val_score Pf rate 5) as [full|e] eqn:Efull.
  - rewrite bind_Ok.
    destruct (cross_val_score Pb rate 5) as [base|e] eqn:Ebase.
    + rewrite bind_Ok. left. eexists. reflexivity.
    + right. exists Pb, rate, e. split; [exact Ebase | reflexivity].
  - right. exists Pf, rate, e. split; [exact Efull | reflexivity].
Qed.

(** X14. On a table with the documented columns, one value per row in each
    column and at least two rows, with a fitting routine that returns one
    coefficient per predictor, the only step of the notebook that can fail
    is a call of [cross_val_score]: either the run reaches the end of cell 9
    and returns the frames, the printed scores and the ten dictionaries, or
    it ends with the very error one scoring call (with [cv=5]) raised. No
    column access, insertion, split or prediction fails. *)
Theorem notebook_can_only_fail_in_cross_val_score :
  forall global mydata,
    column_names mydata = input_schema ->
    well_formed mydata ->
    (2 <= nrows mydata)%nat ->
    (exists out printed dfd,
        notebook RandomState seeded permutation fit cross_val_score
          global mydata
        = Ok (out, printed, dfd)) \/
    (exists P y e,
        cross_val_score P y 5 = Raise e /\
        notebook RandomState seeded permutation fit cross_val_score
          global mydata
        = Raise e).
Proof.
  intros global mydata Hs Hwf Hn.
  destruct (cell7_models_schema RandomState seeded permutation fit fit_shape
              global mydata Hs Hwf Hn)
    as (out & Hrun & _ & _ & _ & _ & _ & _ & _ & Hnames & _ & _ & _ & _
        & Hcont).
  unfold notebook. rewrite (cell5_schema mydata Hs), bind_Ok.
  unfold cell7. rewrite Hrun, bind_Ok.
  assert (HX : forall k,
             existsb (String.eqb k) (column_names (initial_X mydata)) = true ->
             In k (column_names (X_out out))).
  { intros k Hk. rewrite Hnames. now apply in_names. }
  assert (Hframes : forall i, (i < 3)%nat ->
                      exists frames, cv_frames (X_out out) i = Ok frames).
  { intros i Hi.
    destruct i as [|[|[|i]]]; [| | |lia];
      apply cv_frames_ok; apply HX; reflexivity. }
  assert (H9 : exists dfd, cell9 (X_out out) (X_cont out) = Ok dfd).
  { apply cell9_ok.
    - unfold cell9_reads_X.
      repeat (apply Forall_cons; [apply HX; reflexivity|]). apply Forall_nil.
    - assert (HC : column_names (X_cont out) = full_predictors).
      { rewrite Hcont. unfold column_names. cbn [columns].
        rewrite contribution_names.
        - reflexivity.
        - rewrite fit_shape. unfold df_take. cbn [columns].
          apply length_map. }
      rewrite HC. unfold cell9_reads_X_cont.
      repeat (apply Forall_cons; [apply in_names; reflexivity|]).
      apply Forall_nil. }
  destruct H9 as (dfd & H9).
  cbn [for_each].
  destruct (cross_validation_step_cases (X_out out) 0 []
              (Hframes 0%nat ltac:(lia)))
    as [(a1 & ->)|(P & y & e & He & ->)];
    [rewrite bind_Ok | right; exists P, y, e; split; [exact He | reflexivity]].
  destruct (cross_validation_step_cases (X_out out) 1 a1
              (Hframes 1%nat ltac:(lia)))
    as [(a2 & ->)|(P & y & e & He & ->)];
    [rewrite bind_Ok | right; exists P, y, e; split; [exact He | reflexivity]].
  destruct (cross_validation_step_cases (X_out out) 2 a2
              (Hframes 2%nat ltac:(lia)))
    as [(a3 & ->)|(P & y & e & He & ->)];
    [rewrite !bind_Ok | right; exists P, y, e; split; [exact He | reflexivity]].
  rewrite H9, bind_Ok.
  left. eexists _, _, _. reflexivity.
Qed.

End WholeRun.

Lemma notebook_can_only_fail_in_cross_val_score_witness :
  column_names sample_table = input_schema /\
  well_formed sample_table /\
  (2 <= nrows sample_table)%nat /\
  ((exists out printed dfd,
       notebook Z (fun seed => seed) sample_permutation sample_fit
         sample_cross_val_score 0%Z sample_table
       = Ok (out, printed, dfd)) \/
   (exists P y e,
       sample_cross_val_score P y 5 = Raise e /\
       notebook Z (fun seed => seed) sample_permutation sample_fit
         sample_cross_val_score 0%Z sample_table
       = Raise e)).
Proof.
  split; [exact sample_schema|]. split; [exact sample_well_formed|].
  split; [exact sample_rows|].
  exact (notebook_can_only_fail_in_cross_val_score Z (fun seed => seed)
           sample_permutation sample_fit sample_cross_val_score
           sample_fit_shape 0%Z sample_table sample_schema sample_well_formed
           sample_rows).
Defined.


(** ** Totals under [groupby(index).sum()] *)

Lemma qsum_map_add {A} (f g : A -> Qc) xs :
  qsum (map (fun d => (f d + g d)%Qc) xs)
  = (qsum (map f xs) + qsum (map g xs))%Qc.
Proof.
  unfold qsum. induction xs as [|x xs IH]; cbn [map fold_right].
  - change (num 0) with 0%Qc. ring.
  - rewrite IH. ring.
Qed.

Lemma qsum_map_zero {A} (f : A -> Qc) xs :
  (forall d, In d xs -> f d = 0%Qc) -> qsum (map f xs) = 0%Qc.
Proof.
  unfold qsum. induction xs as [|x xs IH]; intros H; cbn [map fold_right].
  - reflexivity.
  - rewrite IH by (intros d Hd; apply H; now right).
    rewrite (H x) by now left. ring.
Qed.

(** A value placed at one date of a list of distinct dates. *)
Lemma qsum_at_key keys t (x : Qc) :
  strictly_increasing keys = true ->
  In t keys ->
  qsum (map (fun d => if ts_eqb d t then x else 0%Qc) keys) = x.
Proof.
  induction keys as [|a keys IH]; intros Hs Hin; [destruct Hin|].
  change (qsum (map ?f (a :: keys))) with (f a + qsum (map f keys))%Qc.
  cbv beta.
  destruct (ts_eqb a t) eqn:E.
  - apply ts_eqb_eq in E. subst a.
    rewrite qsum_map_zero; [ring|].
    intros d Hd.
    pose proof (strictly_increasing_head _ _ _ Hs Hd) as Hlt.
    apply ts_ltb_not_eqb in Hlt. rewrite ts_eqb_sym in Hlt. now rewrite Hlt.
  - destruct Hin as [->|Hin]; [now rewrite ts_eqb_refl in E|].
    rewrite IH; [ring | eapply strictly_increasing_tail; eassumption | exact Hin].
Qed.

Lemma group_total_cons t idx (x : Qc) s d :
  group_total (t :: idx) (x :: s) d
  = ((if ts_eqb d t then x else 0%Qc) + group_total idx s d)%Qc.
Proof.
  unfold group_total. cbn [map select].
  destruct (ts_eqb d t).
  - reflexivity.
  - ring.
Qed.

Lemma qsum_group_totals keys idx (s : list Qc) :
  strictly_increasing keys = true ->
  (forall t, In t idx -> In t keys) ->
  length s = length idx ->
  qsum (map (group_total idx s) keys) = qsum s.
Proof.
  intros Hs. revert s.
  induction idx as [|t idx IH]; intros s Hin Hlen.
  - destruct s; [|discriminate Hlen].
    apply qsum_map_zero. intros d _. reflexivity.
  - destruct s as [|x s]; [discriminate Hlen|].
    rewrite (map_ext _ _ (group_total_cons t idx x s)).
    rewrite qsum_map_add, qsum_at_key by (try apply Hin; auto; now left).
    rewrite IH.
    + reflexivity.
    + intros t' Ht'. apply Hin. now right.
    + now injection Hlen.
Qed.

(** X15. Grouping a frame by its index and summing loses nothing: for every
    column of a frame with one value per row, the values of the grouped
    frame add up to what the values of the ungrouped column add up to
    (numbers as exact rationals). In particular the deaths plotted per date
    for an age band add up to the deaths on the band's rows. *)
Theorem groupby_sum_conserves_column_totals :
  forall df k,
    well_formed df ->
    In k (column_names df) ->
    qsum (column (groupby_index_sum df) k) = qsum (column df k).
Proof.
  intros df k Hwf Hk.
  rewrite column_groupby by exact Hk.
  apply qsum_group_totals.
  - apply group_keys_sorted.
  - intros t. apply group_keys_complete.
  - now apply column_length.
Qed.

Lemma groupby_sum_conserves_column_totals_witness :
  well_formed sample_table /\
  In "Deaths" (column_names sample_table) /\
  qsum (column (groupby_index_sum sample_table) "Deaths")
  = qsum (column sample_table "Deaths").
Proof.
  assert (Hin : In "Deaths" (column_names sample_table))
    by (apply in_names; reflexivity).
  split; [exact sample_well_formed|]. split; [exact Hin|].
  exact (groupby_sum_conserves_column_totals sample_table "Deaths"
           sample_well_formed Hin).
Defined.

(** X16. A successful cell 9 returns ten dictionaries. The first six hold
    one series per age band, in the order of [agelist], under the labels
    "Actual", "Unexplained", "Actual", "Unexplained", "Contribution - AF" and
    "Contribution - VE"; each of the last four holds an "Actual" and a
    "Predicted" series, for the three bands and then for all ages under the
    last description of [agedesc]. No label is written twice into one
    dictionary, so no series is overwritten. *)
Theorem cell9_dictionaries_and_labels :
  forall X X_cont dfd,
    cell9 X X_cont = Ok dfd ->
    let per_band prefix := map (fun desc => (prefix ++ desc)%string)
                             (firstn 3 agedesc) in
    let rates i := [("Actual - Age " ++ nth i agedesc "")%string;
                    ("Predicted - Age " ++ nth i agedesc "")%string] in
    map (map fst) dfd
    = [per_band "Actual - Age "; per_band "Unexplained - Age ";
       per_band "Actual - Age "; per_band "Unexplained - Age ";
       per_band "Contribution - AF "; per_band "Contribution - VE ";
       rates 0%nat; rates 1%nat; rates 2%nat; rates 3%nat].
Proof.
  intros X X_cont dfd Hrun per_band rates.
  destruct (cell9_inv _ _ _ Hrun) as (Xa0 & Xa1 & Xa2 & _ & _ & _ & _ & ->).
  reflexivity.
Qed.

Lemma cell9_dictionaries_and_labels_witness :
  cell9 (fst sample_frames) (snd sample_frames) = Ok sample_dfd /\
  length sample_dfd = 10%nat /\
  map fst (nth 4 sample_dfd [])
  = ["Contribution - AF 65-74"; "Contribution - AF 75-84";
     "Contribution - AF 85+  "].
Proof.
  split; [exact sample_cell9|].
  pose proof (cell9_dictionaries_and_labels
                (fst sample_frames) (snd sample_frames) sample_dfd
                sample_cell9) as H.
  cbv zeta in H.
  split.
  - apply (f_equal (@length _)) in H. rewrite length_map in H. exact H.
  - apply (f_equal (fun l => nth 4 l [])) in H.
    transitivity (nth 4 (map (map fst) sample_dfd) []);
      [symmetry; exact (map_nth (map fst) sample_dfd [] 4) | exact H].
Defined.


